(** * epub2MD: the EPUB resolution engine of [src/parseEpub.ts]

    A shallow embedding of the [Epub] class: generic parsed-markup objects,
    the archive accessor, manifest and spine indexing, the link resolver, the
    two table-of-contents builders, metadata extraction and section
    resolution.  Exceptions are modelled by the [Result] monad, the mutable
    fields of [Epub] by explicit state passing. *)

From Stdlib Require Import String Ascii List ZArith NArith Lia Bool Arith Permutation.
Import ListNotations.
Local Open Scope string_scope.
Local Open Scope list_scope.

Set Implicit Arguments.
Set Warnings "-register-all".

(** ** JavaScript values and exceptions *)

(** [GeneralObject]: what the markup-to-object converter produces.  Strings
    stand for JS strings, a character outside ASCII by the bytes of its UTF-8
    form, as in the literals of this file; an object is the list of its own
    properties, the first binding of a key being the property. *)
Inductive JsVal : Type :=
| JUndef
| JNull
| JStr (s : string)
| JArr (l : list JsVal)
| JObj (kv : list (string * JsVal)).

Inductive JsError : Type :=
| TypeError
| URIError
| Error (msg : string)
| Thrown (tag : string).

Inductive Result (A : Type) : Type :=
| Ok (a : A)
| Err (e : JsError).

Arguments Ok {A} a.
Arguments Err {A} e.

Definition bind {A B : Type} (r : Result A) (f : A -> Result B) : Result B :=
  match r with
  | Ok a => f a
  | Err e => Err e
  end.

Declare Scope js_scope.
Delimit Scope js_scope with js.
Notation "x <- r ;; k" := (bind r (fun x => k))
  (at level 61, r at next level, right associativity) : js_scope.
Notation "' p <- r ;; k" := (bind r (fun x => let p := x in k))
  (at level 61, p pattern, r at next level, right associativity) : js_scope.
Local Open Scope js_scope.

(** [list.map(f)] where [f] may throw: left to right, the first exception
    ends the loop. *)
Fixpoint mapM {A B : Type} (f : A -> Result B) (l : list A) : Result (list B) :=
  match l with
  | [] => Ok []
  | x :: r => y <- f x ;; ys <- mapM f r ;; Ok (y :: ys)
  end.

(** A value read from an array slot or returned where [null] is possible. *)
Inductive Maybe (A : Type) : Type :=
| Val (a : A)
| Undefined
| Null.

Arguments Val {A} a.
Arguments Undefined {A}.
Arguments Null {A}.

(** [l[i]] on an array. *)
Definition index {A : Type} (l : list A) (i : Z) : Maybe A :=
  if (i <? 0)%Z then Undefined
  else match nth_error l (Z.to_nat i) with
       | Some a => Val a
       | None => Undefined
       end.

(** JS truthiness. *)
Definition truthy (v : JsVal) : bool :=
  match v with
  | JUndef | JNull => false
  | JStr s => negb (s =? "")
  | JArr _ | JObj _ => true
  end.

(** [v == null] *)
Definition nullish (v : JsVal) : bool :=
  match v with
  | JUndef | JNull => true
  | _ => false
  end.

Definition isArray (v : JsVal) : bool :=
  match v with
  | JArr _ => true
  | _ => false
  end.

(** [v === s] for a string [s]. *)
Definition str_eq (v : JsVal) (s : string) : bool :=
  match v with
  | JStr t => t =? s
  | _ => false
  end.

Fixpoint assoc {A : Type} (k : string) (kv : list (string * A)) : option A :=
  match kv with
  | [] => None
  | (k', v) :: r => if k' =? k then Some v else assoc k r
  end.

(** [v[k]] on a value that is not null or undefined, for the property names
    this program reads (none of them is an index, [length] or a built-in
    member of strings, arrays or objects). *)
Definition member (v : JsVal) (k : string) : JsVal :=
  match v with
  | JObj kv => match assoc k kv with Some x => x | None => JUndef end
  | _ => JUndef
  end.

(** [v[k]] and [v.k]: a TypeError on null and undefined. *)
Definition prop (v : JsVal) (k : string) : Result JsVal :=
  if nullish v then Err TypeError else Ok (member v k).

(** [v?.k] *)
Definition optprop (v : JsVal) (k : string) : JsVal :=
  if nullish v then JUndef else member v k.

Definition first_char (s : string) : JsVal :=
  match s with
  | EmptyString => JUndef
  | String c _ => JStr (String c EmptyString)
  end.

(** [v[0]] on a value that is not null or undefined. *)
Definition member0 (v : JsVal) : JsVal :=
  match v with
  | JArr l => match l with x :: _ => x | [] => JUndef end
  | JStr s => first_char s
  | JObj kv => match assoc "0" kv with Some x => x | None => JUndef end
  | _ => JUndef
  end.

Definition index0 (v : JsVal) : Result JsVal :=
  if nullish v then Err TypeError else Ok (member0 v).

(** [v?.[0]] *)
Definition optindex0 (v : JsVal) : JsVal :=
  if nullish v then JUndef else member0 v.

(** String conversion ([String(v)], [`${v}`], ['' + v], property keys):
    arrays join their elements with a comma, null and undefined elements
    giving the empty string. *)
Fixpoint to_string (v : JsVal) : string :=
  match v with
  | JUndef => "undefined"
  | JNull => "null"
  | JStr s => s
  | JArr l =>
      (fix join (l : list JsVal) : string :=
         match l with
         | [] => ""
         | x :: r =>
             let e := match x with
                      | JUndef | JNull => ""
                      | _ => to_string x
                      end in
             match r with
             | [] => e
             | _ :: _ => (e ++ "," ++ join r)%string
             end
         end) l
  | JObj _ => "[object Object]"
  end.

(** [l.join('')] *)
Definition join_empty (l : list JsVal) : string :=
  fold_right (fun x acc =>
                ((match x with
                  | JUndef | JNull => ""
                  | _ => to_string x
                  end) ++ acc)%string) "" l.

(** ** Lodash replacements (lines 11-31) *)

Fixpoint get_loop (result : JsVal) (path : list string) : option JsVal :=
  match path with
  | [] => Some result
  | key :: rest =>
      if nullish result then None else get_loop (member result key) rest
  end.

(** [get(obj, path, defaultValue)] *)
Definition get (obj : JsVal) (path : list string) (defaultValue : JsVal) : JsVal :=
  match get_loop obj path with
  | None => defaultValue
  | Some result => if nullish result then defaultValue else result
  end.

(** [pickBy(obj, predicate)] on a record given as its list of properties. *)
Definition pickBy (obj : list (string * JsVal)) (predicate : JsVal -> bool)
  : list (string * JsVal) :=
  filter (fun p => predicate (snd p)) obj.

(** ** Data model *)

(** [interface Manifest]: the two attributes as they were read from the
    package document ([undefined] when the attribute is missing). *)
Record Manifest : Type := mkManifest {
  href : JsVal;
  id : JsVal
}.

(** What [parseLink] returns: the base name of the link and its fragment. *)
Record ParsedLink : Type := mkParsedLink {
  name : string;
  hash : string
}.

(** [playOrder: number | string]: a counter value (nested-list markup) or the
    attribute as authored (navigation points). *)
Inductive PlayOrder : Type :=
| PlayNum (n : Z)
| PlayVal (v : JsVal).

(** [interface TOCItem]; [children] is the list of built children, or the
    falsy value found where the nested list was looked for. *)
Inductive TOCItem : Type :=
| TOC (name sectionId nodeId path : JsVal) (playOrder : PlayOrder)
      (children : JsVal + list TOCItem).

Definition playOrder (t : TOCItem) : PlayOrder :=
  match t with TOC _ _ _ _ o _ => o end.

Definition children (t : TOCItem) : JsVal + list TOCItem :=
  match t with TOC _ _ _ _ _ c => c end.

Definition sectionId (t : TOCItem) : JsVal :=
  match t with TOC _ s _ _ _ _ => s end.

(** The items of an outline in document order: a node, then its children. *)
Fixpoint preorder (t : TOCItem) : list TOCItem :=
  match t with
  | TOC _ _ _ _ _ c =>
      t :: match c with
           | inl _ => []
           | inr kids => flat_map preorder kids
           end
  end.

Definition preorder_all (l : list TOCItem) : list TOCItem :=
  flat_map preorder l.

(** [MetaInfo]: the record as the list of its properties, in insertion
    order. *)
Definition MetaInfo : Type := list (string * JsVal).

(** An object created by [{}] and used as a map from strings to numbers: its
    own properties in the order they were created.  What it inherits from
    [Object.prototype] is accounted for in [obj_set] and [obj_get], the order
    in which JS enumerates the keys in [keys]. *)
Definition NumMap : Type := list (string * Z).

(** An own property is written: an existing one keeps its place, a new one
    comes last. *)
Fixpoint obj_put (o : NumMap) (k : string) (v : Z) : NumMap :=
  match o with
  | [] => [(k, v)]
  | (k', v') :: r => if k' =? k then (k', v) :: r else (k', v') :: obj_put r k v
  end.

(** [o[k] = v] for a number [v].  [__proto__] is an accessor of
    [Object.prototype], whose setter does nothing with a number: the
    assignment creates no property.  Every other inherited member is a
    writable data property, which the assignment shadows by an own one. *)
Definition obj_set (o : NumMap) (k : string) (v : Z) : NumMap :=
  if k =? "__proto__" then o else obj_put o k v.

(** The names of the members of [Object.prototype]. *)
Definition object_prototype : list string :=
  ["constructor"; "__defineGetter__"; "__defineSetter__"; "hasOwnProperty";
   "__lookupGetter__"; "__lookupSetter__"; "isPrototypeOf";
   "propertyIsEnumerable"; "toString"; "valueOf"; "__proto__";
   "toLocaleString"].

(** What [o[k]] gives: the number of an own property, a function or object
    inherited from [Object.prototype], or [undefined]. *)
Inductive Slot : Type :=
| Own (z : Z)
| Inherited
| Missing.

(** [o[k]] *)
Definition obj_get (o : NumMap) (k : string) : Slot :=
  match assoc k o with
  | Some z => Own z
  | None => if existsb (String.eqb k) object_prototype then Inherited else Missing
  end.

Definition digit (c : ascii) : option N :=
  let n := N_of_ascii c in
  if ((48 <=? n) && (n <=? 57))%N then Some (n - 48)%N else None.

Fixpoint decimal (s : string) (acc : N) : option N :=
  match s with
  | EmptyString => Some acc
  | String c r =>
      match digit c with
      | Some d => decimal r (10 * acc + d)%N
      | None => None
      end
  end.

(** The number a key stands for when it is an array index: the decimal form,
    without sign or leading zero, of an integer below 2^32 - 1. *)
Definition array_index (k : string) : option N :=
  match k with
  | EmptyString => None
  | String c r =>
      if (c =? "0")%char then (if r =? "" then Some 0%N else None)
      else match decimal k 0 with
           | Some n => if (n <? 4294967295)%N then Some n else None
           | None => None
           end
  end.

(** A key that is no array index. *)
Definition named_key (k : string) : bool :=
  match array_index k with
  | Some _ => false
  | None => true
  end.

(** A key that is a plain name: no array index, and not [__proto__]. *)
Definition ordinary_key (k : string) : bool :=
  named_key k && negb (k =? "__proto__").

Fixpoint insert_by_index (n : N) (k : string) (l : list (N * string))
  : list (N * string) :=
  match l with
  | [] => [(n, k)]
  | (m, k') :: r =>
      if (n <? m)%N then (n, k) :: l else (m, k') :: insert_by_index n k r
  end.

(** The array-index keys among [l], in ascending order of the index. *)
Definition index_keys (l : list string) : list (N * string) :=
  fold_right (fun k acc => match array_index k with
                           | Some n => insert_by_index n k acc
                           | None => acc
                           end) [] l.

(** The map [l[0]: i, l[1]: i + 1, ...] *)
Fixpoint indexed (l : list string) (i : Z) : NumMap :=
  match l with
  | [] => []
  | x :: r => (x, i) :: indexed r (i + 1)
  end.

(** The names of the own properties, in the order they were created. *)
Definition names (o : NumMap) : list string := map fst o.

(** [Object.keys(o)]: the keys that are array indices first, in ascending
    order, then the other keys in the order they were created. *)
Definition keys (o : NumMap) : list string :=
  map snd (index_keys (names o)) ++ filter named_key (names o).

(** [[...new Set(l)]]: the first occurrence of each element, in order. *)
Fixpoint set_of (l : list string) : list string :=
  match l with
  | [] => []
  | x :: r => x :: filter (fun y => negb (y =? x)) (set_of r)
  end.

(** [l.find(p)] where [p] may throw. *)
Fixpoint findM {A : Type} (p : A -> Result bool) (l : list A) : Result (option A) :=
  match l with
  | [] => Ok None
  | x :: r => b <- p x ;; if b then Ok (Some x) else findM p r
  end.

(** [l.find(m => m.id === id)] *)
Definition find_id (s : string) (l : list Manifest) : option Manifest :=
  find (fun m => str_eq (id m) s) l.

(** [path[0] === '/'] on a string. *)
Definition starts_with_separator (s : string) : bool :=
  match s with
  | EmptyString => false
  | String c _ => (c =? "/")%char
  end.

(** [path.substring(1)] *)
Definition drop_first (s : string) : string :=
  match s with
  | EmptyString => EmptyString
  | String _ r => r
  end.

(** ** Metadata extraction (lines 42-67) *)

(** The value [parseMetadata] assigns to the field [item] of [info]. *)
Definition extract (meta : JsVal) (item : string) : Result JsVal :=
  if item =? "author" then
    match get meta ["dc:creator"] (JArr []) with
    | JArr author =>
        l <- mapM (fun a => prop a "#text") author ;;
        Ok (JArr l)
    | author => Ok (JArr [optprop author "#text"])
    end
  else if item =? "description" then
    Ok (get meta [item; "_"] JUndef)
  else
    Ok (get meta [("dc:" ++ item)%string] JUndef).

Definition fields : list string :=
  ["title"; "author"; "description"; "language"; "publisher"; "rights"].

(** [v !== undefined] *)
Definition defined (v : JsVal) : bool :=
  match v with
  | JUndef => false
  | _ => true
  end.

(** The predicate given to [pickBy]. *)
Definition present (v : JsVal) : bool :=
  match v with
  | JArr l => negb (Nat.eqb (length l) 0) && defined (member0 v)
  | _ => defined v
  end.

Definition parseMetadata (metadata : JsVal) : Result MetaInfo :=
  let meta := match metadata with
              | JUndef => JObj []
              | _ => metadata
              end in
  info <- mapM (fun item => v <- extract meta item ;; Ok (item, v)) fields ;;
  Ok (pickBy info present).

Section Epub.

(** *** Collaborators

    The built-in [decodeURI] and the modules this file imports: [xmlToJson]
    and [determineRoot] of [./utils], [parseLink], and [parseSection] with the
    [register] method of the section it builds.  Each may throw. *)
Variable SectionT : Type.
Variable Hook : Type.
Variable decodeURI : string -> Result string.
Variable xmlToJson : string -> Result JsVal.
Variable determineRoot : JsVal -> Result string.
Variable parseLink : JsVal -> Result ParsedLink.

(** The argument of [parseSection]. *)
Record SectionInput : Type := mkSectionInput {
  input_id : string;
  htmlString : string;
  resourceResolver : JsVal -> Result string;
  idResolver : JsVal -> Result JsVal;
  input_expand : bool
}.

Variable parseSection : SectionInput -> Result SectionT.
Variable register : SectionT -> Hook -> Result SectionT.

(** [ParserOptions] after the defaults were merged in. *)
Record ParserOptions : Type := mkOptions {
  type : string;
  expand : bool;
  convertToMarkdown : option Hook
}.

Definition defaultOptions : ParserOptions :=
  {| type := "path"; expand := false; convertToMarkdown := None |}.

(** The fields of [class Epub].  [_zip] gives the text of the archive entry
    of a name; a field not yet assigned is [None] or [JUndef]. *)
Record Epub : Type := mkEpub {
  _zip : string -> option string;
  _opfPath : JsVal;
  _root : option string;
  _content : JsVal;
  _manifest : option (list Manifest);
  _spine : option NumMap;
  _toc : JsVal;
  _metadata : JsVal;
  _options : ParserOptions;
  structure : option (list TOCItem);
  info : option MetaInfo;
  sections : option (list SectionT);
  tocFile : JsVal
}.

(** [new Epub(input, options)] on the opened archive. *)
Definition newEpub (zip : string -> option string) (options : option ParserOptions)
  : Epub :=
  {| _zip := zip; _opfPath := JUndef; _root := None; _content := JUndef;
     _manifest := None; _spine := None; _toc := JUndef; _metadata := JUndef;
     _options := match options with Some o => o | None => defaultOptions end;
     structure := None; info := None; sections := None; tocFile := JUndef |}.

Definition set_opfPath (v : JsVal) (e : Epub) : Epub :=
  mkEpub (_zip e) v (_root e) (_content e) (_manifest e) (_spine e) (_toc e)
         (_metadata e) (_options e) (structure e) (info e) (sections e) (tocFile e).

Definition set_content (v : JsVal) (e : Epub) : Epub :=
  mkEpub (_zip e) (_opfPath e) (_root e) v (_manifest e) (_spine e) (_toc e)
         (_metadata e) (_options e) (structure e) (info e) (sections e) (tocFile e).

Definition set_root (r : string) (e : Epub) : Epub :=
  mkEpub (_zip e) (_opfPath e) (Some r) (_content e) (_manifest e) (_spine e) (_toc e)
         (_metadata e) (_options e) (structure e) (info e) (sections e) (tocFile e).

Definition set_manifest (m : list Manifest) (e : Epub) : Epub :=
  mkEpub (_zip e) (_opfPath e) (_root e) (_content e) (Some m) (_spine e) (_toc e)
         (_metadata e) (_options e) (structure e) (info e) (sections e) (tocFile e).

Definition set_metadata (v : JsVal) (e : Epub) : Epub :=
  mkEpub (_zip e) (_opfPath e) (_root e) (_content e) (_manifest e) (_spine e) (_toc e)
         v (_options e) (structure e) (info e) (sections e) (tocFile e).

Definition set_tocFile (v : JsVal) (e : Epub) : Epub :=
  mkEpub (_zip e) (_opfPath e) (_root e) (_content e) (_manifest e) (_spine e) (_toc e)
         (_metadata e) (_options e) (structure e) (info e) (sections e) v.

Definition set_toc (v : JsVal) (e : Epub) : Epub :=
  mkEpub (_zip e) (_opfPath e) (_root e) (_content e) (_manifest e) (_spine e) v
         (_metadata e) (_options e) (structure e) (info e) (sections e) (tocFile e).

Definition set_structure (s : list TOCItem) (e : Epub) : Epub :=
  mkEpub (_zip e) (_opfPath e) (_root e) (_content e) (_manifest e) (_spine e) (_toc e)
         (_metadata e) (_options e) (Some s) (info e) (sections e) (tocFile e).

Definition set_spine (s : NumMap) (e : Epub) : Epub :=
  mkEpub (_zip e) (_opfPath e) (_root e) (_content e) (_manifest e) (Some s) (_toc e)
         (_metadata e) (_options e) (structure e) (info e) (sections e) (tocFile e).

Definition set_info (i : MetaInfo) (e : Epub) : Epub :=
  mkEpub (_zip e) (_opfPath e) (_root e) (_content e) (_manifest e) (_spine e) (_toc e)
         (_metadata e) (_options e) (structure e) (Some i) (sections e) (tocFile e).

Definition set_sections (s : list SectionT) (e : Epub) : Epub :=
  mkEpub (_zip e) (_opfPath e) (_root e) (_content e) (_manifest e) (_spine e) (_toc e)
         (_metadata e) (_options e) (structure e) (info e) (Some s) (tocFile e).

(** *** Archive accessor (lines 113-139) *)

(** [this._root + path] *)
Definition root_prefix (e : Epub) : string :=
  match _root e with
  | Some r => r
  | None => "undefined"
  end.

(** The path looked up for [path], before decoding. *)
Definition resolved_path (e : Epub) (path : JsVal) : Result string :=
  c <- index0 path ;;
  if str_eq c "/" then
    match path with
    | JStr s => Ok (drop_first s)
    | _ => Err TypeError
    end
  else Ok (root_prefix e ++ to_string path)%string.

(** [resolve(path).asText()] *)
Definition resolve (e : Epub) (path : JsVal) : Result string :=
  _path <- resolved_path e path ;;
  decodedPath <- decodeURI _path ;;
  match _zip e decodedPath with
  | Some entry => Ok entry
  | None => Err (Error (_path ++ " not found!"))
  end.

Definition _resolveXMLAsJsObject (e : Epub) (path : JsVal) : Result JsVal :=
  xml <- resolve e path ;;
  xmlToJson xml.

(** Lines 144-146. *)
Definition _getOpfPath (e : Epub) : Result JsVal :=
  o <- _resolveXMLAsJsObject e (JStr "/META-INF/container.xml") ;;
  c <- prop o "container" ;;
  rs <- prop c "rootfiles" ;;
  r <- prop rs "rootfile" ;;
  prop r "@full-path".

(** *** Link resolver (lines 154-161) *)

Definition _resolveIdFromLink (e : Epub) (link : JsVal) : Result JsVal :=
  tar <- parseLink link ;;
  tarItem <- match _manifest e with
             | Some m =>
                 findM (fun item =>
                          l <- parseLink (href item) ;;
                          Ok (name l =? name tar)) m
             | None => Ok None
             end ;;
  Ok match tarItem with
     | Some item => if nullish (id item) then JStr "" else id item
     | None => JStr ""
     end.

Definition getItemId (e : Epub) (link : JsVal) : Result JsVal :=
  _resolveIdFromLink e link.

(** *** Manifest and spine (lines 178-200) *)

Definition getManifest (e : Epub) (content : JsVal) : Result (list Manifest) :=
  match _manifest e with
  | Some m => Ok m
  | None =>
      match get content ["package"; "manifest"; "item"] (JArr []) with
      | JArr items =>
          mapM (fun item =>
                  h <- prop item "@href" ;;
                  i <- prop item "@id" ;;
                  Ok {| href := h; id := i |}) items
      | _ => Err TypeError
      end
  end.

Fixpoint spine_loop (itemRefs : list JsVal) (i : Z) (spine : NumMap)
  : Result NumMap :=
  match itemRefs with
  | [] => Ok spine
  | item :: rest =>
      idref <- prop item "@idref" ;;
      spine_loop rest (i + 1) (obj_set spine (to_string idref) i)
  end.

(** The item references of the package document, a single one wrapped into
    an array (lines 192-193). *)
Definition itemRefs (content : JsVal) : list JsVal :=
  match get content ["package"; "spine"; "itemref"] (JArr []) with
  | JArr l => l
  | other => [other]
  end.

Definition getSpine (e : Epub) : Result NumMap :=
  _ <- getManifest e JUndef ;;
  spine_loop (itemRefs (_content e)) 0 [].

(** The ids the item references name, in the order they are declared. *)
Definition idrefs (content : JsVal) : list string :=
  map (fun item => to_string (member item "@idref")) (itemRefs content).

(** *** Table of contents builders (lines 203-291)

    The two builders recurse into the navigation object wherever the markup
    nests; the recursion is driven by [fuel], and the entry points give as
    much as the object is high ([height_fuel_html], [height_fuel_ncx]: it is
    always enough).  A traversal carries the state [S] of the closure
    ([runningIndex] for the nested-list markup) and may throw. *)

Definition Walk (S A : Type) : Type := S -> option (Result (A * S)).

Definition ret {S A : Type} (a : A) : Walk S A :=
  fun s => Some (Ok (a, s)).

Definition bindW {S A B : Type} (w : Walk S A) (f : A -> Walk S B) : Walk S B :=
  fun s =>
    match w s with
    | None => None
    | Some (Err e) => Some (Err e)
    | Some (Ok (a, s')) => f a s'
    end.

Definition lift {S A : Type} (r : Result A) : Walk S A :=
  fun s =>
    match r with
    | Ok a => Some (Ok (a, s))
    | Err e => Some (Err e)
    end.

Definition no_fuel {S A : Type} : Walk S A := fun _ => None.

Definition read {S : Type} : Walk S S := fun s => Some (Ok (s, s)).

Definition write {S : Type} (s : S) : Walk S unit := fun _ => Some (Ok (tt, s)).

Notation "x <~ w ;; k" := (bindW w (fun x => k))
  (at level 61, w at next level, right associativity).

Fixpoint mapW {S A B : Type} (f : A -> Walk S B) (l : list A) : Walk S (list B) :=
  match l with
  | [] => ret []
  | x :: r => y <~ f x ;; ys <~ mapW f r ;; ret (y :: ys)
  end.

(** [collection.map(f)]: a TypeError when [collection] is not an array. *)
Definition arrayMapW {S B : Type} (f : JsVal -> Walk S B) (collection : JsVal)
  : Walk S (list B) :=
  match collection with
  | JArr l => mapW f l
  | _ => lift (Err TypeError)
  end.

Fixpoint height (v : JsVal) : nat :=
  match v with
  | JArr l =>
      S ((fix hs (l : list JsVal) : nat :=
            match l with
            | [] => 0
            | x :: r => Nat.max (height x) (hs r)
            end) l)
  | JObj kv =>
      S ((fix hs (kv : list (string * JsVal)) : nat :=
            match kv with
            | [] => 0
            | (_, x) :: r => Nat.max (height x) (hs r)
            end) kv)
  | _ => 1
  end.

(** [parseHTMLNavPoints], lines 207-235. *)
Fixpoint parseHTMLNavPoints (e : Epub) (fuel : nat) (navPoint : JsVal)
  : Walk Z TOCItem :=
  match fuel with
  | O => no_fuel
  | S fuel' =>
      a <~ lift (prop navPoint "a") ;;
      a0 <~ lift (index0 a) ;;
      let element := if truthy a0 then a0 else JObj [] in
      attrs <~ lift (prop element "$") ;;
      path <~ lift (prop attrs "href") ;;
      let name := member element "_" in
      let prefix := member element "span" in
      name <~ lift (if truthy prefix then
                      match prefix with
                      | JArr ps =>
                          texts <- mapM (fun p => prop p "_") ps ;;
                          Ok (JStr (join_empty texts ++ to_string name))
                      | _ => Err TypeError
                      end
                    else Ok name) ;;
      sectionId <~ lift (_resolveIdFromLink e path) ;;
      l <~ lift (parseLink path) ;;
      let nodeId := JStr (hash l) in
      playOrder <~ read ;;
      let children := optprop (optindex0 (optprop navPoint "ol")) "li" in
      children <~ (if truthy children then
                     kids <~ arrayMapW (parseHTMLNavPoints e fuel') children ;;
                     ret (inr kids)
                   else ret (inl children)) ;;
      runningIndex <~ read ;;
      _ <~ write (runningIndex + 1)%Z ;;
      ret (TOC name sectionId nodeId path (PlayNum playOrder) children)
  end.

(** [parseOuterHTML], lines 237-239. *)
Definition parseOuterHTML (e : Epub) (fuel : nat) (collection : JsVal)
  : Walk Z (list TOCItem) :=
  arrayMapW (parseHTMLNavPoints e fuel) collection.

(** The outcome of a traversal started in state [s]; [Thrown "fuel"] stands
    for a traversal cut short, which the entry points below never are. *)
Definition run {S A : Type} (w : Walk S A) (s : S) : Result A :=
  match w s with
  | Some (Ok (a, _)) => Ok a
  | Some (Err e) => Err e
  | None => Err (Thrown "fuel")
  end.

(** [tocObj.html.body[0].nav[0]['ol'][0].li], line 204. *)
Definition tocRoot (tocObj : JsVal) : Result JsVal :=
  html <- prop tocObj "html" ;;
  body <- prop html "body" ;;
  body0 <- index0 body ;;
  nav <- prop body0 "nav" ;;
  nav0 <- index0 nav ;;
  ol <- prop nav0 "ol" ;;
  ol0 <- index0 ol ;;
  prop ol0 "li".

Definition _genStructureForHTML (e : Epub) (tocObj : JsVal) : Result (list TOCItem) :=
  root <- tocRoot tocObj ;;
  run (parseOuterHTML e (height tocObj) root) 1%Z.

(** [parseNavPoint], lines 258-282. *)
Fixpoint parseNavPoint (e : Epub) (fuel : nat) (navPoint : JsVal)
  : Walk unit TOCItem :=
  match fuel with
  | O => no_fuel
  | S fuel' =>
      let path := get navPoint ["content"; "@src"] (JStr "") in
      let name := get navPoint ["navLabel"; "text"] JUndef in
      let playOrder := get navPoint ["@playOrder"] JUndef in
      l <~ lift (parseLink path) ;;
      children <~ lift (prop navPoint "navPoint") ;;
      children <~ (if truthy children then
                     kids <~ mapW (parseNavPoint e fuel')
                                  (match children with
                                   | JArr ps => ps
                                   | other => [other]
                                   end) ;;
                     ret (inr kids)
                   else ret (inl children)) ;;
      sectionId <~ lift (_resolveIdFromLink e path) ;;
      let nodeId := if (hash l =? "") then member navPoint "@id" else JStr (hash l) in
      ret (TOC name sectionId nodeId path (PlayVal playOrder) children)
  end.

(** [parseNavPoints], lines 284-288. *)
Definition parseNavPoints (e : Epub) (fuel : nat) (navPoints : JsVal)
  : Walk unit (list TOCItem) :=
  mapW (parseNavPoint e fuel)
       (match navPoints with
        | JArr ps => ps
        | other => [other]
        end).

(** [_genStructure(tocObj)], lines 251-291. *)
Definition _genStructure (e : Epub) (tocObj : JsVal) : Result (list TOCItem) :=
  html <- prop tocObj "html" ;;
  if truthy html then _genStructureForHTML e tocObj
  else
    let rootNavPoints := get tocObj ["ncx"; "navMap"; "navPoint"] (JArr []) in
    run (parseNavPoints e (height tocObj) rootNavPoints) tt.

(** *** Section resolver (lines 316-351) *)

(** The body of the loop of [_resolveSections]: one item, found by its id. *)
Definition resolveItem (e : Epub) (id : string) : Result SectionT :=
  let item := match _manifest e with
              | Some m => find_id id m
              | None => None
              end in
  path <- match item with
          | Some m => Ok (href m)
          | None => Err TypeError
          end ;;
  html <- resolve e path ;;
  section <- parseSection {| input_id := id;
                             htmlString := html;
                             resourceResolver := resolve e;
                             idResolver := _resolveIdFromLink e;
                             input_expand := expand (_options e) |} ;;
  match convertToMarkdown (_options e) with
  | Some hook => register section hook
  | None => Ok section
  end.

(** [_resolveSections(id?)]; [None] is the call without an argument. *)
Definition _resolveSections (e : Epub) (id : option string) : Result (list SectionT) :=
  list <- match _spine e with
          | Some spine => Ok (set_of (keys spine))
          | None => Err TypeError
          end ;;
  let list := match id with
              | Some i => if i =? "" then list else [i]
              | None => list
              end in
  mapM (resolveItem e) list.

(** [getSection(id)], lines 342-351.  An inherited member is not
    [undefined] and not loosely equal to -1, and as an index (the text of a
    function or of an object) names no element of [sections]. *)
Definition getSection (e : Epub) (id : string) : Result (Maybe SectionT) :=
  let sectionIndex := match _spine e with
                      | Some spine => obj_get spine id
                      | None => Own (-1)%Z
                      end in
  match sectionIndex with
  | Missing =>
      l <- _resolveSections e (Some id) ;;
      Ok (index l 0)
  | Own i =>
      Ok match sections e with
         | Some ss => if (i =? -1)%Z then Null else index ss i
         | None => Null
         end
  | Inherited =>
      Ok match sections e with
         | Some _ => Undefined
         | None => Null
         end
  end.

(** *** The staged build (lines 353-403) *)

(** [(this._manifest?.find(m => m.id === 'ncx') || {}).href] *)
Definition ncx_href (e : Epub) : JsVal :=
  match _manifest e with
  | Some m =>
      match find_id "ncx" m with
      | Some item => href item
      | None => JUndef
      end
  | None => JUndef
  end.

(** Lines 364-368: the outline, when [tocFile] is truthy. *)
Definition parse_toc (e : Epub) : Result Epub :=
  if truthy (tocFile e) then
    toc <- _resolveXMLAsJsObject e (tocFile e) ;;
    let e := set_toc toc e in
    s <- _genStructure e toc ;;
    Ok (set_structure s e)
  else Ok e.

(** The fields after lines 354-363, before the outline is looked for. *)
Definition after_package (e : Epub) (opfPath content : JsVal) (root : string)
  (manifest : list Manifest) : Epub :=
  let e := set_manifest manifest
             (set_root root (set_content content (set_opfPath opfPath e))) in
  let e := set_metadata (get (_content e) ["package"; "metadata"] (JObj [])) e in
  set_tocFile (ncx_href e) e.

(** [parse()]: the fulfilled value of the promise, or the exception it is
    rejected with. *)
Definition parse (e : Epub) : Result Epub :=
  opfPath <- _getOpfPath e ;;
  let e := set_opfPath opfPath e in
  content <- _resolveXMLAsJsObject e (JStr ("/" ++ to_string (_opfPath e))) ;;
  let e := set_content content e in
  root <- determineRoot (_opfPath e) ;;
  let e := set_root root e in
  manifest <- getManifest e (_content e) ;;
  let e := set_manifest manifest e in
  let e := set_metadata (get (_content e) ["package"; "metadata"] (JObj [])) e in
  let e := set_tocFile (ncx_href e) e in
  e <- parse_toc e ;;
  spine <- getSpine e ;;
  let e := set_spine spine e in
  info <- parseMetadata (_metadata e) ;;
  let e := set_info info e in
  sections <- _resolveSections e None ;;
  Ok (set_sections sections e).

(** The spine indexes the sections: [spine[x] == i] exactly for the [i]-th
    declared id [x], every declared id is the id of a manifest item, and
    [sections[i]] is the section resolved for the [i]-th declared id. *)
Definition spine_indexes_sections (e : Epub) : Prop :=
  exists (m : list Manifest) (spine : NumMap) (ss : list SectionT),
    _manifest e = Some m /\ _spine e = Some spine /\ sections e = Some ss
    /\ (forall x z, assoc x spine = Some z <->
                    (0 <= z)%Z /\ nth_error (idrefs (_content e)) (Z.to_nat z) = Some x)
    /\ (forall x, In x (idrefs (_content e)) -> exists item, find_id x m = Some item)
    /\ Forall2 (fun x s => resolveItem e x = Ok s) (idrefs (_content e)) ss.

(** [parserWrapper(target, opts)] on the archive [target] opens as. *)
Definition parserWrapper (zip : string -> option string) (opts : option ParserOptions)
  : Result Epub :=
  parse (newEpub zip (Some match opts with
                           | Some o => o
                           | None => defaultOptions
                           end)).

End Epub.

Arguments newEpub {SectionT Hook}.
Arguments parse {SectionT Hook}.
Arguments parserWrapper {SectionT Hook}.
Arguments resolveItem {SectionT Hook}.
Arguments _resolveSections {SectionT Hook}.
Arguments getSection {SectionT Hook}.
Arguments resolve {SectionT Hook}.
Arguments _getOpfPath {SectionT Hook}.
Arguments _resolveXMLAsJsObject {SectionT Hook}.
Arguments _genStructure {SectionT Hook}.
Arguments _genStructureForHTML {SectionT Hook}.
Arguments parse_toc {SectionT Hook}.
Arguments spine_indexes_sections {SectionT Hook}.
Arguments getSpine {SectionT Hook}.
Arguments getManifest {SectionT Hook}.
Arguments after_package {SectionT Hook}.

(** ** The modules outside this file *)

(** The link up to its first [#]. *)
Fixpoint strip_fragment (s : string) : string :=
  match s with
  | EmptyString => EmptyString
  | String c r => if (c =? "#")%char then EmptyString else String c (strip_fragment r)
  end.

(** The link after its first [#]; empty when there is none. *)
Fixpoint fragment (s : string) : string :=
  match s with
  | EmptyString => EmptyString
  | String c r => if (c =? "#")%char then r else fragment r
  end.

Fixpoint has_char (a : ascii) (s : string) : bool :=
  match s with
  | EmptyString => false
  | String c r => (c =? a)%char || has_char a r
  end.

(** The path after its last separator. *)
Fixpoint base_name (s : string) : string :=
  match s with
  | EmptyString => EmptyString
  | String c r => if has_char "/" s then base_name r else s
  end.

(** Modelled from the spec: [parseLink] of [./parseLink], which is not among
    the sources.  It strips any fragment ([#...]) from the link and extracts
    the base name of the path, ignoring directory and fragment; the fragment
    is what follows the [#].  A link that is not a string has neither. *)
Definition parseLink_spec (link : JsVal) : Result ParsedLink :=
  match link with
  | JStr s => Ok {| name := base_name (strip_fragment s); hash := fragment s |}
  | _ => Err TypeError
  end.

(** The manifest item a base name selects: the first whose href has it. *)
Definition named (n : string) (item : Manifest) : bool :=
  match href item with
  | JStr s => base_name (strip_fragment s) =? n
  | _ => false
  end.

(** The path up to and including its last separator. *)
Fixpoint dir_name (s : string) : string :=
  match s with
  | EmptyString => EmptyString
  | String c r => if has_char "/" s then String c (dir_name r) else EmptyString
  end.

(** Modelled from the spec: [determineRoot] of [./utils], which is not among
    the sources.  The content root is the directory portion of the path of
    the package document, the empty string if the package document sits at
    the archive root. *)
Definition determineRoot_spec (opfPath : JsVal) : Result string :=
  match opfPath with
  | JStr s => Ok (dir_name s)
  | _ => Err TypeError
  end.

(** ** A sample container

    The bootstrap descriptor names [OEBPS/content.opf]; entries are looked up
    by name, their text standing for the markup the converter is given. *)
Module Sample.

Definition SectionF : Type := (string * string)%type.

Definition decodeURI (s : string) : Result string := Ok s.

Definition parseSection (i : SectionInput) : Result SectionF :=
  Ok (input_id i, htmlString i).

Definition register (s : SectionF) (h : unit) : Result SectionF := Ok s.

Definition container : JsVal :=
  JObj [("container",
         JObj [("rootfiles",
                JObj [("rootfile",
                       JObj [("@full-path", JStr "OEBPS/content.opf")])])])].

Definition item (i h : string) : JsVal :=
  JObj [("@id", JStr i); ("@href", JStr h)].

Definition itemref (i : string) : JsVal :=
  JObj [("@idref", JStr i)].

Definition package (items itemrefs : list JsVal) : JsVal :=
  JObj [("package",
         JObj [("metadata",
                JObj [("dc:title", JStr "A Book");
                      ("dc:creator", JObj [("#text", JStr "An Author")])]);
               ("manifest", JObj [("item", JArr items)]);
               ("spine", JObj [("itemref", JArr itemrefs)])])].

Definition zip (p : string) : option string :=
  assoc p [("META-INF/container.xml", "container.xml");
           ("OEBPS/content.opf", "content.opf");
           ("OEBPS/Text/chap1.xhtml", "chapter one");
           ("OEBPS/Text/chap2.xhtml", "chapter two")].

(** The converter on the two descriptors, [opf] being the object of the
    package document. *)
Definition xmlToJson (opf : JsVal) (xml : string) : Result JsVal :=
  if xml =? "container.xml" then Ok container
  else if xml =? "content.opf" then Ok opf
  else Err (Thrown "xml").

Definition run (opf : JsVal) : Result (Epub SectionF unit) :=
  parserWrapper decodeURI (xmlToJson opf) determineRoot_spec parseLink_spec
                parseSection register zip None.

Definition chapters : list JsVal :=
  [item "chap1" "Text/chap1.xhtml"; item "chap2" "Text/chap2.xhtml"].

(** Two chapters read in order. *)
Definition book : JsVal :=
  package chapters [itemref "chap1"; itemref "chap2"].

(** The first chapter referenced twice. *)
Definition twice : JsVal :=
  package chapters [itemref "chap1"; itemref "chap1"].

(** A navigation item that names no file. *)
Definition nofile : JsVal :=
  package (JObj [("@id", JStr "ncx")] :: chapters) [itemref "chap1"; itemref "chap2"].

(** A navigation item whose href is empty. *)
Definition emptyfile : JsVal :=
  package (item "ncx" "" :: chapters) [itemref "chap1"; itemref "chap2"].

(** A manifest with one item, which the converter gives as an object. *)
Definition single : JsVal :=
  JObj [("package",
         JObj [("manifest", JObj [("item", item "chap1" "Text/chap1.xhtml")]);
               ("spine", JObj [("itemref", itemref "chap1")])])].

Definition anchor (h text : string) : JsVal :=
  JArr [JObj [("$", JObj [("href", JStr h)]); ("_", JStr text)]].

(** A nested-list navigation document: one entry with one entry nested. *)
Definition nav : JsVal :=
  JObj [("html",
         JObj [("body",
                JArr [JObj [("nav",
                  JArr [JObj [("ol",
                    JArr [JObj [("li",
                      JArr [JObj [("a", anchor "Text/chap1.xhtml" "Chapter 1");
                                  ("ol", JArr [JObj [("li",
                                     JArr [JObj [("a", anchor "Text/chap1.xhtml#s1" "Section 1")]])]])]])]])]])]])])].

Definition parsed (opf : JsVal) : Epub SectionF unit :=
  match run opf with
  | Ok e => e
  | Err _ => newEpub zip None
  end.

End Sample.

(** ** More of the navigation builders *)

(** [Array.isArray(v) ? v : [v]] *)
Definition as_array (v : JsVal) : list JsVal :=
  match v with
  | JArr l => l
  | other => [other]
  end.

(** What [parseNavPoint] makes of one navigation point: the label, link and
    order as authored, the id the link resolves to, the fragment of the link
    or else the id of the point, and below it one item for every nested
    point, in order. *)
Fixpoint ncx_item {SectionT Hook : Type} (parseLink : JsVal -> Result ParsedLink)
  (e : Epub SectionT Hook) (t : TOCItem) (navPoint : JsVal) : Prop :=
  match t with
  | TOC n sid nid p o c =>
      n = get navPoint ["navLabel"; "text"] JUndef
      /\ p = get navPoint ["content"; "@src"] (JStr "")
      /\ o = PlayVal (get navPoint ["@playOrder"] JUndef)
      /\ _resolveIdFromLink parseLink e p = Ok sid
      /\ (exists l, parseLink p = Ok l
                    /\ nid = if hash l =? "" then member navPoint "@id"
                             else JStr (hash l))
      /\ match c with
         | inl v => v = member navPoint "navPoint" /\ truthy v = false
         | inr kids =>
             truthy (member navPoint "navPoint") = true
             /\ (fix all (kids : list TOCItem) (points : list JsVal) : Prop :=
                   match kids, points with
                   | [], [] => True
                   | k :: ks, q :: qs => ncx_item parseLink e k q /\ all ks qs
                   | _, _ => False
                   end) kids (as_array (member navPoint "navPoint"))
         end
  end.

(** The same for a list of points. *)
Fixpoint ncx_items {SectionT Hook : Type} (parseLink : JsVal -> Result ParsedLink)
  (e : Epub SectionT Hook) (kids : list TOCItem) (points : list JsVal) : Prop :=
  match kids, points with
  | [], [] => True
  | k :: ks, q :: qs => ncx_item parseLink e k q /\ ncx_items parseLink e ks qs
  | _, _ => False
  end.

(** ** [src/bin/helper.ts] *)

(** [s.includes(t)]: [t] occurs in [s]. *)
Fixpoint starts_with (t s : string) : bool :=
  match t, s with
  | EmptyString, _ => true
  | String a t', String b s' => (a =? b)%char && starts_with t' s'
  | String _ _, EmptyString => false
  end.

Fixpoint includes (s t : string) : bool :=
  starts_with t s
  || match s with
     | EmptyString => false
     | String _ s' => includes s' t
     end.

Record FileType : Type := mkFileType {
  isImage : bool;
  isHTML : bool
}.

(** [checkFileType(filepath)], lines 28-36; [extname] is the function of
    [node:path]. *)
Definition checkFileType (extname : string -> string) (filepath : string) : FileType :=
  let ext := extname filepath in
  {| isImage := includes ",.jpg,.jpeg,.png,.gif,.webp,.svg" ext;
     isHTML := includes ".htm,.html,.xhtml" ext |}.

(** [s.substring(n)] *)
Fixpoint string_drop (n : nat) (s : string) : string :=
  match n, s with
  | O, _ => s
  | S n', String _ r => string_drop n' r
  | S _, EmptyString => EmptyString
  end.

(** Whether "a dot, an optional x, htm" matches at the start of [s], and
    then what follows the match (the optional l is of what the rest of the
    expression takes anyway). *)
Definition html_suffix (s : string) : option string :=
  if starts_with ".xhtm" s then Some (string_drop 5 s)
  else if starts_with ".htm" s then Some (string_drop 4 s)
  else None.

(** Whether [s] begins with a line terminator, which the dot of an
    expression does not match: line feed, carriage return, U+2028 or U+2029
    (the bytes 226 128 168 and 226 128 169). *)
Definition line_terminator (s : string) : bool :=
  match s with
  | EmptyString => false
  | String c r =>
      (c =? "010")%char || (c =? "013")%char
      || ((c =? "226")%char
          && (starts_with (String "128" (String "168" EmptyString)) r
              || starts_with (String "128" (String "169" EmptyString)) r))
  end.

(** What "the rest of the line" leaves: the string from its first line
    terminator on. *)
Fixpoint after_line (s : string) : string :=
  match s with
  | EmptyString => EmptyString
  | String c r => if line_terminator s then s else after_line r
  end.

(** A string without a line terminator. *)
Fixpoint one_line (s : string) : bool :=
  match s with
  | EmptyString => true
  | String c r => negb (line_terminator s) && one_line r
  end.

(** [resolveHTMLId(fileName)], lines 38-40: [fileName.replace] with the
    expression "a dot, an optional x, htm, an optional l, the rest of the
    line" and the empty string; the leftmost match is removed. *)
Fixpoint resolveHTMLId (fileName : string) : string :=
  match html_suffix fileName with
  | Some r => after_line r
  | None =>
      match fileName with
      | EmptyString => EmptyString
      | String c r => String c (resolveHTMLId r)
      end
  end.

(** The strings that occur in [s], for deciding what [includes] accepts. *)
Fixpoint prefixes (s : string) : list string :=
  EmptyString :: match s with
                 | EmptyString => []
                 | String c r => map (String c) (prefixes r)
                 end.

Fixpoint substrings (s : string) : list string :=
  prefixes s ++ match s with
                | EmptyString => []
                | String _ r => substrings r
                end.

(** ** More of the sample container *)
Module More.

(** The entry of [Sample.nav], with its nested entry. *)
Definition entry : JsVal :=
  JObj [("a", Sample.anchor "Text/chap1.xhtml" "Chapter 1");
        ("ol", JArr [JObj [("li",
           JArr [JObj [("a", Sample.anchor "Text/chap1.xhtml#s1" "Section 1")]])]])].

Definition section1 : TOCItem :=
  TOC (JStr "Section 1") (JStr "chap1") (JStr "s1") (JStr "Text/chap1.xhtml#s1")
      (PlayNum 1) (inl JUndef).

Definition chapter1 : TOCItem :=
  TOC (JStr "Chapter 1") (JStr "chap1") (JStr "") (JStr "Text/chap1.xhtml")
      (PlayNum 1) (inr [section1]).

Definition flat_entry (h text : string) : JsVal :=
  JObj [("a", Sample.anchor h text)].

(** A navigation list of three entries, the second with two nested ones. *)
Definition shelf : JsVal :=
  JArr [flat_entry "Text/chap1.xhtml" "One";
        JObj [("a", Sample.anchor "Text/chap2.xhtml" "Two");
              ("ol", JArr [JObj [("li",
                 JArr [flat_entry "Text/chap2.xhtml#a" "Two A";
                       flat_entry "Text/chap2.xhtml#b" "Two B"])]])];
        flat_entry "Text/chap3.xhtml" "Three"].

Definition navPoint (i src label order : string) (nested : list (string * JsVal))
  : JsVal :=
  JObj ([("@id", JStr i); ("@playOrder", JStr order);
         ("navLabel", JObj [("text", JStr label)]);
         ("content", JObj [("@src", JStr src)])] ++ nested).

(** A navigation document of the older kind: one point with one nested
    point, which the converter gives as an object. *)
Definition ncx : JsVal :=
  JObj [("ncx",
         JObj [("navMap",
                JObj [("navPoint",
                       navPoint "np1" "Text/chap1.xhtml" "Chapter 1" "1"
                         [("navPoint",
                           navPoint "np2" "Text/chap1.xhtml#s1" "Section 1" "2"
                                    [])])])])].

(** The sample container with a navigation file in its manifest. *)
Definition zip (p : string) : option string :=
  if p =? "OEBPS/toc.ncx" then Some "toc.ncx" else Sample.zip p.

Definition xmlToJson (opf : JsVal) (xml : string) : Result JsVal :=
  if xml =? "toc.ncx" then Ok ncx else Sample.xmlToJson opf xml.

Definition guide : JsVal :=
  Sample.package (Sample.item "ncx" "toc.ncx" :: Sample.chapters)
                 [Sample.itemref "chap1"; Sample.itemref "chap2"].

Definition run (opf : JsVal) : Result (Epub Sample.SectionF unit) :=
  parserWrapper Sample.decodeURI (xmlToJson opf) determineRoot_spec parseLink_spec
                Sample.parseSection Sample.register zip None.

Definition parsed (opf : JsVal) : Epub Sample.SectionF unit :=
  match run opf with
  | Ok e => e
  | Err _ => newEpub zip None
  end.

(** What the builders give for [shelf] and [ncx]. *)
Definition shelf_items : list TOCItem :=
  Eval vm_compute in
    match parseOuterHTML parseLink_spec (Sample.parsed Sample.book) 4 shelf 1%Z with
    | Some (Ok (ts, _)) => ts
    | _ => []
    end.

Definition ncx_outline : list TOCItem :=
  Eval vm_compute in
    match _genStructure parseLink_spec (Sample.parsed Sample.book) ncx with
    | Ok ts => ts
    | Err _ => []
    end.

(** A nested-list navigation document without nested lists. *)
Definition contents : JsVal :=
  JObj [("html",
         JObj [("body",
                JArr [JObj [("nav",
                  JArr [JObj [("ol",
                    JArr [JObj [("li",
                      JArr [flat_entry "Text/chap1.xhtml" "One";
                            flat_entry "Text/chap2.xhtml" "Two";
                            flat_entry "Text/chap2.xhtml#end" "The End"])]])]])]])])].

Definition contents_outline : list TOCItem :=
  Eval vm_compute in
    match _genStructureForHTML parseLink_spec (Sample.parsed Sample.book) contents with
    | Ok ts => ts
    | Err _ => []
    end.

(** Two manifest items whose files have the same base name. *)
Definition doubled : JsVal :=
  Sample.package [Sample.item "chap1" "Text/chap1.xhtml";
                  Sample.item "a" "Text/chap2.xhtml";
                  Sample.item "b" "Extra/chap2.xhtml"]
                 [Sample.itemref "chap1"].

(** The manifest of [Sample.book]. *)
Definition chapters_manifest : list Manifest :=
  [{| href := JStr "Text/chap1.xhtml"; id := JStr "chap1" |};
   {| href := JStr "Text/chap2.xhtml"; id := JStr "chap2" |}].

(** A manifest item without an id. *)
Definition unnamed : JsVal :=
  Sample.package [JObj [("@href", JStr "Text/chap1.xhtml")]] [].

(** A container descriptor that lists two package documents: the converter
    gives the rootfiles as a list. *)
Definition several : JsVal :=
  JObj [("container",
         JObj [("rootfiles",
                JObj [("rootfile",
                       JArr [JObj [("@full-path", JStr "OEBPS/content.opf")];
                             JObj [("@full-path", JStr "OEBPS/other.opf")]])])])].

Definition xmlToJson_several (xml : string) : Result JsVal :=
  if xml =? "container.xml" then Ok several else Sample.xmlToJson Sample.book xml.

(** The first chapter referenced twice, then the second. *)
Definition repeated : JsVal :=
  Sample.package Sample.chapters
                 [Sample.itemref "chap1"; Sample.itemref "chap1"; Sample.itemref "chap2"].

(** The second chapter is in the manifest and not in the spine. *)
Definition short : JsVal :=
  Sample.package Sample.chapters [Sample.itemref "chap1"].

(** Ids that are array indices, the greater one referenced first. *)
Definition numbered : JsVal :=
  Sample.package [Sample.item "2" "Text/chap2.xhtml"; Sample.item "1" "Text/chap1.xhtml"]
                 [Sample.itemref "2"; Sample.itemref "1"].

(** An item reference named [__proto__] between the two chapters. *)
Definition proto : JsVal :=
  Sample.package Sample.chapters
                 [Sample.itemref "chap1"; Sample.itemref "__proto__";
                  Sample.itemref "chap2"].

(** A line separator, U+2028. *)
Definition line_separator : string :=
  String "226" (String "128" (String "168" EmptyString)).

(** A spine that refers to an id the manifest does not have. *)
Definition dangling : JsVal :=
  Sample.package Sample.chapters [Sample.itemref "chap1"; Sample.itemref "chap9"].

End More.

(** * Properties *)

Lemma bind_Ok {A B : Type} (r : Result A) (f : A -> Result B) (b : B) :
  bind r f = Ok b -> exists a, r = Ok a /\ f a = Ok b.
Proof.
  destruct r as [a|err]; simpl; intros H.
  - exists a; split; [reflexivity | exact H].
  - discriminate H.
Qed.

Ltac bind_inv H :=
  let a := fresh "a" in
  let Ha := fresh "Ha" in
  apply bind_Ok in H; destruct H as (a & Ha & H).

(** ** Metadata extraction *)

Lemma mapM_tagged {A : Type} (f : string -> Result A) (l : list string)
  (r : list (string * A)) :
  mapM (fun item => v <- f item ;; Ok (item, v)) l = Ok r ->
  map fst r = l /\ Forall (fun p => f (fst p) = Ok (snd p)) r.
Proof.
  revert r. induction l as [|k l IH]; simpl; intros r H.
  - injection H as <-. split; [reflexivity | constructor].
  - apply bind_Ok in H. destruct H as (p & Hp & H).
    apply bind_Ok in Hp. destruct Hp as (v & Hv & Hp). injection Hp as <-.
    apply bind_Ok in H. destruct H as (r' & Hr' & H). injection H as <-.
    destruct (IH _ Hr') as [Hk Hf]. simpl. split.
    + now rewrite Hk.
    + constructor; assumption.
Qed.

Lemma NoDup_keys_filter {A : Type} (p : string * A -> bool) (l : list (string * A)) :
  NoDup (map fst l) -> NoDup (map fst (filter p l)).
Proof.
  induction l as [|x l IH]; simpl; intros H; [constructor|].
  inversion H as [|? ? Hx Hl]; subst.
  destruct (p x); simpl; [|now apply IH].
  constructor; [|now apply IH].
  intros Hin. apply Hx. apply in_map_iff in Hin.
  destruct Hin as (y & Hy & Hin). apply filter_In in Hin.
  apply in_map_iff. exists y. tauto.
Qed.

Lemma extract_author_array (meta v : JsVal) :
  extract meta "author" = Ok v -> isArray v = true.
Proof.
  unfold extract. simpl.
  destruct (get meta ["dc:creator"] (JArr [])); intros H;
    try (injection H as <-; reflexivity).
  bind_inv H. injection H as <-. reflexivity.
Qed.

Lemma present_spelled (v : JsVal) :
  present v = true <->
  v <> JUndef /\ v <> JArr [] /\ forall r, v <> JArr (JUndef :: r).
Proof.
  destruct v as [| |s|l|kv]; simpl.
  - split; [discriminate | intros [H _]; now destruct H].
  - split; [intros _; repeat split; discriminate | reflexivity].
  - split; [intros _; repeat split; discriminate | reflexivity].
  - destruct l as [|x l]; simpl.
    + split; [discriminate | intros (_ & H & _); now destruct H].
    + destruct x; simpl; split; try discriminate; try reflexivity;
        try (intros _; repeat split; try discriminate; intros r; discriminate).
      intros (_ & _ & H). now destruct (H l).
  - split; [intros _; repeat split; discriminate | reflexivity].
Qed.

(** The record [parseMetadata] returns holds exactly the recognized fields
    whose extracted value is not [undefined] and is no sequence that is empty
    or starts with [undefined], each once.  [author], when it is there, is a
    sequence.  With a title and creators whose text is under [#text] and
    nothing else the record has the keys [title] and [author], the author a
    sequence also when there is one. *)
Theorem parseMetadata_present_only (metadata : JsVal) :
  (forall inf,
      parseMetadata metadata = Ok inf ->
      (forall k v, In (k, v) inf <->
                   In k fields /\ extract metadata k = Ok v
                   /\ v <> JUndef /\ v <> JArr []
                   /\ forall r, v <> JArr (JUndef :: r))
      /\ (forall v, In ("author", v) inf -> isArray v = true)
      /\ NoDup (map fst inf))
  /\ (forall t a,
         parseMetadata (JObj [("dc:title", JStr t);
                              ("dc:creator", JObj [("#text", JStr a)])])
         = Ok [("title", JStr t); ("author", JArr [JStr a])])
  /\ (forall t a b,
         parseMetadata (JObj [("dc:title", JStr t);
                              ("dc:creator", JArr [JObj [("#text", JStr a)];
                                                   JObj [("#text", JStr b)]])])
         = Ok [("title", JStr t); ("author", JArr [JStr a; JStr b])]).
Proof.
  split; [|split; reflexivity].
  intros inf H. unfold parseMetadata in H. bind_inv H. injection H as <-.
  assert (Hex : forall k, extract match metadata with
                                  | JUndef => JObj []
                                  | _ => metadata
                                  end k = extract metadata k).
  { intros k. destruct metadata; try reflexivity. }
  apply mapM_tagged in Ha. destruct Ha as [Hkeys Hvals].
  rewrite Forall_forall in Hvals.
  assert (Hin : forall k v, In (k, v) a <->
                            In k fields /\ extract metadata k = Ok v).
  { intros k v. split.
    - intros Hkv. split.
      + rewrite <- Hkeys. apply in_map_iff. now exists (k, v).
      + rewrite <- Hex. exact (Hvals _ Hkv).
    - intros [Hk Hv]. rewrite <- Hkeys in Hk. apply in_map_iff in Hk.
      destruct Hk as ([k' v'] & Hfst & Hkv). simpl in Hfst. subst k'.
      pose proof (Hvals _ Hkv) as Hv'. simpl in Hv'. rewrite Hex, Hv in Hv'.
      injection Hv' as ->. exact Hkv. }
  split; [|split].
  - intros k v. unfold pickBy. rewrite filter_In, Hin. simpl.
    rewrite present_spelled. tauto.
  - intros v Hv. unfold pickBy in Hv. apply filter_In in Hv.
    destruct Hv as [Hv _]. apply Hin in Hv.
    eapply extract_author_array. exact (proj2 Hv).
  - unfold pickBy. apply NoDup_keys_filter. rewrite Hkeys.
    unfold fields. repeat constructor; simpl; intuition discriminate.
Qed.

(** C8.  A creator given as plain text is dropped: with a title and a
    [dc:creator] that is a string, or a list of strings, the record has the
    key [title] alone, where the same creator with its text under [#text]
    gives [title] and [author].  The title and the other flat fields are
    read as the plain text that the creator is not read as. *)
Theorem text_only_creator_dropped (t a b : string) :
  parseMetadata (JObj [("dc:title", JStr t); ("dc:creator", JStr a)])
  = Ok [("title", JStr t)]
  /\ parseMetadata (JObj [("dc:title", JStr t);
                          ("dc:creator", JArr [JStr a; JStr b])])
     = Ok [("title", JStr t)]
  /\ parseMetadata (JObj [("dc:title", JStr t);
                          ("dc:creator", JObj [("#text", JStr a)])])
     = Ok [("title", JStr t); ("author", JArr [JStr a])]
  /\ parseMetadata (JObj [("dc:title", JObj [("#text", JStr t)]);
                          ("dc:creator", JObj [("#text", JStr a)])])
     = Ok [("title", JObj [("#text", JStr t)]); ("author", JArr [JStr a])].
Proof.
  repeat split; reflexivity.
Qed.

(** ** The spine object *)

Lemma obj_put_fresh (o : NumMap) (k : string) (v : Z) :
  ~ In k (names o) -> obj_put o k v = o ++ [(k, v)].
Proof.
  induction o as [|[k' v'] o IH]; simpl; intros Hk; [reflexivity|].
  destruct (k' =? k) eqn:E.
  - apply String.eqb_eq in E. exfalso; apply Hk; now left.
  - rewrite IH; [reflexivity|]. intros Hin; apply Hk; now right.
Qed.

Lemma obj_put_names_In (o : NumMap) (k : string) (v : Z) (x : string) :
  In x (names (obj_put o k v)) <-> x = k \/ In x (names o).
Proof.
  induction o as [|[k' v'] o IH]; simpl.
  - split; [intros [<-|[]]; now left | intros [->|[]]; now left].
  - destruct (k' =? k) eqn:E; simpl.
    + apply String.eqb_eq in E. subst k'. intuition auto.
    + rewrite IH. tauto.
Qed.

Lemma obj_put_names_NoDup (o : NumMap) (k : string) (v : Z) :
  NoDup (names o) -> NoDup (names (obj_put o k v)).
Proof.
  induction o as [|[k' v'] o IH]; simpl; intros H.
  - constructor; [intros [] | constructor].
  - inversion H as [|? ? Hk' Ho]; subst.
    destruct (k' =? k) eqn:E; simpl.
    + constructor; assumption.
    + constructor; [|now apply IH].
      rewrite obj_put_names_In. intros [->|Hin]; [|contradiction].
      rewrite String.eqb_refl in E. discriminate.
Qed.

Lemma obj_put_values (o : NumMap) (k : string) (v : Z) :
  Forall (fun p => (0 <= snd p)%Z) o -> (0 <= v)%Z ->
  Forall (fun p => (0 <= snd p)%Z) (obj_put o k v).
Proof.
  induction o as [|[k' v'] o IH]; simpl; intros H Hv.
  - constructor; [exact Hv | constructor].
  - inversion H; subst. destruct (k' =? k); constructor; auto.
Qed.

Lemma obj_set_put (o : NumMap) (k : string) (v : Z) :
  k <> "__proto__" -> obj_set o k v = obj_put o k v.
Proof.
  intros H. unfold obj_set. apply String.eqb_neq in H. now rewrite H.
Qed.

Lemma obj_set_names_In (o : NumMap) (k : string) (v : Z) (x : string) :
  In x (names (obj_set o k v)) <-> (x = k /\ k <> "__proto__") \/ In x (names o).
Proof.
  unfold obj_set. destruct (k =? "__proto__") eqn:E.
  - apply String.eqb_eq in E. tauto.
  - apply String.eqb_neq in E. rewrite obj_put_names_In. tauto.
Qed.

Lemma obj_set_names_NoDup (o : NumMap) (k : string) (v : Z) :
  NoDup (names o) -> NoDup (names (obj_set o k v)).
Proof.
  unfold obj_set. destruct (k =? "__proto__"); [trivial|].
  apply obj_put_names_NoDup.
Qed.

Lemma obj_set_values (o : NumMap) (k : string) (v : Z) :
  Forall (fun p => (0 <= snd p)%Z) o -> (0 <= v)%Z ->
  Forall (fun p => (0 <= snd p)%Z) (obj_set o k v).
Proof.
  unfold obj_set. destruct (k =? "__proto__"); [trivial|].
  apply obj_put_values.
Qed.

Lemma spine_loop_invariant (items : list JsVal) (i : Z) (o sp : NumMap) :
  spine_loop items i o = Ok sp ->
  NoDup (names o) -> Forall (fun p => (0 <= snd p)%Z) o -> (0 <= i)%Z ->
  NoDup (names sp) /\ Forall (fun p => (0 <= snd p)%Z) sp.
Proof.
  revert i o. induction items as [|item items IH]; simpl; intros i o H Hk Hv Hi.
  - injection H as <-. split; assumption.
  - bind_inv H. eapply IH; [exact H | | | lia].
    + now apply obj_set_names_NoDup.
    + now apply obj_set_values.
Qed.

Lemma spine_loop_indexed (items : list JsVal) (i : Z) (o sp : NumMap) :
  spine_loop items i o = Ok sp ->
  NoDup (names o ++ map (fun item => to_string (member item "@idref")) items) ->
  ~ In "__proto__" (map (fun item => to_string (member item "@idref")) items) ->
  sp = o ++ indexed (map (fun item => to_string (member item "@idref")) items) i.
Proof.
  revert i o. induction items as [|item items IH]; simpl; intros i o H Hnd Hp.
  - injection H as <-. now rewrite app_nil_r.
  - bind_inv H. unfold prop in Ha.
    destruct (nullish item); [discriminate|]. injection Ha as <-.
    rewrite obj_set_put in H by (intros Hc; apply Hp; left; now rewrite Hc).
    rewrite obj_put_fresh in H.
    + apply IH in H.
      * rewrite H, <- app_assoc. reflexivity.
      * unfold names in *. rewrite map_app, <- app_assoc. exact Hnd.
      * intros Hc. apply Hp. now right.
    + apply NoDup_remove_2 in Hnd. intros Hin; apply Hnd.
      apply in_or_app; now left.
Qed.

Lemma names_indexed (l : list string) (i : Z) : names (indexed l i) = l.
Proof.
  revert i; induction l as [|x l IH]; intros i; simpl; [reflexivity|].
  unfold names in IH. now rewrite IH.
Qed.

Lemma assoc_indexed (l : list string) (i : Z) (x : string) (z : Z) :
  NoDup l ->
  assoc x (indexed l i) = Some z <->
  (i <= z)%Z /\ nth_error l (Z.to_nat (z - i)) = Some x.
Proof.
  intros Hnd. revert i. induction Hnd as [|y l Hy Hnd IH]; intros i; simpl.
  - split; [discriminate|]. intros [_ H]. destruct (Z.to_nat (z - i)); discriminate.
  - destruct (y =? x) eqn:E.
    + apply String.eqb_eq in E. subst y. split.
      * intros H; injection H as H. subst z. split; [lia|].
        replace (i - i)%Z with 0%Z by lia. reflexivity.
      * intros [Hle H]. destruct (Z.to_nat (z - i)) eqn:En.
        -- f_equal. lia.
        -- simpl in H. apply nth_error_In in H. contradiction.
    + apply String.eqb_neq in E. rewrite IH. split.
      * intros [Hle H]. split; [lia|].
        replace (Z.to_nat (z - i)) with (S (Z.to_nat (z - (i + 1)))) by lia.
        exact H.
      * intros [Hle H]. destruct (Z.to_nat (z - i)) eqn:En.
        -- simpl in H. injection H as ->. contradiction.
        -- simpl in H. split; [lia|].
           replace (Z.to_nat (z - (i + 1))) with n by lia. exact H.
Qed.

(** ** The order of the keys *)

Lemma insert_by_index_perm (n : N) (k : string) (l : list (N * string)) :
  Permutation (map snd (insert_by_index n k l)) (k :: map snd l).
Proof.
  induction l as [|[m k'] l IH]; simpl; [reflexivity|].
  destruct (n <? m)%N; simpl; [reflexivity|].
  rewrite IH. apply perm_swap.
Qed.

Lemma keys_perm (o : NumMap) : Permutation (keys o) (names o).
Proof.
  unfold keys. induction (names o) as [|k l IH]; simpl; [reflexivity|].
  unfold named_key at 1. destruct (array_index k) as [n|]; simpl.
  - rewrite insert_by_index_perm. simpl. now apply perm_skip.
  - rewrite <- Permutation_middle. now apply perm_skip.
Qed.

Lemma keys_In (o : NumMap) (x : string) : In x (keys o) <-> In x (names o).
Proof.
  split; apply Permutation_in; [|symmetry]; apply keys_perm.
Qed.

Lemma keys_NoDup (o : NumMap) : NoDup (names o) -> NoDup (keys o).
Proof.
  apply Permutation_NoDup. symmetry. apply keys_perm.
Qed.

Lemma index_keys_named (l : list string) :
  forallb named_key l = true -> index_keys l = [] /\ filter named_key l = l.
Proof.
  induction l as [|k l IH]; [split; reflexivity|].
  cbn [forallb]. intros H. apply andb_true_iff in H. destruct H as [Hk Hl].
  destruct (IH Hl) as [IH1 IH2].
  cbn [filter]. rewrite Hk, IH2. split; [|reflexivity].
  unfold index_keys in *. cbn [fold_right]. rewrite IH1.
  unfold named_key in Hk. now destruct (array_index k).
Qed.

Lemma keys_named (o : NumMap) :
  forallb named_key (names o) = true -> keys o = names o.
Proof.
  intros H. destruct (index_keys_named _ H) as [H1 H2].
  unfold keys. now rewrite H1, H2.
Qed.

Lemma ordinary_keys (l : list string) :
  forallb ordinary_key l = true ->
  forallb named_key l = true /\ ~ In "__proto__" l.
Proof.
  induction l as [|k l IH]; simpl; intros H; [split; [reflexivity | tauto]|].
  apply andb_true_iff in H. destruct H as [Hk Hl].
  unfold ordinary_key in Hk. apply andb_true_iff in Hk. destruct Hk as [Hn Hp].
  destruct (IH Hl) as [IH1 IH2]. rewrite Hn, IH1. split; [reflexivity|].
  intros [Hc|Hc]; [|contradiction]. subst k. discriminate.
Qed.

Section Facts.

Variables SectionT Hook : Type.
Variable decodeURI : string -> Result string.
Variable xmlToJson : string -> Result JsVal.
Variable determineRoot : JsVal -> Result string.
Variable parseLink : JsVal -> Result ParsedLink.
Variable parseSection : SectionInput -> Result SectionT.
Variable register : SectionT -> Hook -> Result SectionT.

(** ** Archive accessor *)

Lemma resolved_path_string (e : Epub SectionT Hook) (path : string) :
  resolved_path e (JStr path) =
  Ok (if starts_with_separator path then drop_first path
      else (root_prefix e ++ path)%string).
Proof.
  unfold resolved_path, index0; simpl.
  destruct path as [|c r]; simpl; [reflexivity|].
  destruct (c =? "/")%char; reflexivity.
Qed.

(** C6. [resolve(path)] on a string: a path that begins with a separator is
    looked up from the archive root with the separator stripped, any other
    path with the content root put before it; the name looked up is the
    URI-decoded path; when the archive has no such entry the call fails with
    an error that carries the path as it was before decoding. *)
Theorem resolve_contract (e : Epub SectionT Hook) (root path : string) :
  _root e = Some root ->
  resolve decodeURI e (JStr path) =
  (let _path := if starts_with_separator path then drop_first path
                else (root ++ path)%string in
   decoded <- decodeURI _path ;;
   match _zip e decoded with
   | Some text => Ok text
   | None => Err (Error (_path ++ " not found!"))
   end).
Proof.
  intros Hroot. unfold resolve.
  rewrite resolved_path_string. unfold root_prefix. rewrite Hroot.
  reflexivity.
Qed.

(** ** Link resolver *)

Lemma findM_none {A : Type} (p : A -> Result bool) (l : list A) :
  Forall (fun x => p x = Ok false) l -> findM p l = Ok None.
Proof.
  induction 1 as [|x l Hx _ IH]; simpl; [reflexivity|].
  rewrite Hx; simpl. exact IH.
Qed.

Lemma resolveId_no_match (e : Epub SectionT Hook) (link : JsVal) (tar : ParsedLink) :
  parseLink link = Ok tar ->
  (forall m, _manifest e = Some m ->
             Forall (fun item => exists l, parseLink (href item) = Ok l
                                           /\ name l <> name tar) m) ->
  _resolveIdFromLink parseLink e link = Ok (JStr "").
Proof.
  intros Htar Hmiss. unfold _resolveIdFromLink. rewrite Htar; simpl.
  destruct (_manifest e) as [m|] eqn:Hm; [|reflexivity].
  rewrite findM_none; [reflexivity|].
  specialize (Hmiss m eq_refl).
  eapply Forall_impl; [|exact Hmiss].
  intros item (l & Hl & Hne). simpl. rewrite Hl; simpl.
  apply String.eqb_neq in Hne. rewrite Hne. reflexivity.
Qed.

(** C7. A link whose base name is the base name of no manifest item resolves
    to the empty string: the miss is a value, not an exception. *)
Theorem resolveId_miss (e : Epub SectionT Hook) (link : JsVal) (tar : ParsedLink) :
  parseLink link = Ok tar ->
  (forall m, _manifest e = Some m ->
             Forall (fun item => exists l, parseLink (href item) = Ok l
                                           /\ name l <> name tar) m) ->
  _resolveIdFromLink parseLink e link = Ok (JStr "").
Proof. exact (@resolveId_no_match e link tar). Qed.

Lemma resolveId_name_only (pl : JsVal -> Result ParsedLink)
  (e : Epub SectionT Hook) (l1 l2 : JsVal) (t1 t2 : ParsedLink) :
  pl l1 = Ok t1 -> pl l2 = Ok t2 -> name t1 = name t2 ->
  _resolveIdFromLink pl e l1 = _resolveIdFromLink pl e l2.
Proof.
  intros H1 H2 Hn. unfold _resolveIdFromLink.
  rewrite H1, H2; simpl. rewrite Hn. reflexivity.
Qed.

(** ** Manifest and spine *)

(** C3. A manifest with one item, where the converter gives the item itself
    and no array: [getManifest] calls [map] on the object and throws.  The
    item-reference list takes the other way in [getSpine], which wraps a
    single reference into an array first.  A container with such a package
    document is rejected as a whole. *)
Theorem getManifest_single_item_throws
  (zip : string -> option string) (opts : option (ParserOptions Hook))
  (attrs : list (string * JsVal)) (idref : string) :
  getManifest (@newEpub SectionT Hook zip opts)
    (JObj [("package", JObj [("manifest", JObj [("item", JObj attrs)])])])
  = Err TypeError
  /\ getSpine
       (set_content
          (JObj [("package",
                  JObj [("spine", JObj [("itemref", JObj [("@idref", JStr idref)])])])])
          (@newEpub SectionT Hook zip opts))
     = Ok (if idref =? "__proto__" then [] else [(idref, 0%Z)])
  /\ Sample.run Sample.single = Err TypeError.
Proof.
  split; [|split]; reflexivity.
Qed.

(** ** The link resolver on links as the spec describes them *)

Lemma has_char_app (a : ascii) (d x : string) :
  has_char a (d ++ String a x) = true.
Proof.
  induction d as [|c d IH]; simpl.
  - rewrite Ascii.eqb_refl. reflexivity.
  - rewrite IH. apply orb_true_r.
Qed.

Lemma base_name_prefix (d x : string) :
  base_name (d ++ String "/" x) = base_name x.
Proof.
  induction d as [|c d IH].
  - reflexivity.
  - change (base_name (String c (d ++ String "/" x)) = base_name x).
    cbn [base_name has_char]. rewrite has_char_app, orb_true_r. exact IH.
Qed.

Lemma strip_fragment_suffix (h f : string) :
  strip_fragment (h ++ String "#" f) = strip_fragment h.
Proof.
  induction h as [|c h IH]; simpl.
  - reflexivity.
  - destruct (c =? "#")%char; [reflexivity | now rewrite IH].
Qed.

Lemma strip_fragment_prefix (d h : string) :
  has_char "#" d = false ->
  strip_fragment (d ++ h) = (d ++ strip_fragment h)%string.
Proof.
  induction d as [|c d IH]; simpl; intros H.
  - reflexivity.
  - apply orb_false_elim in H. destruct H as [Hc Hd].
    rewrite Hc. now rewrite IH.
Qed.

Lemma link_name_suffix (h f : string) :
  base_name (strip_fragment (h ++ String "#" f)) = base_name (strip_fragment h).
Proof. now rewrite strip_fragment_suffix. Qed.

Lemma link_name_prefix (d h : string) :
  has_char "#" d = false ->
  base_name (strip_fragment (d ++ String "/" h)) = base_name (strip_fragment h).
Proof.
  intros Hd. rewrite strip_fragment_prefix by exact Hd.
  cbn [strip_fragment]. change ("/" =? "#")%char with false. cbv iota.
  apply base_name_prefix.
Qed.

Lemma findM_named (n : string) (m : list Manifest) :
  Forall (fun item => exists s, href item = JStr s) m ->
  findM (fun item => l <- parseLink_spec (href item) ;; Ok (name l =? n)) m
  = Ok (find (named n) m).
Proof.
  induction 1 as [|item m (s & Hs) _ IH]; simpl; [reflexivity|].
  unfold named at 1. rewrite Hs; simpl.
  destruct (base_name (strip_fragment s) =? n); [reflexivity | exact IH].
Qed.

(** C2. The link resolver sees a link only through its base name: a fragment
    after the link and a directory before it change nothing, so
    [chap1.xhtml], [/OEBPS/chap1.xhtml] and [chap1.xhtml#sec2] resolve alike,
    and to the id of the manifest item whose href has the base name
    [chap1.xhtml] when there is one. *)
Theorem resolveId_invariant (e : Epub SectionT Hook) (h d f : string) :
  has_char "#" d = false ->
  _resolveIdFromLink parseLink_spec e (JStr (h ++ "#" ++ f))
  = _resolveIdFromLink parseLink_spec e (JStr h)
  /\ _resolveIdFromLink parseLink_spec e (JStr (d ++ "/" ++ h))
     = _resolveIdFromLink parseLink_spec e (JStr h)
  /\ _resolveIdFromLink parseLink_spec e (JStr "/OEBPS/chap1.xhtml")
     = _resolveIdFromLink parseLink_spec e (JStr "chap1.xhtml")
  /\ _resolveIdFromLink parseLink_spec e (JStr "chap1.xhtml#sec2")
     = _resolveIdFromLink parseLink_spec e (JStr "chap1.xhtml")
  /\ (forall m item i,
         _manifest e = Some m ->
         Forall (fun item => exists s, href item = JStr s) m ->
         find (named "chap1.xhtml") m = Some item ->
         id item = JStr i ->
         _resolveIdFromLink parseLink_spec e (JStr "chap1.xhtml") = Ok (JStr i)).
Proof.
  intros Hd. split; [|split; [|split; [|split]]].
  - eapply resolveId_name_only; [reflexivity | reflexivity |].
    apply link_name_suffix.
  - eapply resolveId_name_only; [reflexivity | reflexivity |].
    apply link_name_prefix, Hd.
  - eapply resolveId_name_only; reflexivity.
  - eapply resolveId_name_only; reflexivity.
  - intros m item i Hm Hstr Hfind Hid.
    unfold _resolveIdFromLink. simpl. rewrite Hm.
    change (base_name (strip_fragment "chap1.xhtml")) with "chap1.xhtml".
    rewrite (findM_named "chap1.xhtml" Hstr), Hfind; simpl.
    rewrite Hid. reflexivity.
Qed.

(** ** The staged build *)

Lemma mapM_Forall2 {A B : Type} (f : A -> Result B) (l : list A) (ys : list B) :
  mapM f l = Ok ys <-> Forall2 (fun x y => f x = Ok y) l ys.
Proof.
  revert ys. induction l as [|x l IH]; intros ys; simpl.
  - split.
    + intros H; injection H as <-; constructor.
    + intros H; inversion H; reflexivity.
  - split.
    + intros H. bind_inv H. bind_inv H. injection H as <-.
      constructor; [assumption | now apply IH].
    + intros H. inversion H as [|? y ? ys' Hx Hl]; subst.
      rewrite Hx; simpl. apply IH in Hl. rewrite Hl. reflexivity.
Qed.

Lemma parse_toc_fields (e e' : Epub SectionT Hook) :
  parse_toc decodeURI xmlToJson parseLink e = Ok e' ->
  _zip e' = _zip e /\ _opfPath e' = _opfPath e /\ _root e' = _root e
  /\ _content e' = _content e /\ _manifest e' = _manifest e
  /\ _spine e' = _spine e /\ _metadata e' = _metadata e
  /\ _options e' = _options e /\ info e' = info e /\ sections e' = sections e
  /\ tocFile e' = tocFile e
  /\ (if truthy (tocFile e) then exists s, structure e' = Some s
      else structure e' = structure e).
Proof.
  unfold parse_toc. destruct (truthy (tocFile e)).
  - intros H. bind_inv H. bind_inv H. injection H as <-. simpl.
    repeat split; eauto.
  - intros H. injection H as <-. repeat split; reflexivity.
Qed.

Lemma parse_stages (e e' : Epub SectionT Hook) :
  parse decodeURI xmlToJson determineRoot parseLink parseSection register e = Ok e' <->
  exists opfPath content root manifest e7 spine info ss,
    _getOpfPath decodeURI xmlToJson e = Ok opfPath
    /\ _resolveXMLAsJsObject decodeURI xmlToJson e (JStr ("/" ++ to_string opfPath))
       = Ok content
    /\ determineRoot opfPath = Ok root
    /\ getManifest e content = Ok manifest
    /\ parse_toc decodeURI xmlToJson parseLink
         (after_package e opfPath content root manifest) = Ok e7
    /\ getSpine e7 = Ok spine
    /\ parseMetadata (_metadata e7) = Ok info
    /\ _resolveSections decodeURI parseLink parseSection register
         (set_info info (set_spine spine e7)) None = Ok ss
    /\ e' = set_sections ss (set_info info (set_spine spine e7)).
Proof.
  split.
  - intros H. unfold parse in H.
    apply bind_Ok in H. destruct H as (opfPath & H1 & H).
    apply bind_Ok in H. destruct H as (content & H2 & H).
    apply bind_Ok in H. destruct H as (root & H3 & H).
    apply bind_Ok in H. destruct H as (manifest & H4 & H).
    apply bind_Ok in H. destruct H as (e7 & H5 & H).
    apply bind_Ok in H. destruct H as (spine & H6 & H).
    apply bind_Ok in H. destruct H as (info & H7 & H).
    apply bind_Ok in H. destruct H as (ss & H8 & H).
    injection H as <-.
    exists opfPath, content, root, manifest, e7, spine, info, ss.
    repeat split; assumption.
  - intros (opfPath & content & root & manifest & e7 & spine & info & ss
            & H1 & H2 & H3 & H4 & H5 & H6 & H7 & H8 & ->).
    unfold parse. rewrite H1. cbn [bind].
    change (_resolveXMLAsJsObject decodeURI xmlToJson (set_opfPath opfPath e)
              (JStr ("/" ++ to_string (_opfPath (set_opfPath opfPath e)))))
      with (_resolveXMLAsJsObject decodeURI xmlToJson e
              (JStr ("/" ++ to_string opfPath))).
    rewrite H2. cbn [bind].
    change (_opfPath (set_content content (set_opfPath opfPath e))) with opfPath.
    rewrite H3. cbn [bind].
    change (getManifest (set_root root (set_content content (set_opfPath opfPath e)))
              (_content (set_root root (set_content content (set_opfPath opfPath e)))))
      with (getManifest e content).
    rewrite H4. cbn [bind].
    unfold after_package in H5. cbv zeta in H5. rewrite H5. cbn [bind].
    rewrite H6. cbn [bind].
    change (_metadata (set_spine spine e7)) with (_metadata e7).
    rewrite H7. cbn [bind]. rewrite H8. reflexivity.
Qed.

Lemma filter_other (x : string) (l : list string) :
  ~ In x l -> filter (fun y => negb (y =? x)) l = l.
Proof.
  induction l as [|y l IH]; simpl; intros H; [reflexivity|].
  destruct (y =? x) eqn:E; simpl.
  - apply String.eqb_eq in E. exfalso; apply H; now left.
  - rewrite IH; [reflexivity|]. intros Hin; apply H; now right.
Qed.

Lemma set_of_NoDup (l : list string) : NoDup l -> set_of l = l.
Proof.
  induction 1 as [|x l Hx _ IH]; simpl; [reflexivity|].
  rewrite IH, filter_other by assumption. reflexivity.
Qed.

Lemma Forall2_In_l {A B : Type} (R : A -> B -> Prop) (l : list A) (l' : list B)
  (x : A) :
  Forall2 R l l' -> In x l -> exists y, R x y.
Proof.
  induction 1 as [|a b l l' Hab _ IH]; intros Hin; [destruct Hin|].
  destruct Hin as [<-|Hin]; [now exists b | now apply IH].
Qed.

Lemma resolveItem_manifest (e : Epub SectionT Hook) (m : list Manifest)
  (x : string) (s : SectionT) :
  _manifest e = Some m ->
  resolveItem decodeURI parseLink parseSection register e x = Ok s ->
  exists item, find_id x m = Some item.
Proof.
  intros Hm H. unfold resolveItem in H. rewrite Hm in H.
  destruct (find_id x m) as [item|]; [now exists item | discriminate H].
Qed.

Lemma parse_populated (e e' : Epub SectionT Hook) :
  parse decodeURI xmlToJson determineRoot parseLink parseSection register e = Ok e' ->
  exists m sp ss inf root,
    _manifest e' = Some m /\ _spine e' = Some sp /\ sections e' = Some ss
    /\ info e' = Some inf /\ _root e' = Some root
    /\ spine_loop (itemRefs (_content e')) 0 [] = Ok sp
    /\ Forall2 (fun x s => resolveItem decodeURI parseLink parseSection register e' x
                           = Ok s) (keys sp) ss.
Proof.
  intros H. apply parse_stages in H.
  destruct H as (opfPath & content & root & manifest & e7 & spine & inf & ss
                 & _ & _ & _ & _ & Htoc & Hsp & _ & Hss & ->).
  apply parse_toc_fields in Htoc.
  destruct Htoc as (_ & _ & Hroot & Hcontent & Hman & _).
  simpl in Hroot, Hcontent, Hman.
  unfold getSpine in Hsp. rewrite Hcontent in Hsp.
  apply bind_Ok in Hsp. destruct Hsp as (m' & _ & Hsp).
  exists manifest, spine, ss, inf, root. simpl.
  rewrite Hman, Hroot, Hcontent. repeat split; try reflexivity; try assumption.
  unfold _resolveSections in Hss. simpl in Hss.
  apply mapM_Forall2 in Hss.
  destruct (@spine_loop_invariant _ _ _ _ Hsp (NoDup_nil _) (Forall_nil _)
              (Z.le_refl 0)) as [Hnd _].
  rewrite set_of_NoDup in Hss by (apply keys_NoDup; exact Hnd). exact Hss.
Qed.

(** For a parsed document whose item references name no id twice, each of
    them a plain name (no array index, not [__proto__]), the spine sends the
    [i]-th declared id to [i] and nothing else anywhere, the declared ids are
    ids of manifest items, and [sections[i]] is the section resolved for the
    [i]-th declared id. *)
Theorem spine_indexes_sections_distinct (e e' : Epub SectionT Hook) :
  parse decodeURI xmlToJson determineRoot parseLink parseSection register e = Ok e' ->
  NoDup (idrefs (_content e')) ->
  forallb ordinary_key (idrefs (_content e')) = true ->
  spine_indexes_sections decodeURI parseLink parseSection register e'.
Proof.
  intros H Hnd Hord. apply parse_populated in H.
  destruct H as (m & sp & ss & inf & root & Hm & Hsp & Hss & _ & _ & Hloop & Hall).
  destruct (ordinary_keys _ Hord) as [Hnamed Hproto].
  apply spine_loop_indexed in Hloop; [|exact Hnd | exact Hproto]. simpl in Hloop.
  fold (idrefs (_content e')) in Hloop. subst sp.
  rewrite keys_named, names_indexed in Hall by (now rewrite names_indexed).
  exists m, (indexed (idrefs (_content e')) 0), ss.
  split; [exact Hm|]. split; [exact Hsp|]. split; [exact Hss|].
  split; [|split; [|exact Hall]].
  - intros x z. rewrite (assoc_indexed 0 x z Hnd).
    replace (z - 0)%Z with z by lia. reflexivity.
  - intros x Hx.
    destruct (@Forall2_In_l _ _ _ _ _ x Hall Hx) as (s & Hs).
    eapply resolveItem_manifest; eassumption.
Qed.

Lemma assoc_In {A : Type} (k : string) (v : A) (o : list (string * A)) :
  assoc k o = Some v -> In (k, v) o.
Proof.
  induction o as [|[k' v'] o IH]; simpl; [discriminate|].
  destruct (k' =? k) eqn:E.
  - apply String.eqb_eq in E. intros H; injection H as <-. subst. now left.
  - intros H. right. now apply IH.
Qed.

(** C5.  After a completed parse, [getSection(id)] for a spine key gives
    what [sections] holds at the index the spine has for it; for an id that
    is no spine key, is not the empty string and is not the name of a member
    the spine object inherits, it resolves that one id through
    [resolveItem], the spine left aside. *)
Theorem getSection_after_parse (e e' : Epub SectionT Hook) (id : string) :
  parse decodeURI xmlToJson determineRoot parseLink parseSection register e = Ok e' ->
  exists sp ss,
    _spine e' = Some sp /\ sections e' = Some ss
    /\ (forall z, assoc id sp = Some z ->
                  getSection decodeURI parseLink parseSection register e' id
                  = Ok (index ss z))
    /\ (assoc id sp = None -> id <> "" -> ~ In id object_prototype ->
        getSection decodeURI parseLink parseSection register e' id
        = (s <- resolveItem decodeURI parseLink parseSection register e' id ;;
           Ok (Val s))).
Proof.
  intros H. apply parse_populated in H.
  destruct H as (m & sp & ss & inf & root & Hm & Hsp & Hss & _ & _ & Hloop & Hall).
  exists sp, ss. split; [exact Hsp|]. split; [exact Hss|]. split.
  - intros z Hz. unfold getSection, obj_get. rewrite Hsp, Hz, Hss.
    destruct (@spine_loop_invariant _ _ _ _ Hloop (NoDup_nil _) (Forall_nil _)
                (Z.le_refl 0)) as [_ Hpos].
    apply assoc_In in Hz. rewrite Forall_forall in Hpos.
    specialize (Hpos _ Hz). simpl in Hpos.
    destruct (z =? -1)%Z eqn:E; [lia | reflexivity].
  - intros Hnone Hid Hinh. unfold getSection, obj_get. rewrite Hsp, Hnone.
    assert (Hex : existsb (String.eqb id) object_prototype = false).
    { destruct (existsb (String.eqb id) object_prototype) eqn:E; [|reflexivity].
      apply existsb_exists in E. destruct E as (k & Hk & E).
      apply String.eqb_eq in E. subst k. contradiction. }
    rewrite Hex.
    unfold _resolveSections. rewrite Hsp. cbn [bind].
    apply String.eqb_neq in Hid. rewrite Hid. simpl.
    destruct (resolveItem decodeURI parseLink parseSection register e' id);
      reflexivity.
Qed.

(** C10.  The outline of a parsed document is built exactly when the first
    manifest item whose id is the string [ncx] has a truthy (non-empty)
    href; [tocFile] is the href of that item, and without such an item both
    are absent.  An absent outline ends no parse: with a falsy [tocFile] the
    stage changes nothing and cannot fail. *)
Theorem outline_iff_ncx_href
  (zip : string -> option string) (opts : option (ParserOptions Hook))
  (e' : Epub SectionT Hook) :
  parse decodeURI xmlToJson determineRoot parseLink parseSection register
        (newEpub zip opts) = Ok e' ->
  exists m,
    _manifest e' = Some m
    /\ tocFile e' = match find_id "ncx" m with
                    | Some item => href item
                    | None => JUndef
                    end
    /\ (structure e' <> None <->
        exists item, find_id "ncx" m = Some item /\ truthy (href item) = true)
    /\ (find_id "ncx" m = None -> tocFile e' = JUndef /\ structure e' = None)
    /\ (forall e0 : Epub SectionT Hook,
           truthy (tocFile e0) = false ->
           parse_toc decodeURI xmlToJson parseLink e0 = Ok e0).
Proof.
  intros H. apply parse_stages in H.
  destruct H as (opfPath & content & root & manifest & e7 & spine & inf & ss
                 & _ & _ & _ & _ & Htoc & _ & _ & _ & ->).
  apply parse_toc_fields in Htoc.
  destruct Htoc as (_ & _ & _ & _ & Hman & _ & _ & _ & _ & _ & Htf & Hst).
  simpl in Hman, Htf, Hst. unfold ncx_href in Htf, Hst. simpl in Htf, Hst.
  exists manifest. simpl. rewrite Hman, Htf.
  split; [reflexivity|]. split; [reflexivity|].
  destruct (find_id "ncx" manifest) as [item|].
  - split; [|split].
    + destruct (truthy (href item)) eqn:Ht.
      * destruct Hst as (s & ->). split; [intros _; now exists item | discriminate].
      * rewrite Hst. split; [intros Hc; now destruct Hc|].
        intros (item' & Heq & Ht'). injection Heq as <-. congruence.
    + discriminate.
    + intros e0 He0. unfold parse_toc. now rewrite He0.
  - simpl in Hst. split; [|split].
    + rewrite Hst. split; [intros Hc; now destruct Hc|].
      intros (item' & Heq & _). discriminate.
    + intros _. split; [reflexivity | exact Hst].
    + intros e0 He0. unfold parse_toc. now rewrite He0.
Qed.


Lemma parse_content_Err (e : Epub SectionT Hook) (opfPath : JsVal) (err : JsError) :
  _getOpfPath decodeURI xmlToJson e = Ok opfPath ->
  _resolveXMLAsJsObject decodeURI xmlToJson e (JStr ("/" ++ to_string opfPath))
  = Err err ->
  parse decodeURI xmlToJson determineRoot parseLink parseSection register e = Err err.
Proof.
  intros H1 H2. unfold parse. rewrite H1. cbn [bind].
  change (_resolveXMLAsJsObject decodeURI xmlToJson (set_opfPath opfPath e)
            (JStr ("/" ++ to_string (_opfPath (set_opfPath opfPath e)))))
    with (_resolveXMLAsJsObject decodeURI xmlToJson e
            (JStr ("/" ++ to_string opfPath))).
  now rewrite H2.
Qed.



(** ** Table of contents builders *)

Lemma bindW_Ok {S A B : Type} (w : Walk S A) (f : A -> Walk S B) (s s' : S) (b : B) :
  bindW w f s = Some (Ok (b, s')) ->
  exists a s1, w s = Some (Ok (a, s1)) /\ f a s1 = Some (Ok (b, s')).
Proof.
  unfold bindW. destruct (w s) as [[[a s1]|err]|]; intros H; try discriminate.
  now exists a, s1.
Qed.

Lemma lift_Ok {S A : Type} (r : Result A) (s s' : S) (a : A) :
  lift r s = Some (Ok (a, s')) -> r = Ok a /\ s' = s.
Proof.
  unfold lift. destruct r; intros H; [|discriminate].
  injection H as <- <-. now split.
Qed.

Lemma bindW_total {S A B : Type} (w : Walk S A) (f : A -> Walk S B) (s : S) :
  w s <> None ->
  (forall a s1, w s = Some (Ok (a, s1)) -> f a s1 <> None) ->
  bindW w f s <> None.
Proof.
  unfold bindW. intros Hw Hf. destruct (w s) as [[[a s1]|err]|].
  - now apply Hf.
  - discriminate.
  - contradiction.
Qed.

Lemma lift_total {S A : Type} (r : Result A) (s : S) : lift r s <> None.
Proof. unfold lift. destruct r; discriminate. Qed.

Lemma mapW_total {S A B : Type} (f : A -> Walk S B) (l : list A) :
  (forall x, In x l -> forall s, f x s <> None) ->
  forall s, mapW f l s <> None.
Proof.
  induction l as [|x l IH]; simpl; intros Hf s; [discriminate|].
  apply bindW_total; [apply Hf; now left|].
  intros y s1 _. apply bindW_total.
  - apply IH. intros x' Hx'. apply Hf. now right.
  - intros ys s2 _. discriminate.
Qed.

Lemma height_pos (v : JsVal) : 1 <= height v.
Proof. destruct v; simpl; lia. Qed.

Lemma height_element (l : list JsVal) (x : JsVal) :
  In x l -> height x < height (JArr l).
Proof.
  simpl. induction l as [|y l IH]; intros Hin; [destruct Hin|].
  destruct Hin as [->|Hin]; [lia|].
  specialize (IH Hin). lia.
Qed.

Lemma height_assoc (kv : list (string * JsVal)) (k : string) (x : JsVal) :
  assoc k kv = Some x -> height x < height (JObj kv).
Proof.
  simpl. induction kv as [|[k' y] kv IH]; simpl; [discriminate|].
  destruct (k' =? k).
  - intros H; injection H as ->. lia.
  - intros H. specialize (IH H). lia.
Qed.

Lemma height_member (v : JsVal) (k : string) :
  height (member v k) <= height v
  /\ (truthy (member v k) = true -> height (member v k) < height v).
Proof.
  destruct v; simpl; try (split; [lia | discriminate]).
  destruct (assoc k kv) as [x|] eqn:E.
  - apply height_assoc in E. simpl in E. split; [lia | intros _; lia].
  - split; [simpl; lia | discriminate].
Qed.

Lemma height_member0 (v : JsVal) : height (member0 v) <= height v.
Proof.
  destruct v; try (simpl; lia).
  - destruct s; simpl; lia.
  - destruct l as [|x l]; [simpl; lia|].
    pose proof (@height_element (x :: l) x (or_introl eq_refl)) as H.
    simpl in *. lia.
  - simpl member0. destruct (assoc "0" kv) as [x|] eqn:E.
    + apply height_assoc in E. lia.
    + simpl; lia.
Qed.

Lemma height_prop (v x : JsVal) (k : string) :
  prop v k = Ok x -> height x <= height v.
Proof.
  unfold prop. destruct (nullish v); [discriminate|].
  intros H; injection H as <-. apply height_member.
Qed.

Lemma height_index0 (v x : JsVal) :
  index0 v = Ok x -> height x <= height v.
Proof.
  unfold index0. destruct (nullish v); [discriminate|].
  intros H; injection H as <-. apply height_member0.
Qed.

Lemma height_optprop (v : JsVal) (k : string) :
  height (optprop v k) <= height v.
Proof.
  unfold optprop. destruct (nullish v); [apply height_pos | apply height_member].
Qed.

Lemma height_optindex0 (v : JsVal) : height (optindex0 v) <= height v.
Proof.
  unfold optindex0. destruct (nullish v); [apply height_pos | apply height_member0].
Qed.

Lemma height_get (obj : JsVal) (path : list string) (d : JsVal) :
  height d <= height obj -> height (get obj path d) <= height obj.
Proof.
  intros Hd. unfold get.
  assert (H : forall v, height v <= height obj ->
                        match get_loop v path with
                        | Some r => height r <= height obj
                        | None => True
                        end).
  { induction path as [|k path IH]; intros v Hv; simpl; [exact Hv|].
    destruct (nullish v); [exact I|]. apply IH.
    pose proof (height_member v k). lia. }
  specialize (H obj (le_n _)).
  destruct (get_loop obj path) as [r|]; [|exact Hd].
  destruct (nullish r); assumption.
Qed.

(** The fuel the entry points give is enough: a traversal started on a
    value no higher than the fuel is never cut short. *)
Lemma parseHTMLNavPoints_fuel (e : Epub SectionT Hook) (fuel : nat) :
  forall navPoint s,
    height navPoint <= fuel ->
    parseHTMLNavPoints parseLink e fuel navPoint s <> None.
Proof.
  induction fuel as [|fuel IH]; intros navPoint s Hh.
  - pose proof (height_pos navPoint). lia.
  - cbn [parseHTMLNavPoints].
    repeat (apply bindW_total; [apply lift_total | intros ? ? _]).
    apply bindW_total; [discriminate | intros ? ? _].
    apply bindW_total.
    + destruct (truthy _) eqn:Ht; [|discriminate].
      apply bindW_total; [|intros ? ? _; discriminate].
      destruct (optprop (optindex0 (optprop navPoint "ol")) "li") as [| | |l|] eqn:Ec;
        try apply lift_total.
      cbn [arrayMapW]. apply mapW_total. intros x Hx s'. apply IH.
      apply height_element in Hx. rewrite <- Ec in Hx.
      pose proof (height_optprop (optindex0 (optprop navPoint "ol")) "li").
      pose proof (height_optindex0 (optprop navPoint "ol")).
      pose proof (height_optprop navPoint "ol"). lia.
    + intros ? ? _.
      apply bindW_total; [discriminate | intros ? ? _].
      apply bindW_total; [discriminate | intros ? ? _]. discriminate.
Qed.

Lemma height_fuel_html (e : Epub SectionT Hook) (tocObj root : JsVal) (s : Z) :
  tocRoot tocObj = Ok root ->
  parseOuterHTML parseLink e (height tocObj) root s <> None.
Proof.
  intros H. unfold tocRoot in H.
  repeat match type of H with
         | bind _ _ = Ok _ =>
             let a := fresh "a" in
             let Ha := fresh "Ha" in
             apply bind_Ok in H; destruct H as (a & Ha & H)
         end.
  repeat match goal with
         | Hp : prop _ _ = Ok _ |- _ => apply height_prop in Hp
         | Hi : index0 _ = Ok _ |- _ => apply height_index0 in Hi
         end.
  unfold parseOuterHTML. destruct root as [| | |l|]; try apply lift_total.
  cbn [arrayMapW]. apply mapW_total. intros x Hx s'.
  apply parseHTMLNavPoints_fuel. apply height_element in Hx. lia.
Qed.

Lemma parseNavPoint_fuel (e : Epub SectionT Hook) (fuel : nat) :
  forall navPoint s,
    height navPoint <= fuel ->
    parseNavPoint parseLink e fuel navPoint s <> None.
Proof.
  induction fuel as [|fuel IH]; intros navPoint s Hh.
  - pose proof (height_pos navPoint). lia.
  - cbn [parseNavPoint].
    apply bindW_total; [apply lift_total | intros ? ? _].
    apply bindW_total; [apply lift_total | intros c ? Hc].
    apply lift_Ok in Hc. destruct Hc as [Hc _].
    unfold prop in Hc. destruct (nullish navPoint); [discriminate|].
    injection Hc as <-.
    apply bindW_total.
    + destruct (truthy _) eqn:Ht; [|discriminate].
      apply bindW_total; [|intros ? ? _; discriminate].
      apply mapW_total. intros x Hx s'. apply IH.
      pose proof (proj2 (height_member navPoint "navPoint") Ht) as Hlt.
      destruct (member navPoint "navPoint") as [| | |l|] eqn:Ec;
        try (destruct Hx as [<-|[]]; lia).
      apply height_element in Hx. lia.
    + intros ? ? _.
      apply bindW_total; [apply lift_total | intros ? ? _]. discriminate.
Qed.

Lemma height_fuel_ncx (e : Epub SectionT Hook) (tocObj : JsVal) (s : unit) :
  parseNavPoints parseLink e (height tocObj)
    (get tocObj ["ncx"; "navMap"; "navPoint"] (JArr [])) s <> None.
Proof.
  unfold parseNavPoints. apply mapW_total. intros x Hx s'.
  apply parseNavPoint_fuel.
  pose proof (@height_get tocObj ["ncx"; "navMap"; "navPoint"] (JArr [])
                (height_pos tocObj)) as Hg.
  destruct (get tocObj ["ncx"; "navMap"; "navPoint"] (JArr [])) as [| | |l|];
    try (destruct Hx as [<-|[]]; exact Hg).
  apply height_element in Hx. lia.
Qed.

(** *** Order values of the nested-list markup *)

Lemma parseHTMLNavPoints_shape (e : Epub SectionT Hook) (fuel : nat)
  (navPoint : JsVal) (s s' : Z) (t : TOCItem) :
  parseHTMLNavPoints parseLink e (S fuel) navPoint s = Some (Ok (t, s')) ->
  exists n sid nid path c s1,
    t = TOC n sid nid path (PlayNum s) c /\ s' = (s1 + 1)%Z
    /\ ((exists v, c = inl v /\ s1 = s)
        \/ (exists kids col,
               c = inr kids
               /\ arrayMapW (parseHTMLNavPoints parseLink e fuel) col s
                  = Some (Ok (kids, s1)))).
Proof.
  cbn [parseHTMLNavPoints]. intros H.
  repeat match type of H with
         | bindW (lift _) _ _ = _ =>
             let a := fresh "a" in
             let s1 := fresh "s" in
             let Ha := fresh "Ha" in
             apply bindW_Ok in H; destruct H as (a & s1 & Ha & H);
             apply lift_Ok in Ha; destruct Ha as [Ha ->]
         end.
  apply bindW_Ok in H. destruct H as (o & s1 & Ho & H).
  unfold read in Ho. inversion Ho; subst o s1; clear Ho.
  apply bindW_Ok in H. destruct H as (c & s2 & Hc & H).
  apply bindW_Ok in H. destruct H as (r & s3 & Hr & H).
  unfold read in Hr. inversion Hr; subst r s3; clear Hr.
  apply bindW_Ok in H. destruct H as (u & s4 & Hu & H).
  unfold write in Hu. inversion Hu; subst u s4; clear Hu.
  unfold ret in H. inversion H; subst t s'; clear H.
  do 6 eexists. split; [reflexivity|]. split; [reflexivity|].
  destruct (truthy _) in Hc.
  - apply bindW_Ok in Hc. destruct Hc as (kids & s5 & Hk & Hc).
    unfold ret in Hc. inversion Hc; subst c s5; clear Hc. right. eauto.
  - unfold ret in Hc. inversion Hc; subst c s2; clear Hc. left. eauto.
Qed.

(** The first item of a nested list is given the order value of the item
    the list is nested in. *)
Lemma first_child_repeats_order (e : Epub SectionT Hook) (fuel : nat)
  (navPoint : JsVal) (s s' : Z) (t k : TOCItem) (ks : list TOCItem) :
  parseHTMLNavPoints parseLink e fuel navPoint s = Some (Ok (t, s')) ->
  children t = inr (k :: ks) ->
  playOrder t = PlayNum s /\ playOrder k = PlayNum s.
Proof.
  destruct fuel as [|fuel]; [discriminate|]. intros H Hk.
  apply parseHTMLNavPoints_shape in H.
  destruct H as (n & sid & nid & path & c & s1 & -> & _ & Hc).
  split; [reflexivity|]. simpl in Hk. subst c.
  destruct Hc as [(v & Hv & _)|(kids & col & Hkids & Hmap)]; [discriminate|].
  injection Hkids as <-.
  destruct col as [| | |l|]; try discriminate.
  destruct l as [|x l]; [discriminate|].
  cbn [arrayMapW mapW] in Hmap.
  apply bindW_Ok in Hmap. destruct Hmap as (k' & s2 & Hx & Hmap).
  apply bindW_Ok in Hmap. destruct Hmap as (ks' & s3 & _ & Hmap).
  injection Hmap as <- <- <-.
  destruct fuel as [|fuel]; [discriminate|].
  apply parseHTMLNavPoints_shape in Hx.
  destruct Hx as (? & ? & ? & ? & ? & ? & -> & _). reflexivity.
Qed.

Lemma preorder_children (n sid nid path : JsVal) (o : PlayOrder)
  (kids : list TOCItem) :
  preorder (TOC n sid nid path o (inr kids))
  = TOC n sid nid path o (inr kids) :: preorder_all kids.
Proof.
  reflexivity.
Qed.

(** [runningIndex] is incremented once for every item built. *)
Lemma runningIndex_counts (e : Epub SectionT Hook) (fuel : nat) :
  forall navPoint s s' t,
    parseHTMLNavPoints parseLink e fuel navPoint s = Some (Ok (t, s')) ->
    s' = (s + Z.of_nat (length (preorder t)))%Z.
Proof.
  induction fuel as [|fuel IH]; intros navPoint s s' t H; [discriminate|].
  apply parseHTMLNavPoints_shape in H.
  destruct H as (n & sid & nid & path & c & s1 & -> & -> & Hc).
  destruct Hc as [(v & -> & ->)|(kids & col & -> & Hmap)]; [simpl; lia|].
  rewrite preorder_children. cbn [length].
  assert (Hs : s1 = (s + Z.of_nat (length (preorder_all kids)))%Z); [|lia].
  destruct col as [| | |l|]; try discriminate.
  cbn [arrayMapW] in Hmap. clear - IH Hmap.
  revert s kids Hmap. induction l as [|x l IHl]; intros s kids Hmap.
  - injection Hmap as <- <-. simpl. lia.
  - cbn [mapW] in Hmap.
    apply bindW_Ok in Hmap. destruct Hmap as (k & s2 & Hx & Hmap).
    apply bindW_Ok in Hmap. destruct Hmap as (ks & s3 & Hl & Hmap).
    injection Hmap as <- <-.
    apply IH in Hx. apply IHl in Hl. subst.
    unfold preorder_all. cbn [flat_map]. rewrite length_app.
    fold (preorder_all ks). lia.
Qed.

End Facts.

(** ** The sample container *)

(** C1.  The nested-list builder takes the order value of an item before it
    builds the nested list and increments the counter after: on a navigation
    list of one entry with one nested entry, both get the order value 1, so
    the order values in document order are not strictly increasing. *)
Theorem nested_list_order_repeats :
  exists toc,
    _genStructureForHTML parseLink_spec (Sample.parsed Sample.book) Sample.nav
    = Ok toc
    /\ map playOrder (preorder_all toc) = [PlayNum 1; PlayNum 1].
Proof.
  eexists. split; [vm_compute; reflexivity|]. reflexivity.
Qed.

Lemma resolve_contract_witness :
  _root (Sample.parsed Sample.book) = Some "OEBPS/"
  /\ resolve Sample.decodeURI (Sample.parsed Sample.book) (JStr "Text/chap1.xhtml")
     = Ok "chapter one"
  /\ resolve Sample.decodeURI (Sample.parsed Sample.book)
             (JStr "/META-INF/container.xml")
     = Ok "container.xml"
  /\ resolve Sample.decodeURI (Sample.parsed Sample.book) (JStr "Text/chap3.xhtml")
     = Err (Error "OEBPS/Text/chap3.xhtml not found!").
Proof.
  split; [reflexivity|]. split; [|split].
  - exact (eq_trans (@resolve_contract _ _ Sample.decodeURI
                       (Sample.parsed Sample.book) "OEBPS/" "Text/chap1.xhtml"
                       eq_refl) eq_refl).
  - exact (eq_trans (@resolve_contract _ _ Sample.decodeURI
                       (Sample.parsed Sample.book) "OEBPS/" "/META-INF/container.xml"
                       eq_refl) eq_refl).
  - exact (eq_trans (@resolve_contract _ _ Sample.decodeURI
                       (Sample.parsed Sample.book) "OEBPS/" "Text/chap3.xhtml"
                       eq_refl) eq_refl).
Defined.

Lemma resolveId_miss_witness :
  parseLink_spec (JStr "Text/missing.xhtml#top")
  = Ok {| name := "missing.xhtml"; hash := "top" |}
  /\ _resolveIdFromLink parseLink_spec (Sample.parsed Sample.book)
                        (JStr "Text/missing.xhtml#top")
     = Ok (JStr "").
Proof.
  split; [reflexivity|].
  apply (@resolveId_miss _ _ parseLink_spec (Sample.parsed Sample.book)
           (JStr "Text/missing.xhtml#top")
           {| name := "missing.xhtml"; hash := "top" |}).
  - reflexivity.
  - intros m Hm. vm_compute in Hm. injection Hm as <-.
    repeat constructor; eexists; (split; [reflexivity | discriminate]).
Defined.

Lemma resolveId_invariant_witness :
  has_char "#" "/OEBPS/Text" = false
  /\ _resolveIdFromLink parseLink_spec (Sample.parsed Sample.book)
                        (JStr ("chap1.xhtml" ++ "#" ++ "sec2"))
     = _resolveIdFromLink parseLink_spec (Sample.parsed Sample.book)
                          (JStr "chap1.xhtml")
  /\ _resolveIdFromLink parseLink_spec (Sample.parsed Sample.book)
                        (JStr ("/OEBPS/Text" ++ "/" ++ "chap1.xhtml"))
     = _resolveIdFromLink parseLink_spec (Sample.parsed Sample.book)
                          (JStr "chap1.xhtml")
  /\ _resolveIdFromLink parseLink_spec (Sample.parsed Sample.book)
                        (JStr "chap1.xhtml")
     = Ok (JStr "chap1").
Proof.
  split; [reflexivity|].
  destruct (@resolveId_invariant _ _ (Sample.parsed Sample.book)
              "chap1.xhtml" "/OEBPS/Text" "sec2" eq_refl)
    as (Hf & Hd & _ & _ & Hid).
  split; [exact Hf|]. split; [exact Hd|].
  apply (Hid [{| href := JStr "Text/chap1.xhtml"; id := JStr "chap1" |};
              {| href := JStr "Text/chap2.xhtml"; id := JStr "chap2" |}]
             {| href := JStr "Text/chap1.xhtml"; id := JStr "chap1" |} "chap1").
  - reflexivity.
  - repeat constructor; eexists; reflexivity.
  - reflexivity.
  - reflexivity.
Defined.

Lemma sample_book_parsed :
  parse Sample.decodeURI (Sample.xmlToJson Sample.book) determineRoot_spec
        parseLink_spec Sample.parseSection Sample.register
        (newEpub Sample.zip (Some (defaultOptions unit)))
  = Ok (Sample.parsed Sample.book).
Proof. vm_compute. reflexivity. Defined.

Lemma spine_indexes_sections_distinct_witness :
  parse Sample.decodeURI (Sample.xmlToJson Sample.book) determineRoot_spec
        parseLink_spec Sample.parseSection Sample.register
        (newEpub Sample.zip (Some (defaultOptions unit)))
  = Ok (Sample.parsed Sample.book)
  /\ NoDup (idrefs (_content (Sample.parsed Sample.book)))
  /\ forallb ordinary_key (idrefs (_content (Sample.parsed Sample.book))) = true
  /\ spine_indexes_sections Sample.decodeURI parseLink_spec Sample.parseSection
       Sample.register (Sample.parsed Sample.book).
Proof.
  assert (Hnd : NoDup (idrefs (_content (Sample.parsed Sample.book)))).
  { vm_compute. repeat constructor; simpl; intuition discriminate. }
  assert (Hord : forallb ordinary_key (idrefs (_content (Sample.parsed Sample.book)))
                 = true) by (vm_compute; reflexivity).
  split; [exact sample_book_parsed|]. split; [exact Hnd|]. split; [exact Hord|].
  exact (@spine_indexes_sections_distinct _ _ Sample.decodeURI
           (Sample.xmlToJson Sample.book) determineRoot_spec parseLink_spec
           Sample.parseSection Sample.register _ _ sample_book_parsed Hnd Hord).
Defined.

(** C4.  An id referenced twice: the spine numbers the references and keeps
    one key for the id, with the index of its last reference, while one
    section is built for every distinct key.  With the references
    [chap1, chap1, chap2] the spine is [{chap1: 1, chap2: 2}] and the
    sections are those of [chap1] and [chap2]: the spine values are not
    [0, 1], [sections[spine[chap1]]] is the section of [chap2] and
    [sections[spine[chap2]]] is not there, which is what [getSection]
    returns for the two ids. *)
Theorem repeated_reference_misindexes :
  Sample.run More.repeated = Ok (Sample.parsed More.repeated)
  /\ idrefs (_content (Sample.parsed More.repeated)) = ["chap1"; "chap1"; "chap2"]
  /\ _spine (Sample.parsed More.repeated) = Some [("chap1", 1%Z); ("chap2", 2%Z)]
  /\ sections (Sample.parsed More.repeated)
     = Some [("chap1", "chapter one"); ("chap2", "chapter two")]
  /\ getSection Sample.decodeURI parseLink_spec Sample.parseSection Sample.register
                (Sample.parsed More.repeated) "chap1"
     = Ok (Val ("chap2", "chapter two"))
  /\ getSection Sample.decodeURI parseLink_spec Sample.parseSection Sample.register
                (Sample.parsed More.repeated) "chap2"
     = Ok Undefined
  /\ ~ spine_indexes_sections Sample.decodeURI parseLink_spec Sample.parseSection
         Sample.register (Sample.parsed More.repeated).
Proof.
  split; [vm_compute; reflexivity|]. split; [vm_compute; reflexivity|].
  split; [vm_compute; reflexivity|]. split; [vm_compute; reflexivity|].
  split; [vm_compute; reflexivity|]. split; [vm_compute; reflexivity|].
  intros (m & sp & ss & _ & Hsp & _ & Hbij & _).
  vm_compute in Hsp. injection Hsp as <-.
  assert (H : assoc "chap1" [("chap1", 1%Z); ("chap2", 2%Z)] = Some 0%Z).
  { apply Hbij. split; [lia | reflexivity]. }
  discriminate H.
Qed.

Lemma sample_short_parsed :
  parse Sample.decodeURI (Sample.xmlToJson More.short) determineRoot_spec
        parseLink_spec Sample.parseSection Sample.register
        (newEpub Sample.zip (Some (defaultOptions unit)))
  = Ok (Sample.parsed More.short).
Proof. vm_compute. reflexivity. Defined.

Lemma getSection_after_parse_witness :
  parse Sample.decodeURI (Sample.xmlToJson More.short) determineRoot_spec
        parseLink_spec Sample.parseSection Sample.register
        (newEpub Sample.zip (Some (defaultOptions unit)))
  = Ok (Sample.parsed More.short)
  /\ _spine (Sample.parsed More.short) = Some [("chap1", 0%Z)]
  /\ sections (Sample.parsed More.short) = Some [("chap1", "chapter one")]
  /\ getSection Sample.decodeURI parseLink_spec Sample.parseSection Sample.register
                (Sample.parsed More.short) "chap1"
     = Ok (index [("chap1", "chapter one")] 0)
  /\ (assoc "chap2" [("chap1", 0%Z)] = None /\ "chap2" <> ""
      /\ ~ In "chap2" object_prototype)
  /\ getSection Sample.decodeURI parseLink_spec Sample.parseSection Sample.register
                (Sample.parsed More.short) "chap2"
     = (s <- resolveItem Sample.decodeURI parseLink_spec Sample.parseSection
                         Sample.register (Sample.parsed More.short) "chap2" ;;
        Ok (Val s))
  /\ getSection Sample.decodeURI parseLink_spec Sample.parseSection Sample.register
                (Sample.parsed More.short) "chap2"
     = Ok (Val ("chap2", "chapter two")).
Proof.
  assert (Hsp : _spine (Sample.parsed More.short) = Some [("chap1", 0%Z)])
    by (vm_compute; reflexivity).
  assert (Hss : sections (Sample.parsed More.short) = Some [("chap1", "chapter one")])
    by (vm_compute; reflexivity).
  assert (Hout : ~ In "chap2" object_prototype).
  { simpl. intuition discriminate. }
  split; [exact sample_short_parsed|]. split; [exact Hsp|]. split; [exact Hss|].
  split.
  - destruct (@getSection_after_parse _ _ Sample.decodeURI
                (Sample.xmlToJson More.short) determineRoot_spec parseLink_spec
                Sample.parseSection Sample.register _ _ "chap1" sample_short_parsed)
      as (sp & ss & Hsp' & Hss' & Hkey & _).
    rewrite Hsp in Hsp'. rewrite Hss in Hss'.
    injection Hsp' as <-. injection Hss' as <-.
    exact (Hkey 0%Z eq_refl).
  - split; [split; [reflexivity | split; [discriminate | exact Hout]]|].
    split; [|vm_compute; reflexivity].
    destruct (@getSection_after_parse _ _ Sample.decodeURI
                (Sample.xmlToJson More.short) determineRoot_spec parseLink_spec
                Sample.parseSection Sample.register _ _ "chap2" sample_short_parsed)
      as (sp & ss & Hsp' & _ & _ & Hfresh).
    rewrite Hsp in Hsp'. injection Hsp' as <-.
    apply Hfresh; [reflexivity | discriminate | exact Hout].
Defined.

(** The stated form of C5 fails at two kinds of id that are no spine key.
    The empty id: [_resolveSections('')] takes the whole spine, and
    [getSection] returns the section of the first spine key where resolving
    the id itself has no manifest item to read.  The name of an inherited
    member, as [constructor]: the spine object gives the member for it, and
    [getSection] returns [undefined] and resolves nothing. *)
Lemma getSection_not_direct_counterexample :
  Sample.run Sample.book = Ok (Sample.parsed Sample.book)
  /\ _spine (Sample.parsed Sample.book) = Some [("chap1", 0%Z); ("chap2", 1%Z)]
  /\ (assoc "" [("chap1", 0%Z); ("chap2", 1%Z)] = None
      /\ getSection Sample.decodeURI parseLink_spec Sample.parseSection
                    Sample.register (Sample.parsed Sample.book) ""
         = Ok (Val ("chap1", "chapter one"))
      /\ resolveItem Sample.decodeURI parseLink_spec Sample.parseSection
                     Sample.register (Sample.parsed Sample.book) ""
         = Err TypeError
      /\ getSection Sample.decodeURI parseLink_spec Sample.parseSection
                    Sample.register (Sample.parsed Sample.book) ""
         <> (s <- resolveItem Sample.decodeURI parseLink_spec Sample.parseSection
                              Sample.register (Sample.parsed Sample.book) "" ;;
             Ok (Val s)))
  /\ (assoc "constructor" [("chap1", 0%Z); ("chap2", 1%Z)] = None
      /\ getSection Sample.decodeURI parseLink_spec Sample.parseSection
                    Sample.register (Sample.parsed Sample.book) "constructor"
         = Ok Undefined
      /\ resolveItem Sample.decodeURI parseLink_spec Sample.parseSection
                     Sample.register (Sample.parsed Sample.book) "constructor"
         = Err TypeError
      /\ getSection Sample.decodeURI parseLink_spec Sample.parseSection
                    Sample.register (Sample.parsed Sample.book) "constructor"
         <> (s <- resolveItem Sample.decodeURI parseLink_spec Sample.parseSection
                              Sample.register (Sample.parsed Sample.book)
                              "constructor" ;;
             Ok (Val s))).
Proof.
  split; [vm_compute; reflexivity|]. split; [vm_compute; reflexivity|]. split.
  - split; [reflexivity|]. split; [vm_compute; reflexivity|].
    split; [vm_compute; reflexivity|]. vm_compute. discriminate.
  - split; [reflexivity|]. split; [vm_compute; reflexivity|].
    split; [vm_compute; reflexivity|]. vm_compute. discriminate.
Qed.

Lemma outline_iff_ncx_href_witness :
  parse Sample.decodeURI (Sample.xmlToJson Sample.book) determineRoot_spec
        parseLink_spec Sample.parseSection Sample.register
        (newEpub Sample.zip (Some (defaultOptions unit)))
  = Ok (Sample.parsed Sample.book)
  /\ exists m,
      _manifest (Sample.parsed Sample.book) = Some m
      /\ tocFile (Sample.parsed Sample.book)
         = match find_id "ncx" m with
           | Some item => href item
           | None => JUndef
           end
      /\ (structure (Sample.parsed Sample.book) <> None <->
          exists item, find_id "ncx" m = Some item /\ truthy (href item) = true).
Proof.
  split; [exact sample_book_parsed|].
  destruct (@outline_iff_ncx_href _ _ Sample.decodeURI
              (Sample.xmlToJson Sample.book) determineRoot_spec parseLink_spec
              Sample.parseSection Sample.register Sample.zip
              (Some (defaultOptions unit)) _ sample_book_parsed)
    as (m & Hm & Htf & Hst & _).
  exists m. split; [exact Hm|]. split; [exact Htf | exact Hst].
Defined.

(** The stated form of C10 fails on a manifest whose [ncx] item names no
    file: the item is there, the parse succeeds, and the outline is not
    defined; [tocFile] is undefined without an href and empty with an empty
    one. *)
Lemma ncx_without_href_counterexample :
  (Sample.run Sample.nofile = Ok (Sample.parsed Sample.nofile)
   /\ (exists m item,
          _manifest (Sample.parsed Sample.nofile) = Some m
          /\ find_id "ncx" m = Some item)
   /\ tocFile (Sample.parsed Sample.nofile) = JUndef
   /\ structure (Sample.parsed Sample.nofile) = None)
  /\ (Sample.run Sample.emptyfile = Ok (Sample.parsed Sample.emptyfile)
      /\ (exists m item,
             _manifest (Sample.parsed Sample.emptyfile) = Some m
             /\ find_id "ncx" m = Some item)
      /\ tocFile (Sample.parsed Sample.emptyfile) = JStr ""
      /\ structure (Sample.parsed Sample.emptyfile) = None).
Proof.
  split.
  - split; [vm_compute; reflexivity|]. split.
    + eexists. eexists. split; [vm_compute; reflexivity|]. reflexivity.
    + split; reflexivity.
  - split; [vm_compute; reflexivity|]. split.
    + eexists. eexists. split; [vm_compute; reflexivity|]. reflexivity.
    + split; reflexivity.
Qed.

Lemma parseMetadata_present_only_witness :
  parseMetadata (get Sample.book ["package"; "metadata"] (JObj []))
  = Ok [("title", JStr "A Book"); ("author", JArr [JStr "An Author"])]
  /\ (forall k v,
         In (k, v) [("title", JStr "A Book"); ("author", JArr [JStr "An Author"])] <->
         In k fields
         /\ extract (get Sample.book ["package"; "metadata"] (JObj [])) k = Ok v
         /\ v <> JUndef /\ v <> JArr [] /\ forall r, v <> JArr (JUndef :: r))
  /\ NoDup (map fst [("title", JStr "A Book"); ("author", JArr [JStr "An Author"])]).
Proof.
  split; [reflexivity|].
  destruct (proj1 (parseMetadata_present_only
                     (get Sample.book ["package"; "metadata"] (JObj [])))
              [("title", JStr "A Book"); ("author", JArr [JStr "An Author"])]
              eq_refl) as (Hin & _ & Hnd).
  split; [exact Hin | exact Hnd].
Defined.


(** * Further properties of the code *)

(** ** [get] *)

Lemma get_loop_app_Some (o r : JsVal) (p q : list string) :
  get_loop o p = Some r -> get_loop o (p ++ q) = get_loop r q.
Proof.
  revert o. induction p as [|k p IH]; simpl; intros o H.
  - now injection H as <-.
  - destruct (nullish o); [discriminate | now apply IH].
Qed.

Lemma get_loop_app_None (o : JsVal) (p q : list string) :
  get_loop o p = None -> get_loop o (p ++ q) = None.
Proof.
  revert o. induction p as [|k p IH]; simpl; intros o H; [discriminate|].
  destruct (nullish o); [reflexivity | now apply IH].
Qed.

Lemma get_loop_nullish (o : JsVal) (q : list string) :
  nullish o = true ->
  match get_loop o q with
  | Some r => nullish r = true
  | None => True
  end.
Proof.
  intros H. destruct q as [|k q]; simpl; [exact H|]. now rewrite H.
Qed.

(** Reading a path in two steps is reading it at once: [get(obj, [...p, ...q],
    d)] is [get(get(obj, p), q, d)]. *)
Theorem get_path_compose (obj : JsVal) (p q : list string) (d : JsVal) :
  get obj (p ++ q) d = get (get obj p JUndef) q d.
Proof.
  unfold get at 1 3.
  destruct (get_loop obj p) as [r|] eqn:Hp.
  - rewrite (@get_loop_app_Some obj r p q Hp).
    destruct (nullish r) eqn:Hr; [|reflexivity].
    pose proof (@get_loop_nullish r q Hr) as H1.
    pose proof (@get_loop_nullish JUndef q eq_refl) as H2.
    unfold get.
    destruct (get_loop r q) as [x|], (get_loop JUndef q) as [y|];
      try rewrite H1; try rewrite H2; reflexivity.
  - rewrite (@get_loop_app_None obj p q Hp).
    pose proof (@get_loop_nullish JUndef q eq_refl) as H2.
    unfold get. destruct (get_loop JUndef q) as [y|]; [now rewrite H2 | reflexivity].
Qed.

(** With a default that is neither null nor undefined, [get] returns
    neither. *)
Theorem get_never_nullish (obj : JsVal) (path : list string) (d : JsVal) :
  nullish d = false -> nullish (get obj path d) = false.
Proof.
  intros Hd. unfold get. destruct (get_loop obj path) as [r|]; [|exact Hd].
  destruct (nullish r) eqn:Hr; assumption.
Qed.

Lemma get_never_nullish_witness :
  nullish (JArr []) = false
  /\ nullish (get (JObj [("package", JNull)]) ["package"; "spine"; "itemref"]
                  (JArr [])) = false.
Proof.
  split; [reflexivity|].
  exact (@get_never_nullish (JObj [("package", JNull)])
           ["package"; "spine"; "itemref"] (JArr []) eq_refl).
Defined.

(** ** [parseMetadata] *)

Lemma mapM_prop_Ok (k : string) (l : list JsVal) :
  existsb nullish l = false ->
  mapM (fun a => prop a k) l = Ok (map (fun a => member a k) l).
Proof.
  induction l as [|a l IH]; simpl; intros H; [reflexivity|].
  apply orb_false_elim in H. destruct H as [Ha Hl].
  unfold prop at 1. rewrite Ha. simpl. now rewrite IH.
Qed.

Lemma mapM_prop_Err (k : string) (l : list JsVal) :
  existsb nullish l = true ->
  mapM (fun a => prop a k) l = Err TypeError.
Proof.
  induction l as [|a l IH]; simpl; intros H; [discriminate|].
  unfold prop at 1. destruct (nullish a); [reflexivity|].
  simpl in H. simpl. now rewrite IH.
Qed.

Lemma Ok_inj {A : Type} (a b : A) : Ok a = Ok b -> a = b.
Proof. intros H. now injection H. Qed.

Lemma pickBy_In (obj : list (string * JsVal)) (predicate : JsVal -> bool)
  (x : string * JsVal) :
  In x (pickBy obj predicate) <-> In x obj /\ predicate (snd x) = true.
Proof. unfold pickBy. apply filter_In. Qed.

(** The value of the field [author] before the absent fields are dropped. *)
Lemma extract_author (meta : JsVal) :
  extract meta "author"
  = match get meta ["dc:creator"] (JArr []) with
    | JArr l => if existsb nullish l then Err TypeError
                else Ok (JArr (map (fun a => member a "#text") l))
    | other => Ok (JArr [optprop other "#text"])
    end.
Proof.
  unfold extract. simpl.
  destruct (get meta ["dc:creator"] (JArr [])) as [| | |l|]; try reflexivity.
  destruct (existsb nullish l) eqn:E.
  - now rewrite mapM_prop_Err.
  - now rewrite mapM_prop_Ok.
Qed.

Lemma parseMetadata_default (metadata : JsVal) (k : string) :
  extract match metadata with
          | JUndef => JObj []
          | _ => metadata
          end k = extract metadata k.
Proof. destruct metadata; reflexivity. Qed.

Lemma parseMetadata_unfold (metadata : JsVal) :
  parseMetadata metadata
  = (author <- extract metadata "author" ;;
     Ok (pickBy [("title", get metadata ["dc:title"] JUndef);
                 ("author", author);
                 ("description", get metadata ["description"; "_"] JUndef);
                 ("language", get metadata ["dc:language"] JUndef);
                 ("publisher", get metadata ["dc:publisher"] JUndef);
                 ("rights", get metadata ["dc:rights"] JUndef)] present)).
Proof.
  unfold parseMetadata, fields. cbn [mapM].
  rewrite !parseMetadata_default.
  destruct (extract metadata "author") as [author|err]; reflexivity.
Qed.

(** [parseMetadata] throws in one case only: a list of creators with a null
    or undefined entry, whose text cannot be read. *)
Theorem parseMetadata_throws_iff (metadata : JsVal) (err : JsError) :
  parseMetadata metadata = Err err <->
  err = TypeError
  /\ exists l, get metadata ["dc:creator"] (JArr []) = JArr l
               /\ existsb nullish l = true.
Proof.
  rewrite parseMetadata_unfold, extract_author.
  destruct (get metadata ["dc:creator"] (JArr [])) as [| | |l|] eqn:E; simpl;
    try (split; [discriminate | intros (_ & l & Hl & _); discriminate]).
  destruct (existsb nullish l) eqn:En; simpl.
  - split.
    + intros H; injection H as <-. split; [reflexivity|]. now exists l.
    + intros (-> & _). reflexivity.
  - split; [discriminate|].
    intros (_ & l' & Hl & Hn). injection Hl as <-. congruence.
Qed.

Lemma parseMetadata_keys (metadata : JsVal) (inf : MetaInfo) :
  parseMetadata metadata = Ok inf ->
  map fst inf
  = filter (fun k => match extract metadata k with
                     | Ok v => present v
                     | Err _ => false
                     end) fields.
Proof.
  rewrite parseMetadata_unfold. intros H.
  destruct (extract metadata "author") as [author|] eqn:Ha; [|discriminate].
  injection H as <-. unfold fields, pickBy. cbn [filter snd].
  rewrite Ha.
  change (extract metadata "title") with (Ok (get metadata ["dc:title"] JUndef)).
  change (extract metadata "description")
    with (Ok (get metadata ["description"; "_"] JUndef)).
  change (extract metadata "language") with (Ok (get metadata ["dc:language"] JUndef)).
  change (extract metadata "publisher")
    with (Ok (get metadata ["dc:publisher"] JUndef)).
  change (extract metadata "rights") with (Ok (get metadata ["dc:rights"] JUndef)).
  cbv beta iota.
  repeat match goal with
         | |- context [present ?v] => destruct (present v)
         end; reflexivity.
Qed.

(** The keys of the record come in the order of the field list, each at most
    once: they are the fields whose value is present, picked from [title],
    [author], [description], [language], [publisher], [rights]. *)
Theorem parseMetadata_key_order (metadata : JsVal) (inf : MetaInfo) :
  parseMetadata metadata = Ok inf ->
  map fst inf
  = filter (fun k => match extract metadata k with
                     | Ok v => present v
                     | Err _ => false
                     end) fields.
Proof. apply parseMetadata_keys. Qed.

(** [description] is read from the text payload [_] of an element
    [description] and from nowhere else: without that payload the record has
    no description, whatever [dc:description] holds. *)
Theorem parseMetadata_description_source (metadata : JsVal) (inf : MetaInfo) :
  parseMetadata metadata = Ok inf ->
  (forall v, In ("description", v) inf ->
             v = get metadata ["description"; "_"] JUndef /\ v <> JUndef)
  /\ (get metadata ["description"; "_"] JUndef = JUndef ->
      ~ In "description" (map fst inf)).
Proof.
  intros H. pose proof (parseMetadata_keys _ H) as Hkeys.
  rewrite parseMetadata_unfold in H.
  destruct (extract metadata "author") as [author|] eqn:Ha; [|discriminate].
  cbn [bind] in H. apply Ok_inj in H. subst inf. split.
  - intros v Hv. apply pickBy_In in Hv.
    destruct Hv as [Hin Hp]. simpl in Hin, Hp.
    destruct Hin as [Hin|[Hin|[Hin|[Hin|[Hin|[Hin|[]]]]]]]; try discriminate.
    injection Hin as <-. split; [reflexivity|].
    intros Hu. rewrite Hu in Hp. discriminate.
  - intros Hu Hin. rewrite Hkeys in Hin. apply filter_In in Hin.
    destruct Hin as [_ Hp].
    change (extract metadata "description")
      with (Ok (get metadata ["description"; "_"] JUndef)) in Hp.
    rewrite Hu in Hp. discriminate.
Qed.

Lemma parseMetadata_key_order_witness :
  parseMetadata (JObj [("dc:rights", JStr "CC0"); ("dc:title", JStr "A Book")])
  = Ok [("title", JStr "A Book"); ("rights", JStr "CC0")]
  /\ map fst [("title", JStr "A Book"); ("rights", JStr "CC0")]
     = filter (fun k =>
                 match extract (JObj [("dc:rights", JStr "CC0");
                                      ("dc:title", JStr "A Book")]) k with
                 | Ok v => present v
                 | Err _ => false
                 end) fields.
Proof.
  split; [reflexivity|].
  exact (@parseMetadata_key_order
           (JObj [("dc:rights", JStr "CC0"); ("dc:title", JStr "A Book")])
           [("title", JStr "A Book"); ("rights", JStr "CC0")] eq_refl).
Defined.

Lemma parseMetadata_description_source_witness :
  parseMetadata (JObj [("dc:title", JStr "A Book");
                       ("dc:description", JStr "About the book")])
  = Ok [("title", JStr "A Book")]
  /\ ~ In "description" (map fst [("title", JStr "A Book")]).
Proof.
  split; [reflexivity|].
  exact (proj2 (@parseMetadata_description_source
                  (JObj [("dc:title", JStr "A Book");
                         ("dc:description", JStr "About the book")])
                  [("title", JStr "A Book")] eq_refl) eq_refl).
Defined.

Section MoreFacts.

Variables SectionT Hook : Type.
Variable decodeURI : string -> Result string.
Variable xmlToJson : string -> Result JsVal.
Variable determineRoot : JsVal -> Result string.
Variable parseLink : JsVal -> Result ParsedLink.
Variable parseSection : SectionInput -> Result SectionT.
Variable register : SectionT -> Hook -> Result SectionT.

(** ** [resolve] *)

(** A path relative to the content root and the same path written from the
    archive root resolve alike, to the same entry or the same error. *)
Lemma resolve_relative_as_absolute (e : Epub SectionT Hook) (root path : string) :
  _root e = Some root ->
  starts_with_separator path = false ->
  resolve decodeURI e (JStr path)
  = resolve decodeURI e (JStr ("/" ++ root ++ path)).
Proof.
  intros Hroot Hrel. unfold resolve. rewrite !resolved_path_string.
  rewrite Hrel. unfold root_prefix. rewrite Hroot. reflexivity.
Qed.

(** A path that begins with a separator resolves without the content root:
    alike in any two states of the same archive, also before [parse] has set
    the root. *)
Lemma resolve_absolute_rootless (e1 e2 : Epub SectionT Hook) (path : string) :
  _zip e1 = _zip e2 ->
  resolve decodeURI e1 (JStr (String "/" path))
  = resolve decodeURI e2 (JStr (String "/" path)).
Proof.
  intros Hzip. unfold resolve. rewrite !resolved_path_string. simpl.
  now rewrite Hzip.
Qed.

(** ** [_resolveIdFromLink] *)

Lemma findM_first {A : Type} (p : A -> Result bool) (pre post : list A) (x : A) :
  Forall (fun y => p y = Ok false) pre -> p x = Ok true ->
  findM p (pre ++ x :: post) = Ok (Some x).
Proof.
  induction 1 as [|y pre Hy _ IH]; simpl; intros Hx.
  - now rewrite Hx.
  - rewrite Hy. simpl. now apply IH.
Qed.

(** The first manifest item whose href has the base name of the link gives
    the id; items after it are not looked at, not even parsed. *)
Theorem resolveId_first_match (e : Epub SectionT Hook) (link : JsVal)
  (tar l : ParsedLink) (pre post : list Manifest) (item : Manifest) :
  parseLink link = Ok tar ->
  _manifest e = Some (pre ++ item :: post) ->
  Forall (fun i => exists l', parseLink (href i) = Ok l' /\ name l' <> name tar) pre ->
  parseLink (href item) = Ok l -> name l = name tar ->
  _resolveIdFromLink parseLink e link
  = Ok (if nullish (id item) then JStr "" else id item).
Proof.
  intros Htar Hm Hpre Hitem Hname. unfold _resolveIdFromLink.
  rewrite Htar, Hm. cbn [bind].
  rewrite findM_first; [reflexivity | |].
  - eapply Forall_impl; [|exact Hpre].
    intros i (l' & Hl' & Hne). simpl. rewrite Hl'. simpl.
    apply String.eqb_neq in Hne. now rewrite Hne.
  - simpl. rewrite Hitem. simpl. rewrite Hname. now rewrite String.eqb_refl.
Qed.

(** What the link resolver returns is never null or undefined: a missing id
    comes out as the empty string. *)
Theorem resolveId_never_nullish (e : Epub SectionT Hook) (link v : JsVal) :
  _resolveIdFromLink parseLink e link = Ok v -> nullish v = false.
Proof.
  unfold _resolveIdFromLink. intros H.
  apply bind_Ok in H. destruct H as (tar & _ & H).
  apply bind_Ok in H. destruct H as (tarItem & _ & H).
  apply Ok_inj in H. subst v.
  destruct tarItem as [item|]; [|reflexivity].
  destruct (nullish (id item)) eqn:E; [reflexivity | exact E].
Qed.

(** ** [getManifest] and [getSpine] *)

(** On an [Epub] without a manifest yet, [getManifest] succeeds exactly when
    the item list is absent or an array without null or undefined entries,
    and gives one entry per item, in order, with the two attributes as they
    are; any failure is a TypeError. *)
Theorem getManifest_shape (e : Epub SectionT Hook) (content : JsVal) :
  _manifest e = None ->
  (forall m,
      getManifest e content = Ok m <->
      exists items,
        get content ["package"; "manifest"; "item"] (JArr []) = JArr items
        /\ existsb nullish items = false
        /\ m = map (fun item => {| href := member item "@href";
                                   id := member item "@id" |}) items)
  /\ (forall err, getManifest e content = Err err -> err = TypeError).
Proof.
  intros Hm. unfold getManifest. rewrite Hm.
  assert (Hmap : forall items,
             mapM (fun item => h <- prop item "@href" ;; i <- prop item "@id" ;;
                               Ok {| href := h; id := i |}) items
             = if existsb nullish items then Err TypeError
               else Ok (map (fun item => {| href := member item "@href";
                                            id := member item "@id" |}) items)).
  { induction items as [|a items IH]; [reflexivity|].
    cbn [mapM existsb map]. unfold prop at 1 2.
    destruct (nullish a); [reflexivity|]. cbn [bind orb].
    rewrite IH. destruct (existsb nullish items); reflexivity. }
  destruct (get content ["package"; "manifest"; "item"] (JArr [])) as [| | |items|];
    try (split; [intros m; split; [discriminate | intros (? & ? & _); discriminate]
                | intros err H; now injection H]).
  rewrite Hmap. split.
  - intros m. destruct (existsb nullish items) eqn:En.
    + split; [discriminate|]. intros (items' & Hi & Hn & _).
      injection Hi as <-. congruence.
    + split.
      * intros H. apply Ok_inj in H. exists items. auto.
      * intros (items' & Hi & _ & ->). now injection Hi as <-.
  - intros err. destruct (existsb nullish items); [|discriminate].
    intros H. now injection H.
Qed.

Lemma assoc_obj_put (o : NumMap) (k x : string) (v : Z) :
  assoc x (obj_put o k v) = if k =? x then Some v else assoc x o.
Proof.
  induction o as [|[k' v'] o IH]; simpl.
  - reflexivity.
  - destruct (k' =? k) eqn:E; simpl.
    + apply String.eqb_eq in E. subst k'. destruct (k =? x); reflexivity.
    + destruct (k' =? x) eqn:Ex; [|exact IH].
      apply String.eqb_eq in Ex. subst k'. now rewrite String.eqb_sym, E.
Qed.

Lemma assoc_obj_set (o : NumMap) (k x : string) (v : Z) :
  x <> "__proto__" ->
  assoc x (obj_set o k v) = if k =? x then Some v else assoc x o.
Proof.
  intros Hx. unfold obj_set. destruct (k =? "__proto__") eqn:E.
  - apply String.eqb_eq in E. subst k.
    destruct ("__proto__" =? x) eqn:E2; [|reflexivity].
    apply String.eqb_eq in E2. congruence.
  - apply assoc_obj_put.
Qed.

Lemma spine_loop_nullish (items : list JsVal) (i : Z) (o : NumMap) :
  (existsb nullish items = true -> spine_loop items i o = Err TypeError)
  /\ (existsb nullish items = false -> exists sp, spine_loop items i o = Ok sp).
Proof.
  revert i o. induction items as [|a items IH]; intros i o; simpl.
  - split; [discriminate | eauto].
  - unfold prop. destruct (nullish a); simpl.
    + split; [reflexivity | discriminate].
    + apply IH.
Qed.

Lemma spine_loop_proto (items : list JsVal) (i : Z) (o sp : NumMap) :
  spine_loop items i o = Ok sp -> assoc "__proto__" sp = assoc "__proto__" o.
Proof.
  revert i o. induction items as [|a items IH]; intros i o H.
  - simpl in H. apply Ok_inj in H. now subst sp.
  - simpl in H. apply bind_Ok in H. destruct H as (idref & _ & H).
    rewrite (IH _ _ H). unfold obj_set.
    destruct (to_string idref =? "__proto__") eqn:E; [reflexivity|].
    now rewrite assoc_obj_put, E.
Qed.

Lemma spine_loop_assoc (items : list JsVal) (i : Z) (o sp : NumMap) :
  spine_loop items i o = Ok sp ->
  forall x z,
    x <> "__proto__" ->
    assoc x sp = Some z <->
    (exists j, nth_error (map (fun item => to_string (member item "@idref")) items) j
               = Some x
               /\ z = (i + Z.of_nat j)%Z
               /\ forall j', j < j' ->
                             nth_error (map (fun item =>
                                               to_string (member item "@idref")) items) j'
                             <> Some x)
    \/ (~ In x (map (fun item => to_string (member item "@idref")) items)
        /\ assoc x o = Some z).
Proof.
  clear decodeURI xmlToJson determineRoot parseLink parseSection register.
  revert i o. induction items as [|a items IH]; intros i o H x z Hx.
  - simpl in H. apply Ok_inj in H. subst sp. simpl. split.
    + intros Hz. right. tauto.
    + intros [(j & Hj & _)|[_ Hz]]; [destruct j; discriminate | exact Hz].
  - simpl in H. apply bind_Ok in H. destruct H as (idref & Hid & H).
    unfold prop in Hid. destruct (nullish a); [discriminate|].
    apply Ok_inj in Hid. subst idref.
    rewrite (IH _ _ H x z Hx), (@assoc_obj_set _ _ x _ Hx). cbn [map].
    set (k := to_string (member a "@idref")).
    set (ids := map (fun item => to_string (member item "@idref")) items).
    split.
    + intros [(j & Hj & Hz & Hlast)|[Hnin Hz]].
      * left. exists (S j). split; [exact Hj|]. split; [lia|].
        intros j' Hlt. destruct j' as [|j']; [lia|]. apply Hlast. lia.
      * destruct (k =? x) eqn:E.
        -- apply String.eqb_eq in E. left. exists 0.
           split; [simpl; now rewrite E|]. split; [injection Hz as <-; lia|].
           intros j' Hlt. destruct j' as [|j']; [lia|]. simpl.
           intros Hc. apply Hnin. eapply nth_error_In. exact Hc.
        -- apply String.eqb_neq in E. right. split; [|exact Hz].
           intros [Hc|Hc]; [now apply E | now apply Hnin].
    + intros [(j & Hj & Hz & Hlast)|[Hnin Hz]].
      * destruct j as [|j].
        -- simpl in Hj. injection Hj as Hj. right. split.
           ++ intros Hc. apply In_nth_error in Hc. destruct Hc as (n & Hn).
              apply (Hlast (S n)); [lia | exact Hn].
           ++ apply String.eqb_eq in Hj. rewrite Hj. f_equal. lia.
        -- left. exists j. split; [exact Hj|]. split; [lia|].
           intros j' Hlt. apply (Hlast (S j')). lia.
      * right. split; [intros Hc; apply Hnin; now right|].
        destruct (k =? x) eqn:E; [|exact Hz].
        apply String.eqb_eq in E. exfalso. apply Hnin. now left.
Qed.

(** Every reference counts, the last one wins: [spine[x]] is an own property
    exactly when some item reference names [x] and [x] is not [__proto__],
    and its value is the position of the last item reference that names
    [x]. *)
Theorem getSpine_last_reference (e : Epub SectionT Hook) (sp : NumMap) :
  getSpine e = Ok sp ->
  forall x z,
    assoc x sp = Some z <->
    x <> "__proto__"
    /\ exists j, z = Z.of_nat j
                 /\ nth_error (idrefs (_content e)) j = Some x
                 /\ forall j', j < j' -> nth_error (idrefs (_content e)) j' <> Some x.
Proof.
  clear decodeURI xmlToJson determineRoot parseLink parseSection register.
  unfold getSpine. intros H x z.
  apply bind_Ok in H. destruct H as (m & _ & H).
  destruct (string_dec x "__proto__") as [->|Hx].
  - rewrite (spine_loop_proto _ _ _ H). simpl.
    split; [discriminate | intros [Hc _]; now destruct Hc].
  - rewrite (@spine_loop_assoc _ _ _ _ H x z Hx). unfold idrefs. simpl. split.
    + intros [(j & Hj & Hz & Hlast)|[_ Hc]]; [|discriminate].
      split; [exact Hx|]. exists j. split; [lia|]. split; assumption.
    + intros (_ & j & Hz & Hj & Hlast). left. exists j.
      split; [exact Hj|]. split; [lia | exact Hlast].
Qed.

(** [getSpine] throws exactly when an item reference is null or undefined,
    and then a TypeError; a package document without a spine gives the empty
    map. *)
Theorem getSpine_throws_iff (e : Epub SectionT Hook) (err : JsError) :
  getSpine e = Err err <->
  err = TypeError /\ existsb nullish (itemRefs (_content e)) = true.
Proof.
  unfold getSpine.
  assert (Hm : exists m, getManifest e JUndef = Ok m).
  { unfold getManifest. destruct (_manifest e) as [m|]; eauto.
    simpl. eauto. }
  destruct Hm as (m & ->). cbn [bind].
  destruct (spine_loop_nullish (itemRefs (_content e)) 0 []) as [Hy Hn].
  destruct (existsb nullish (itemRefs (_content e))).
  - rewrite (Hy eq_refl). split.
    + intros H. injection H as <-. now split.
    + intros [-> _]. reflexivity.
  - destruct (Hn eq_refl) as (sp & ->). split; [discriminate|].
    intros [_ Hc]. discriminate.
Qed.

Lemma set_of_filter_drop (k : string) (X Y : list string) :
  filter (fun y => negb (y =? k)) (set_of (X ++ k :: Y))
  = filter (fun y => negb (y =? k)) (set_of (X ++ Y)).
Proof.
  induction X as [|x X IH]; simpl.
  - rewrite String.eqb_refl. simpl.
    induction (set_of Y) as [|y S IHS]; simpl; [reflexivity|].
    destruct (y =? k) eqn:E; simpl; [exact IHS|].
    rewrite E. simpl. now rewrite IHS.
  - destruct (x =? k) eqn:E; simpl.
    + assert (Hcomm : forall S,
                 filter (fun y => negb (y =? k)) (filter (fun y => negb (y =? x)) S)
                 = filter (fun y => negb (y =? x)) (filter (fun y => negb (y =? k)) S)).
      { induction S as [|y S IHS]; simpl; [reflexivity|].
        destruct (y =? x) eqn:Ex, (y =? k) eqn:Ek; simpl;
          rewrite ?Ex, ?Ek; simpl; now rewrite IHS. }
      now rewrite !Hcomm, IH.
    + f_equal.
      assert (Hcomm : forall S,
                 filter (fun y => negb (y =? k)) (filter (fun y => negb (y =? x)) S)
                 = filter (fun y => negb (y =? x)) (filter (fun y => negb (y =? k)) S)).
      { induction S as [|y S IHS]; simpl; [reflexivity|].
        destruct (y =? x) eqn:Ex, (y =? k) eqn:Ek; simpl;
          rewrite ?Ex, ?Ek; simpl; now rewrite IHS. }
      now rewrite !Hcomm, IH.
Qed.

Lemma set_of_drop (k : string) (A B : list string) :
  In k A -> set_of (A ++ k :: B) = set_of (A ++ B).
Proof.
  induction A as [|a A IH]; intros Hin; [destruct Hin|].
  simpl. f_equal. destruct (a =? k) eqn:E.
  - apply String.eqb_eq in E. subst a. apply set_of_filter_drop.
  - destruct Hin as [->|Hin]; [now rewrite String.eqb_refl in E|].
    now rewrite IH.
Qed.

Lemma names_obj_put (o : NumMap) (k : string) (v : Z) :
  (In k (names o) -> names (obj_put o k v) = names o)
  /\ (~ In k (names o) -> names (obj_put o k v) = names o ++ [k]).
Proof.
  induction o as [|[k' v'] o [IH1 IH2]]; simpl.
  - split; [intros [] | reflexivity].
  - destruct (k' =? k) eqn:E; simpl.
    + apply String.eqb_eq in E. split; [reflexivity|]. intros H. exfalso. auto.
    + apply String.eqb_neq in E. split.
      * intros [Hc|Hin]; [contradiction|]. now rewrite IH1.
      * intros Hn. rewrite IH2; [reflexivity|]. auto.
Qed.

Lemma spine_loop_names (items : list JsVal) (i : Z) (o sp : NumMap) :
  spine_loop items i o = Ok sp ->
  set_of (names sp)
  = set_of (names o
            ++ filter (fun k => negb (k =? "__proto__"))
                      (map (fun item => to_string (member item "@idref")) items)).
Proof.
  revert i o. induction items as [|a items IH]; intros i o H.
  - simpl in H. apply Ok_inj in H. subst sp. simpl. now rewrite app_nil_r.
  - simpl in H. apply bind_Ok in H. destruct H as (idref & Hid & H).
    unfold prop in Hid. destruct (nullish a); [discriminate|].
    apply Ok_inj in Hid. subst idref.
    rewrite (IH _ _ H). cbn [map filter]. unfold obj_set.
    destruct (to_string (member a "@idref") =? "__proto__"); [reflexivity|].
    cbn [negb].
    destruct (names_obj_put o (to_string (member a "@idref")) i) as [K1 K2].
    destruct (in_dec string_dec (to_string (member a "@idref")) (names o)) as [Hin|Hn].
    + rewrite (K1 Hin). symmetry. now apply set_of_drop.
    + rewrite (K2 Hn), <- app_assoc. reflexivity.
Qed.

Lemma set_of_In (l : list string) (x : string) : In x (set_of l) <-> In x l.
Proof.
  clear decodeURI xmlToJson determineRoot parseLink parseSection register.
  induction l as [|a l IH]; simpl; [tauto|]. split.
  - intros [->|H]; [now left|]. apply filter_In in H. right. now apply IH.
  - intros [->|H]; [now left|].
    destruct (a =? x) eqn:E.
    + apply String.eqb_eq in E. now left.
    + right. apply filter_In. split; [now apply IH|].
      now rewrite String.eqb_sym, E.
Qed.

Lemma filter_proto (l : list string) :
  ~ In "__proto__" l -> filter (fun k => negb (k =? "__proto__")) l = l.
Proof.
  induction l as [|k l IH]; simpl; intros H; [reflexivity|].
  destruct (k =? "__proto__") eqn:E; simpl.
  - apply String.eqb_eq in E. exfalso. apply H. now left.
  - rewrite IH; [reflexivity|]. intros Hc. apply H. now right.
Qed.

Lemma spine_names_ordinary (items : list JsVal) (sp : NumMap) :
  spine_loop items 0 [] = Ok sp ->
  forallb ordinary_key (map (fun item => to_string (member item "@idref")) items)
  = true ->
  keys sp = set_of (map (fun item => to_string (member item "@idref")) items).
Proof.
  intros Hloop Hord. destruct (ordinary_keys _ Hord) as [Hnamed Hproto].
  pose proof (spine_loop_names _ _ _ Hloop) as Hk. simpl in Hk.
  rewrite (@filter_proto _ Hproto) in Hk.
  destruct (@spine_loop_invariant _ _ _ _ Hloop (NoDup_nil _) (Forall_nil _)
              (Z.le_refl 0)) as [Hnd _].
  rewrite (set_of_NoDup Hnd) in Hk.
  rewrite keys_named; [exact Hk|].
  rewrite Hk. apply forallb_forall. intros x Hx.
  pose proof (proj1 (set_of_In _ x) Hx) as Hx'.
  exact (proj1 (forallb_forall _ _) Hnamed x Hx').
Qed.

(** The eager pass builds one section for every id the item references name,
    in the order of their first reference, when the ids are plain names (no
    array index, which the keys of the spine list first, and not
    [__proto__], which is no key): an id referenced again later adds no
    section. *)
Theorem sections_in_first_reference_order (e e' : Epub SectionT Hook) :
  parse decodeURI xmlToJson determineRoot parseLink parseSection register e = Ok e' ->
  forallb ordinary_key (idrefs (_content e')) = true ->
  exists ss,
    sections e' = Some ss
    /\ Forall2 (fun x s =>
                  resolveItem decodeURI parseLink parseSection register e' x = Ok s)
               (set_of (idrefs (_content e'))) ss.
Proof.
  intros H Hord. apply parse_populated in H.
  destruct H as (m & sp & ss & inf & root & _ & _ & Hss & _ & _ & Hloop & Hall).
  exists ss. split; [exact Hss|].
  unfold idrefs in *. now rewrite <- (spine_names_ordinary _ Hloop Hord).
Qed.

(** For a parsed document whose item references name no id twice, each of
    them a plain name, the section kept for a spine key is the one direct
    resolution gives: [getSection(id)] is the resolution of [id], for every
    spine key and for every id that is not empty and not the name of an
    inherited member. *)
Theorem getSection_is_direct_resolution (e e' : Epub SectionT Hook) (id : string) :
  parse decodeURI xmlToJson determineRoot parseLink parseSection register e = Ok e' ->
  NoDup (idrefs (_content e')) ->
  forallb ordinary_key (idrefs (_content e')) = true ->
  In id (idrefs (_content e')) \/ (id <> "" /\ ~ In id object_prototype) ->
  getSection decodeURI parseLink parseSection register e' id
  = (s <- resolveItem decodeURI parseLink parseSection register e' id ;;
     Ok (Val s)).
Proof.
  intros H Hnd Hord Hid. apply parse_populated in H.
  destruct H as (m & sp & ss & inf & root & _ & Hsp & Hss & _ & _ & Hloop & Hall).
  destruct (ordinary_keys _ Hord) as [Hnamed Hproto].
  apply spine_loop_indexed in Hloop; [|exact Hnd | exact Hproto]. simpl in Hloop.
  fold (idrefs (_content e')) in Hloop. subst sp.
  rewrite keys_named, names_indexed in Hall by (now rewrite names_indexed).
  unfold getSection, obj_get. rewrite Hsp.
  destruct (assoc id (indexed (idrefs (_content e')) 0)) as [z|] eqn:Ha.
  - rewrite Hss. apply (assoc_indexed 0 id z Hnd) in Ha.
    destruct Ha as [Hz Hn]. replace (z - 0)%Z with z in Hn by lia.
    destruct (z =? -1)%Z eqn:E; [lia|].
    unfold index. destruct (z <? 0)%Z eqn:E0; [lia|].
    clear - Hall Hn. revert Hn. generalize (Z.to_nat z). intros n.
    revert n. induction Hall as [|x s ids ss' Hx _ IH]; intros n Hn.
    + destruct n; discriminate.
    + destruct n as [|n]; simpl in *.
      * injection Hn as <-. now rewrite Hx.
      * now apply IH.
  - destruct Hid as [Hin|[Hne Hinh]].
    + exfalso. apply In_nth_error in Hin. destruct Hin as (n & Hn).
      assert (Hs : assoc id (indexed (idrefs (_content e')) 0) = Some (Z.of_nat n)).
      { apply (assoc_indexed 0 id (Z.of_nat n) Hnd). split; [lia|].
        replace (Z.to_nat (Z.of_nat n - 0)) with n by lia. exact Hn. }
      congruence.
    + assert (Hex : existsb (String.eqb id) object_prototype = false).
      { destruct (existsb (String.eqb id) object_prototype) eqn:E; [|reflexivity].
        apply existsb_exists in E. destruct E as (k & Hk & E).
        apply String.eqb_eq in E. subst k. contradiction. }
      rewrite Hex. unfold _resolveSections. rewrite Hsp. cbn [bind].
      apply String.eqb_neq in Hne. rewrite Hne. simpl.
      destruct (resolveItem decodeURI parseLink parseSection register e' id);
        reflexivity.
Qed.

End MoreFacts.

(** ** [checkFileType] and [resolveHTMLId] *)

Lemma starts_with_prefixes (t s : string) :
  starts_with t s = true -> In t (prefixes s).
Proof.
  revert s. induction t as [|a t IH]; intros s H.
  - destruct s; now left.
  - destruct s as [|b s]; [discriminate|]. simpl in H.
    apply andb_true_iff in H. destruct H as [Hab Ht].
    apply Ascii.eqb_eq in Hab. subst b. simpl. right.
    apply in_map. now apply IH.
Qed.

Lemma includes_substrings (s t : string) :
  includes s t = true -> In t (substrings s).
Proof.
  induction s as [|c s IH]; intros H.
  - simpl in H. rewrite orb_false_r in H. apply starts_with_prefixes in H. exact H.
  - cbn [includes] in H. apply orb_true_iff in H.
    cbn [substrings]. apply in_or_app. destruct H as [H|H].
    + left. now apply starts_with_prefixes.
    + right. now apply IH.
Qed.

(** A path is reported as an image and as HTML at once exactly when what
    [extname] gives for it is empty, a dot, a comma or a comma and a dot: so
    every path without an extension is both.  Each extension of the two
    lists is of its own kind and not of the other. *)
Theorem checkFileType_both (extname : string -> string) (filepath : string) :
  (isImage (checkFileType extname filepath) && isHTML (checkFileType extname filepath)
   = true
   <-> In (extname filepath) [""; "."; ","; ",."])
  /\ (In (extname filepath) [".jpg"; ".jpeg"; ".png"; ".gif"; ".webp"; ".svg"] ->
      isImage (checkFileType extname filepath) = true
      /\ isHTML (checkFileType extname filepath) = false)
  /\ (In (extname filepath) [".htm"; ".html"; ".xhtml"] ->
      isHTML (checkFileType extname filepath) = true
      /\ isImage (checkFileType extname filepath) = false).
Proof.
  unfold checkFileType. cbn [isImage isHTML].
  generalize (extname filepath). intros ext. split; [split|split].
  - intros H. apply andb_true_iff in H. destruct H as [Hi Hh].
    apply includes_substrings in Hh.
    assert (Hc : In ext (filter (includes ",.jpg,.jpeg,.png,.gif,.webp,.svg")
                                (substrings ".htm,.html,.xhtml"))).
    { apply filter_In. now split. }
    vm_compute in Hc. simpl. tauto.
  - intros H. simpl in H.
    destruct H as [<-|[<-|[<-|[<-|[]]]]]; reflexivity.
  - intros H. simpl in H.
    destruct H as [<-|[<-|[<-|[<-|[<-|[<-|[]]]]]]]; split; reflexivity.
  - intros H. simpl in H.
    destruct H as [<-|[<-|[<-|[]]]]; split; reflexivity.
Qed.

Lemma after_line_one_line (s : string) :
  one_line s = true -> after_line s = EmptyString.
Proof.
  induction s as [|c s IH]; intros H; [reflexivity|].
  cbn [one_line] in H. apply andb_true_iff in H. destruct H as [Hc Hs].
  apply negb_true_iff in Hc. cbn [after_line]. rewrite Hc. now apply IH.
Qed.

Lemma after_line_l (s : string) :
  one_line s = true -> after_line (String "l" s) = EmptyString.
Proof.
  intros H. cbn [after_line].
  change (line_terminator (String "l" s)) with false.
  now apply after_line_one_line.
Qed.

Lemma html_suffix_None (s : string) :
  starts_with ".xhtm" s = false -> starts_with ".htm" s = false ->
  html_suffix s = None.
Proof. unfold html_suffix. now intros -> ->. Qed.

Lemma html_suffix_Some (s r : string) :
  html_suffix s = Some r ->
  starts_with ".xhtm" s = true \/ starts_with ".htm" s = true.
Proof.
  unfold html_suffix.
  destruct (starts_with ".xhtm" s); [now left|].
  destruct (starts_with ".htm" s); [now right | discriminate].
Qed.

Lemma includes_cons_false (c : ascii) (s t : string) :
  includes (String c s) t = false ->
  starts_with t (String c s) = false /\ includes s t = false.
Proof. cbn [includes]. apply orb_false_elim. Qed.

Lemma resolveHTMLId_no_match (s : string) :
  includes s ".htm" = false -> includes s ".xhtm" = false ->
  resolveHTMLId s = s.
Proof.
  induction s as [|c s IH]; intros H1 H2; [reflexivity|].
  apply includes_cons_false in H1. destruct H1 as [S1 I1].
  apply includes_cons_false in H2. destruct H2 as [S2 I2].
  cbn [resolveHTMLId]. rewrite (html_suffix_None _ S2 S1).
  now rewrite IH.
Qed.

(** A name in which the expression matches nowhere is returned as it is. *)
Theorem resolveHTMLId_unchanged (fileName : string) :
  includes fileName ".htm" = false -> includes fileName ".xhtm" = false ->
  resolveHTMLId fileName = fileName.
Proof. apply resolveHTMLId_no_match. Qed.

Lemma starts_with_dotless (t x r : string) :
  has_char "." t = false ->
  starts_with t (x ++ String "." r) = true -> starts_with t x = true.
Proof.
  revert x. induction t as [|a t IH]; intros x Hd H; [destruct x; reflexivity|].
  simpl in Hd. apply orb_false_elim in Hd. destruct Hd as [Ha Ht].
  destruct x as [|b x]; simpl in H |- *.
  - rewrite Ha in H. discriminate.
  - apply andb_true_iff in H. destruct H as [Hab H].
    rewrite Hab. simpl. now apply IH.
Qed.

Lemma starts_with_boundary (t0 : string) (c : ascii) (b r : string) :
  has_char "." t0 = false ->
  starts_with (String "." t0) (String c b) = false ->
  starts_with (String "." t0) (String c b ++ String "." r) = false.
Proof.
  intros Hd H. cbn [starts_with append] in H |- *.
  destruct ("." =? c)%char; [|reflexivity]. cbn [andb] in H |- *.
  destruct (starts_with t0 (b ++ String "." r)) eqn:E; [|reflexivity].
  apply starts_with_dotless in E; [congruence | exact Hd].
Qed.

(** The extension and what follows it on the line are cut off: after a base
    in which the expression matches nowhere, [.htm], [.html], [.xhtm] or
    [.xhtml] and anything without a line terminator (line feed, carriage
    return, U+2028, U+2029), as a fragment or a query, the result is the
    base. *)
Theorem resolveHTMLId_strips (base ext rest : string) :
  includes base ".htm" = false -> includes base ".xhtm" = false ->
  In ext [".htm"; ".html"; ".xhtm"; ".xhtml"] ->
  one_line rest = true ->
  resolveHTMLId (base ++ ext ++ rest) = base.
Proof.
  intros H1 H2 Hext Hline.
  assert (Hdot : exists e', ext = String "." e') by
    (simpl in Hext; destruct Hext as [<-|[<-|[<-|[<-|[]]]]]; eauto).
  induction base as [|c base IH].
  - simpl in Hext. destruct Hext as [<-|[<-|[<-|[<-|[]]]]].
    + change (resolveHTMLId ("" ++ ".htm" ++ rest)) with (after_line rest).
      now apply after_line_one_line.
    + change (resolveHTMLId ("" ++ ".html" ++ rest))
        with (after_line (String "l" rest)).
      now apply after_line_l.
    + change (resolveHTMLId ("" ++ ".xhtm" ++ rest)) with (after_line rest).
      now apply after_line_one_line.
    + change (resolveHTMLId ("" ++ ".xhtml" ++ rest))
        with (after_line (String "l" rest)).
      now apply after_line_l.
  - apply includes_cons_false in H1. destruct H1 as [S1 I1].
    apply includes_cons_false in H2. destruct H2 as [S2 I2].
    destruct Hdot as (e' & ->).
    change ((String c base ++ String "." e' ++ rest)%string)
      with (String c (base ++ String "." (e' ++ rest))).
    cbn [resolveHTMLId]. rewrite html_suffix_None.
    + f_equal. exact (IH I1 I2).
    + exact (@starts_with_boundary "xhtm" c base (e' ++ rest) eq_refl S2).
    + exact (@starts_with_boundary "htm" c base (e' ++ rest) eq_refl S1).
Qed.

Lemma starts_with_app (t x y : string) :
  starts_with t x = true -> starts_with t (x ++ y) = true.
Proof.
  revert x. induction t as [|a t IH]; intros x H; [reflexivity|].
  destruct x as [|b x]; [discriminate|]. simpl in H |- *.
  apply andb_true_iff in H. destruct H as [Hab H].
  rewrite Hab. simpl. now apply IH.
Qed.

Lemma one_line_tail (c : ascii) (s : string) :
  one_line (String c s) = true -> one_line s = true.
Proof.
  cbn [one_line]. intros H. apply andb_true_iff in H. tauto.
Qed.

Lemma one_line_drop (n : nat) (s : string) :
  one_line s = true -> one_line (string_drop n s) = true.
Proof.
  revert s. induction n as [|n IH]; intros s H; [exact H|].
  destruct s as [|c s]; [reflexivity|].
  cbn [string_drop]. apply IH. exact (one_line_tail _ _ H).
Qed.

Lemma html_suffix_single (s r : string) :
  html_suffix s = Some r -> one_line s = true -> after_line r = EmptyString.
Proof.
  unfold html_suffix. intros E Hline.
  destruct (starts_with ".xhtm" s);
    [|destruct (starts_with ".htm" s); [|discriminate]];
    apply (f_equal (fun o => match o with Some x => x | None => r end)) in E;
    subst r; apply after_line_one_line; now apply one_line_drop.
Qed.

Lemma resolveHTMLId_prefix (s : string) :
  one_line s = true -> exists tail, s = (resolveHTMLId s ++ tail)%string.
Proof.
  induction s as [|c s IH]; intros Hline; [now exists EmptyString|].
  cbn [resolveHTMLId]. destruct (html_suffix (String c s)) as [r|] eqn:E.
  - rewrite (html_suffix_single _ E Hline). now exists (String c s).
  - destruct (IH (one_line_tail _ _ Hline)) as (tail & Htail).
    exists tail. cbn [append]. now rewrite <- Htail.
Qed.

Lemma resolveHTMLId_clean (s : string) :
  one_line s = true ->
  includes (resolveHTMLId s) ".htm" = false
  /\ includes (resolveHTMLId s) ".xhtm" = false.
Proof.
  induction s as [|c s IH]; intros Hline; [split; reflexivity|].
  pose proof (resolveHTMLId_prefix _ Hline) as (tail & Htail).
  cbn [resolveHTMLId] in *. destruct (html_suffix (String c s)) as [r|] eqn:E.
  - rewrite (html_suffix_single _ E Hline). split; reflexivity.
  - destruct (IH (one_line_tail _ _ Hline)) as [C1 C2].
    unfold html_suffix in E.
    destruct (starts_with ".xhtm" (String c s)) eqn:S2; [discriminate|].
    destruct (starts_with ".htm" (String c s)) eqn:S1; [discriminate|].
    cbn [append] in Htail.
    split; cbn [includes]; rewrite ?C1, ?C2, orb_false_r.
    + destruct (starts_with ".htm" (String c (resolveHTMLId s))) eqn:F; [|reflexivity].
      apply (@starts_with_app _ _ tail) in F. cbn [append] in F.
      rewrite <- Htail in F. congruence.
    + destruct (starts_with ".xhtm" (String c (resolveHTMLId s))) eqn:F; [|reflexivity].
      apply (@starts_with_app _ _ tail) in F. cbn [append] in F.
      rewrite <- Htail in F. congruence.
Qed.

(** On a name without a line terminator (line feed, carriage return, U+2028,
    U+2029) [resolveHTMLId] only cuts: the result is the start of the name up
    to the leftmost match, it holds no match itself, and applying the
    function again changes nothing. *)
Theorem resolveHTMLId_idempotent (fileName : string) :
  one_line fileName = true ->
  resolveHTMLId (resolveHTMLId fileName) = resolveHTMLId fileName
  /\ exists tail, fileName = (resolveHTMLId fileName ++ tail)%string.
Proof.
  intros Hline. split.
  - destruct (resolveHTMLId_clean _ Hline) as [C1 C2].
    now apply resolveHTMLId_no_match.
  - now apply resolveHTMLId_prefix.
Qed.

Section Outline.

Variables SectionT Hook : Type.
Variable parseLink : JsVal -> Result ParsedLink.

(** ** Order values of the nested-list markup *)

Lemma parseHTMLNavPoints_fueled (e : Epub SectionT Hook) (fuel : nat)
  (navPoint : JsVal) (s s' : Z) (t : TOCItem) :
  parseHTMLNavPoints parseLink e fuel navPoint s = Some (Ok (t, s')) ->
  exists fuel', fuel = S fuel'.
Proof. destruct fuel; [discriminate | eauto]. Qed.

Lemma html_order_at_entry (e : Epub SectionT Hook) (fuel : nat)
  (navPoint : JsVal) (s s' : Z) (t : TOCItem) :
  parseHTMLNavPoints parseLink e fuel navPoint s = Some (Ok (t, s')) ->
  playOrder t = PlayNum s.
Proof.
  intros H. destruct (parseHTMLNavPoints_fueled _ _ _ _ H) as (fuel' & ->).
  apply parseHTMLNavPoints_shape in H.
  destruct H as (? & ? & ? & ? & ? & ? & -> & _). reflexivity.
Qed.

Lemma html_siblings (e : Epub SectionT Hook) (fuel : nat) (l : list JsVal) :
  forall s s' ts,
    mapW (parseHTMLNavPoints parseLink e fuel) l s = Some (Ok (ts, s')) ->
    (forall t, nth_error ts 0 = Some t -> playOrder t = PlayNum s)
    /\ (forall i t1 t2,
           nth_error ts i = Some t1 -> nth_error ts (S i) = Some t2 ->
           exists o, playOrder t1 = PlayNum o
                     /\ playOrder t2 = PlayNum (o + Z.of_nat (length (preorder t1)))).
Proof.
  induction l as [|x l IH]; intros s s' ts H.
  - cbn [mapW] in H. unfold ret in H. apply (f_equal (fun o => match o with
                                                       | Some (Ok (a, _)) => a
                                                       | _ => ts
                                                       end)) in H.
    subst ts. split; [intros t Ht; discriminate|].
    intros i t1 t2 Ht. destruct i; discriminate.
  - cbn [mapW] in H.
    apply bindW_Ok in H. destruct H as (t & s1 & Hx & H).
    apply bindW_Ok in H. destruct H as (ts' & s2 & Hl & H).
    unfold ret in H. inversion H; subst ts s2; clear H.
    pose proof (html_order_at_entry _ _ _ _ Hx) as Ho.
    pose proof (@runningIndex_counts _ _ parseLink e fuel _ _ _ _ Hx) as Hc.
    destruct (IH _ _ _ Hl) as [Hfirst Hnext]. split.
    + intros t0 Ht0. simpl in Ht0. now injection Ht0 as <-.
    + intros i t1 t2 H1 H2. destruct i as [|i].
      * simpl in H1, H2. injection H1 as <-.
        exists s. split; [exact Ho|]. rewrite (Hfirst _ H2). now rewrite Hc.
      * simpl in H1, H2. eapply Hnext; eassumption.
Qed.

Lemma html_outer_siblings (e : Epub SectionT Hook) (fuel : nat)
  (collection : JsVal) (s s' : Z) (ts : list TOCItem) :
  parseOuterHTML parseLink e fuel collection s = Some (Ok (ts, s')) ->
  (forall t, nth_error ts 0 = Some t -> playOrder t = PlayNum s)
  /\ (forall i t1 t2,
         nth_error ts i = Some t1 -> nth_error ts (S i) = Some t2 ->
         exists o, playOrder t1 = PlayNum o
                   /\ playOrder t2 = PlayNum (o + Z.of_nat (length (preorder t1)))).
Proof.
  unfold parseOuterHTML. destruct collection as [| | |l|]; try discriminate.
  cbn [arrayMapW]. apply html_siblings.
Qed.

(** In a list of entries the first takes the counter as it stands and every
    next one the order of the entry before it plus the number of items built
    for that entry, itself and all below it. *)
Theorem html_sibling_order (e : Epub SectionT Hook) (fuel : nat)
  (collection : JsVal) (s s' : Z) (ts : list TOCItem) :
  parseOuterHTML parseLink e fuel collection s = Some (Ok (ts, s')) ->
  (forall t, nth_error ts 0 = Some t -> playOrder t = PlayNum s)
  /\ (forall i t1 t2,
         nth_error ts i = Some t1 -> nth_error ts (S i) = Some t2 ->
         exists o, playOrder t1 = PlayNum o
                   /\ playOrder t2 = PlayNum (o + Z.of_nat (length (preorder t1)))).
Proof. apply html_outer_siblings. Qed.

Lemma flat_orders (ts : list TOCItem) (s : Z) :
  (forall t, nth_error ts 0 = Some t -> playOrder t = PlayNum s) ->
  (forall i t1 t2,
      nth_error ts i = Some t1 -> nth_error ts (S i) = Some t2 ->
      exists o, playOrder t1 = PlayNum o
                /\ playOrder t2 = PlayNum (o + Z.of_nat (length (preorder t1)))) ->
  Forall (fun t => exists v, children t = inl v) ts ->
  map playOrder ts
  = map (fun i => PlayNum (s + Z.of_nat i)) (seq 0 (length ts)).
Proof.
  revert s. induction ts as [|t ts IH]; intros s Hfirst Hnext Hflat; [reflexivity|].
  inversion Hflat as [|? ? (v & Hv) Hflat']; subst.
  cbn [map length seq]. rewrite (Hfirst t eq_refl). f_equal; [f_equal; lia|].
  rewrite <- seq_shift, map_map.
  rewrite (IH (s + 1)%Z).
  - apply map_ext. intros i. f_equal. lia.
  - intros t2 H2. destruct (Hnext 0 t t2 eq_refl H2) as (o & Ho & Ho2).
    rewrite (Hfirst t eq_refl) in Ho. injection Ho as <-.
    rewrite Ho2. destruct t as [? ? ? ? ? c]. simpl in Hv. subst c.
    simpl. reflexivity.
  - intros i t1 t2 H1 H2. exact (Hnext (S i) t1 t2 H1 H2).
  - exact Hflat'.
Qed.

(** A navigation list without nested lists is numbered 1, 2, 3, ... in
    document order. *)
Theorem html_flat_list_order (e : Epub SectionT Hook) (tocObj : JsVal)
  (toc : list TOCItem) :
  _genStructureForHTML parseLink e tocObj = Ok toc ->
  Forall (fun t => exists v, children t = inl v) toc ->
  map playOrder toc
  = map (fun i => PlayNum (1 + Z.of_nat i)) (seq 0 (length toc)).
Proof.
  unfold _genStructureForHTML. intros H Hflat.
  apply bind_Ok in H. destruct H as (root & _ & H).
  unfold run in H.
  destruct (parseOuterHTML parseLink e (height tocObj) root 1%Z)
    as [[[ts s']|err]|] eqn:E; try discriminate.
  apply Ok_inj in H. subst ts.
  destruct (html_outer_siblings _ _ _ _ E) as [Hfirst Hnext].
  now apply flat_orders.
Qed.

End Outline.

Section Ncx.

Variables SectionT Hook : Type.
Variable parseLink : JsVal -> Result ParsedLink.

(** ** The outline built from navigation points *)

Lemma ncx_item_children (e : Epub SectionT Hook) (n sid nid p : JsVal)
  (o : PlayOrder) (kids : list TOCItem) (navPoint : JsVal) :
  ncx_item parseLink e (TOC n sid nid p o (inr kids)) navPoint <->
  n = get navPoint ["navLabel"; "text"] JUndef
  /\ p = get navPoint ["content"; "@src"] (JStr "")
  /\ o = PlayVal (get navPoint ["@playOrder"] JUndef)
  /\ _resolveIdFromLink parseLink e p = Ok sid
  /\ (exists l, parseLink p = Ok l
                /\ nid = if hash l =? "" then member navPoint "@id"
                         else JStr (hash l))
  /\ truthy (member navPoint "navPoint") = true
  /\ ncx_items parseLink e kids (as_array (member navPoint "navPoint")).
Proof.
  cbn [ncx_item].
  assert (Hall : forall ks qs,
             (fix all (kids : list TOCItem) (points : list JsVal) : Prop :=
                match kids, points with
                | [], [] => True
                | k :: ks, q :: qs => ncx_item parseLink e k q /\ all ks qs
                | _, _ => False
                end) ks qs <-> ncx_items parseLink e ks qs).
  { induction ks as [|k ks IH]; intros [|q qs]; cbn [ncx_items]; try tauto.
    rewrite IH. tauto. }
  rewrite Hall. tauto.
Qed.

Lemma parseNavPoint_shape (e : Epub SectionT Hook) (fuel : nat)
  (navPoint : JsVal) (s s' : unit) (t : TOCItem) :
  parseNavPoint parseLink e (S fuel) navPoint s = Some (Ok (t, s')) ->
  exists l sid c,
    parseLink (get navPoint ["content"; "@src"] (JStr "")) = Ok l
    /\ _resolveIdFromLink parseLink e (get navPoint ["content"; "@src"] (JStr ""))
       = Ok sid
    /\ t = TOC (get navPoint ["navLabel"; "text"] JUndef) sid
               (if hash l =? "" then member navPoint "@id" else JStr (hash l))
               (get navPoint ["content"; "@src"] (JStr ""))
               (PlayVal (get navPoint ["@playOrder"] JUndef)) c
    /\ (if truthy (member navPoint "navPoint")
        then exists kids s1,
            c = inr kids
            /\ mapW (parseNavPoint parseLink e fuel)
                    (as_array (member navPoint "navPoint")) s
               = Some (Ok (kids, s1))
        else c = inl (member navPoint "navPoint")).
Proof.
  cbn [parseNavPoint]. intros H.
  apply bindW_Ok in H. destruct H as (l & s1 & Hl & H).
  apply lift_Ok in Hl. destruct Hl as [Hl ->].
  apply bindW_Ok in H. destruct H as (ch & s2 & Hch & H).
  apply lift_Ok in Hch. destruct Hch as [Hch ->].
  unfold prop in Hch. destruct (nullish navPoint); [discriminate|].
  apply Ok_inj in Hch. subst ch.
  apply bindW_Ok in H. destruct H as (c & s3 & Hc & H).
  apply bindW_Ok in H. destruct H as (sid & s4 & Hsid & H).
  apply lift_Ok in Hsid. destruct Hsid as [Hsid ->].
  unfold ret in H. inversion H; subst t s'; clear H.
  exists l, sid, c. split; [exact Hl|]. split; [exact Hsid|].
  split; [reflexivity|].
  destruct (truthy (member navPoint "navPoint")).
  - apply bindW_Ok in Hc. destruct Hc as (kids & s5 & Hk & Hc).
    unfold ret in Hc. inversion Hc; subst c s5; clear Hc.
    exists kids, s3. split; [reflexivity | exact Hk].
  - unfold ret in Hc. inversion Hc. reflexivity.
Qed.

Lemma parseNavPoint_item (e : Epub SectionT Hook) (fuel : nat) :
  forall navPoint s s' t,
    parseNavPoint parseLink e fuel navPoint s = Some (Ok (t, s')) ->
    ncx_item parseLink e t navPoint.
Proof.
  induction fuel as [|fuel IH]; intros navPoint s s' t H; [discriminate|].
  apply parseNavPoint_shape in H.
  destruct H as (l & sid & c & Hl & Hsid & -> & Hc).
  destruct (truthy (member navPoint "navPoint")) eqn:Ht.
  - destruct Hc as (kids & s1 & -> & Hk).
    apply ncx_item_children. repeat (split; [reflexivity || assumption || eauto|]).
    revert s kids s1 Hk.
    induction (as_array (member navPoint "navPoint")) as [|q qs IHq];
      intros s kids s1 Hk.
    + cbn [mapW] in Hk. unfold ret in Hk. inversion Hk. exact I.
    + cbn [mapW] in Hk.
      apply bindW_Ok in Hk. destruct Hk as (k & s2 & Hq & Hk).
      apply bindW_Ok in Hk. destruct Hk as (ks & s3 & Hqs & Hk).
      unfold ret in Hk. inversion Hk; subst kids s3; clear Hk.
      cbn [ncx_items]. split; [eapply IH; exact Hq | eapply IHq; exact Hqs].
  - subst c. cbn [ncx_item].
    repeat (split; [reflexivity || assumption || eauto|]). exact Ht.
Qed.

(** The outline of a navigation document of the older kind has one item for
    every navigation point, nested as the points are and in their order (a
    single point counting as a list of one); label, link and order are those
    authored, never computed, and the id is what the link resolves to. *)
Theorem ncx_outline_mirrors (e : Epub SectionT Hook) (tocObj : JsVal)
  (toc : list TOCItem) :
  truthy (member tocObj "html") = false ->
  _genStructure parseLink e tocObj = Ok toc ->
  ncx_items parseLink e toc
            (as_array (get tocObj ["ncx"; "navMap"; "navPoint"] (JArr []))).
Proof.
  intros Hhtml H. unfold _genStructure in H.
  apply bind_Ok in H. destruct H as (html & Hp & H).
  unfold prop in Hp. destruct (nullish tocObj); [discriminate|].
  apply Ok_inj in Hp. subst html. rewrite Hhtml in H.
  unfold run, parseNavPoints in H.
  fold (as_array (get tocObj ["ncx"; "navMap"; "navPoint"] (JArr []))) in H.
  revert H. generalize tt.
  generalize (height tocObj). intros fuel.
  revert toc.
  induction (as_array (get tocObj ["ncx"; "navMap"; "navPoint"] (JArr [])))
    as [|q qs IHq]; intros toc u H.
  - cbn [mapW] in H. unfold ret in H. apply Ok_inj in H. subst toc. exact I.
  - destruct (mapW (parseNavPoint parseLink e fuel) (q :: qs) u)
      as [[[ts s']|err]|] eqn:E; try discriminate.
    apply Ok_inj in H. subst ts. cbn [mapW] in E.
    apply bindW_Ok in E. destruct E as (k & s2 & Hq & E).
    apply bindW_Ok in E. destruct E as (ks & s3 & Hqs & E).
    unfold ret in E. inversion E; subst toc s3; clear E.
    cbn [ncx_items]. split.
    + eapply parseNavPoint_item. exact Hq.
    + apply (IHq ks s2). now rewrite Hqs.
Qed.

End Ncx.

Section Again.

Variables SectionT Hook : Type.
Variable decodeURI : string -> Result string.
Variable xmlToJson : string -> Result JsVal.
Variable determineRoot : JsVal -> Result string.
Variable parseLink : JsVal -> Result ParsedLink.
Variable parseSection : SectionInput -> Result SectionT.
Variable register : SectionT -> Hook -> Result SectionT.

(** ** What the stages read *)

Lemma bindW_cong {S A B : Type} (w1 w2 : Walk S A) (f g : A -> Walk S B) (s : S) :
  w1 s = w2 s -> (forall a s', f a s' = g a s') ->
  bindW w1 f s = bindW w2 g s.
Proof.
  intros Hw Hf. unfold bindW. rewrite Hw.
  destruct (w2 s) as [[[a s']|err]|]; [apply Hf | reflexivity | reflexivity].
Qed.

Lemma mapW_cong {S A B : Type} (f g : A -> Walk S B) (l : list A) :
  (forall x s, f x s = g x s) -> forall s, mapW f l s = mapW g l s.
Proof.
  intros H. induction l as [|x l IH]; intros s; [reflexivity|].
  cbn [mapW]. apply bindW_cong; [apply H|].
  intros y s1. apply bindW_cong; [apply IH | reflexivity].
Qed.

Lemma resolveId_same (e1 e2 : Epub SectionT Hook) (link : JsVal) :
  _manifest e1 = _manifest e2 ->
  _resolveIdFromLink parseLink e1 link = _resolveIdFromLink parseLink e2 link.
Proof. intros H. unfold _resolveIdFromLink. now rewrite H. Qed.

Lemma parseHTMLNavPoints_same (e1 e2 : Epub SectionT Hook) (fuel : nat) :
  _manifest e1 = _manifest e2 ->
  forall navPoint s,
    parseHTMLNavPoints parseLink e1 fuel navPoint s
    = parseHTMLNavPoints parseLink e2 fuel navPoint s.
Proof.
  intros Hm. induction fuel as [|fuel IH]; intros navPoint s; [reflexivity|].
  cbn [parseHTMLNavPoints].
  do 5 (apply bindW_cong; [reflexivity | intros ? ?]).
  apply bindW_cong; [unfold lift; now rewrite (@resolveId_same e1 e2 _ Hm) | intros ? ?].
  do 2 (apply bindW_cong; [reflexivity | intros ? ?]).
  apply bindW_cong; [|reflexivity].
  destruct (truthy _); [|reflexivity].
  apply bindW_cong; [|reflexivity].
  destruct (optprop (optindex0 (optprop navPoint "ol")) "li"); try reflexivity.
  cbn [arrayMapW]. now apply mapW_cong.
Qed.

Lemma parseNavPoint_same (e1 e2 : Epub SectionT Hook) (fuel : nat) :
  _manifest e1 = _manifest e2 ->
  forall navPoint s,
    parseNavPoint parseLink e1 fuel navPoint s
    = parseNavPoint parseLink e2 fuel navPoint s.
Proof.
  intros Hm. induction fuel as [|fuel IH]; intros navPoint s; [reflexivity|].
  cbn [parseNavPoint].
  do 2 (apply bindW_cong; [reflexivity | intros ? ?]).
  apply bindW_cong.
  - destruct (truthy _); [|reflexivity].
    apply bindW_cong; [|reflexivity]. now apply mapW_cong.
  - intros ? ?.
    apply bindW_cong; [unfold lift; now rewrite (@resolveId_same e1 e2 _ Hm) | reflexivity].
Qed.

Lemma genStructure_same (e1 e2 : Epub SectionT Hook) (tocObj : JsVal) :
  _manifest e1 = _manifest e2 ->
  _genStructure parseLink e1 tocObj = _genStructure parseLink e2 tocObj.
Proof.
  intros Hm. unfold _genStructure, _genStructureForHTML, run, parseOuterHTML,
    parseNavPoints.
  destruct (prop tocObj "html") as [html|]; [|reflexivity]. cbn [bind].
  destruct (truthy html).
  - destruct (tocRoot tocObj) as [root|]; [|reflexivity]. cbn [bind].
    destruct root as [| | |l|]; try reflexivity. cbn [arrayMapW].
    now rewrite (@mapW_cong _ _ _ _ _ l
                   (@parseHTMLNavPoints_same e1 e2 (height tocObj) Hm)).
  - now rewrite (@mapW_cong _ _ _ _ _
                   (as_array (get tocObj ["ncx"; "navMap"; "navPoint"] (JArr [])))
                   (@parseNavPoint_same e1 e2 (height tocObj) Hm)).
Qed.

(** The outline is a function of the navigation object and the manifest
    alone: two states with the same manifest build the same outline, whatever
    the archive, the spine or the sections are. *)
Theorem outline_reads_manifest_only (e1 e2 : Epub SectionT Hook) (tocObj : JsVal) :
  _manifest e1 = _manifest e2 ->
  _genStructure parseLink e1 tocObj = _genStructure parseLink e2 tocObj.
Proof. apply genStructure_same. Qed.

Lemma epub_ext (e1 e2 : Epub SectionT Hook) :
  _zip e1 = _zip e2 -> _opfPath e1 = _opfPath e2 -> _root e1 = _root e2 ->
  _content e1 = _content e2 -> _manifest e1 = _manifest e2 ->
  _spine e1 = _spine e2 -> _toc e1 = _toc e2 -> _metadata e1 = _metadata e2 ->
  _options e1 = _options e2 -> structure e1 = structure e2 ->
  info e1 = info e2 -> sections e1 = sections e2 -> tocFile e1 = tocFile e2 ->
  e1 = e2.
Proof.
  destruct e1, e2. cbn. intros. subst. reflexivity.
Qed.

Lemma parse_toc_cases (e e7 : Epub SectionT Hook) :
  parse_toc decodeURI xmlToJson parseLink e = Ok e7 ->
  (truthy (tocFile e) = false /\ e7 = e)
  \/ (truthy (tocFile e) = true
      /\ exists toc s,
          _resolveXMLAsJsObject decodeURI xmlToJson e (tocFile e) = Ok toc
          /\ _genStructure parseLink (set_toc toc e) toc = Ok s
          /\ e7 = set_structure s (set_toc toc e)).
Proof.
  unfold parse_toc. destruct (truthy (tocFile e)).
  - intros H. right. split; [reflexivity|].
    apply bind_Ok in H. destruct H as (toc & Htoc & H).
    apply bind_Ok in H. destruct H as (s & Hs & H).
    apply Ok_inj in H. exists toc, s. auto.
  - intros H. apply Ok_inj in H. left. auto.
Qed.

Lemma resolveXML_same (e1 e2 : Epub SectionT Hook) (path : JsVal) :
  _zip e1 = _zip e2 -> _root e1 = _root e2 ->
  _resolveXMLAsJsObject decodeURI xmlToJson e1 path
  = _resolveXMLAsJsObject decodeURI xmlToJson e2 path.
Proof.
  intros Hz Hr. unfold _resolveXMLAsJsObject, resolve, resolved_path, root_prefix.
  now rewrite Hz, Hr.
Qed.

Lemma resolveXML_absolute (e1 e2 : Epub SectionT Hook) (path : string) :
  _zip e1 = _zip e2 ->
  _resolveXMLAsJsObject decodeURI xmlToJson e1 (JStr (String "/" path))
  = _resolveXMLAsJsObject decodeURI xmlToJson e2 (JStr (String "/" path)).
Proof.
  intros Hz. unfold _resolveXMLAsJsObject, resolve.
  rewrite !resolved_path_string. cbn [starts_with_separator].
  rewrite Ascii.eqb_refl. cbn [bind]. now rewrite Hz.
Qed.

Lemma getOpfPath_same (e1 e2 : Epub SectionT Hook) :
  _zip e1 = _zip e2 ->
  _getOpfPath decodeURI xmlToJson e1 = _getOpfPath decodeURI xmlToJson e2.
Proof.
  intros Hz. unfold _getOpfPath.
  now rewrite (@resolveXML_absolute e1 e2 "META-INF/container.xml" Hz).
Qed.

Lemma getManifest_cached (e : Epub SectionT Hook) (m : list Manifest)
  (content : JsVal) :
  _manifest e = Some m -> getManifest e content = Ok m.
Proof. intros H. unfold getManifest. now rewrite H. Qed.

Lemma getSpine_same (e1 e2 : Epub SectionT Hook) :
  _manifest e1 = _manifest e2 -> _content e1 = _content e2 ->
  getSpine e1 = getSpine e2.
Proof. intros Hm Hc. unfold getSpine, getManifest. now rewrite Hm, Hc. Qed.

Lemma resolveSections_same (e1 e2 : Epub SectionT Hook) (id : option string) :
  _zip e1 = _zip e2 -> _root e1 = _root e2 -> _manifest e1 = _manifest e2 ->
  _spine e1 = _spine e2 -> _options e1 = _options e2 ->
  _resolveSections decodeURI parseLink parseSection register e1 id
  = _resolveSections decodeURI parseLink parseSection register e2 id.
Proof.
  destruct e1, e2. cbn. intros. subst. reflexivity.
Qed.

(** Parsing again changes nothing: [parse] on the document a parse has
    fulfilled (same archive, same collaborators) fulfils with the same
    document, field for field. *)
Theorem parse_idempotent (e e' : Epub SectionT Hook) :
  parse decodeURI xmlToJson determineRoot parseLink parseSection register e = Ok e' ->
  parse decodeURI xmlToJson determineRoot parseLink parseSection register e' = Ok e'.
Proof.
  intros H. apply parse_stages in H.
  destruct H as (opfPath & content & root & manifest & e7 & spine & inf & ss
                 & H1 & H2 & H3 & H4 & H5 & H6 & H7 & H8 & He').
  set (A := after_package e opfPath content root manifest) in *.
  assert (F7 : _zip e7 = _zip A /\ _root e7 = _root A /\ _content e7 = _content A
               /\ _manifest e7 = _manifest A /\ _metadata e7 = _metadata A
               /\ _options e7 = _options A /\ tocFile e7 = tocFile A
               /\ _opfPath e7 = _opfPath A).
  { apply parse_toc_fields in H5. tauto. }
  destruct F7 as (Z7 & R7 & C7 & M7 & D7 & O7 & T7 & P7).
  assert (FA : _zip A = _zip e /\ _root A = Some root /\ _content A = content
               /\ _manifest A = Some manifest /\ _opfPath A = opfPath
               /\ _metadata A = get content ["package"; "metadata"] (JObj [])
               /\ tocFile A = match find_id "ncx" manifest with
                              | Some item => href item
                              | None => JUndef
                              end).
  { repeat split. }
  destruct FA as (ZA & RA & CA & MA & PA & DA & TA).
  assert (Fe : _zip e' = _zip e7 /\ _root e' = _root e7 /\ _content e' = _content e7
               /\ _manifest e' = _manifest e7 /\ _metadata e' = _metadata e7
               /\ _options e' = _options e7 /\ tocFile e' = tocFile e7
               /\ _opfPath e' = _opfPath e7 /\ _toc e' = _toc e7
               /\ structure e' = structure e7 /\ _spine e' = Some spine
               /\ info e' = Some inf /\ sections e' = Some ss).
  { subst e'. repeat split. }
  destruct Fe as (Ze & Re & Ce & Me & De & Oe & Te & Pe & Toce & Se & Spe & Ie & Sse).
  assert (HA : after_package e' opfPath content root manifest = e').
  { apply epub_ext; cbn [after_package set_tocFile set_metadata set_manifest set_root
                           set_content set_opfPath _zip _opfPath _root _content
                           _manifest _spine _toc _metadata _options structure info
                           sections tocFile ncx_href]; try reflexivity.
    - now rewrite Pe, P7, PA.
    - now rewrite Re, R7, RA.
    - now rewrite Ce, C7, CA.
    - now rewrite Me, M7, MA.
    - now rewrite De, D7, DA.
    - now rewrite Te, T7, TA. }
  apply parse_stages.
  exists opfPath, content, root, manifest, e', spine, inf, ss.
  split; [|split; [|split; [|split; [|split; [|split; [|split; [|split]]]]]]].
  - rewrite <- H1. apply getOpfPath_same. now rewrite Ze, Z7, ZA.
  - rewrite <- H2. apply resolveXML_absolute. now rewrite Ze, Z7, ZA.
  - exact H3.
  - apply getManifest_cached. now rewrite Me, M7, MA.
  - rewrite HA. apply parse_toc_cases in H5.
    unfold parse_toc. rewrite Te, T7.
    destruct H5 as [[Hf He7]|(Ht & toc & s & Htoc & Hs & He7)].
    + now rewrite Hf.
    + rewrite Ht.
      rewrite (@resolveXML_same e' A (tocFile A));
        [|now rewrite Ze, Z7 | now rewrite Re, R7].
      rewrite Htoc. cbn [bind].
      rewrite (genStructure_same (set_toc toc e') (set_toc toc A) toc);
        [|cbn [set_toc _manifest]; now rewrite Me, M7].
      rewrite Hs. cbn [bind]. apply (f_equal (@Ok (Epub SectionT Hook))).
      assert (F : _toc e7 = toc /\ structure e7 = Some s) by (subst e7; now split).
      destruct F as [F1 F2].
      apply epub_ext;
        cbn [set_structure set_toc _zip _opfPath _root _content _manifest _spine
               _toc _metadata _options structure info sections tocFile];
        try reflexivity.
      * now rewrite Toce.
      * now rewrite Se.
  - rewrite <- H6. apply getSpine_same; [exact Me | exact Ce].
  - rewrite De. exact H7.
  - rewrite <- H8. apply resolveSections_same;
      cbn [set_info set_spine _zip _root _manifest _spine _options]; try assumption.
    reflexivity.
  - apply epub_ext;
      cbn [set_sections set_info set_spine _zip _opfPath _root _content _manifest
             _spine _toc _metadata _options structure info sections tocFile];
      try reflexivity; assumption.
Qed.

End Again.

Section Rejections.

Variables SectionT Hook : Type.
Variable decodeURI : string -> Result string.
Variable xmlToJson : string -> Result JsVal.
Variable determineRoot : JsVal -> Result string.
Variable parseLink : JsVal -> Result ParsedLink.
Variable parseSection : SectionInput -> Result SectionT.
Variable register : SectionT -> Hook -> Result SectionT.

(** ** What a fulfilled parse excludes *)

(** A fulfilled parse leaves no dangling reference: every id an item
    reference names, [__proto__] apart (which makes no spine key and is not
    resolved), is the id of a manifest item, and the file of the first such
    item is in the archive.  A reference to another id the manifest lacks
    makes [parse] reject. *)
Theorem references_name_manifest_items (e e' : Epub SectionT Hook) :
  parse decodeURI xmlToJson determineRoot parseLink parseSection register e = Ok e' ->
  exists m,
    _manifest e' = Some m
    /\ forall x, In x (idrefs (_content e')) -> x <> "__proto__" ->
                 exists item html,
                   find_id x m = Some item
                   /\ resolve decodeURI e' (href item) = Ok html.
Proof.
  intros H. apply parse_populated in H.
  destruct H as (m & sp & ss & inf & root & Hm & _ & _ & _ & _ & Hloop & Hall).
  exists m. split; [exact Hm|]. intros x Hx Hproto.
  pose proof (@spine_loop_names _ _ _ _ Hloop) as Hk. simpl in Hk.
  fold (idrefs (_content e')) in Hk.
  assert (Hin : In x (keys sp)).
  { apply (proj2 (keys_In sp x)). apply (proj1 (set_of_In (names sp) x)).
    rewrite Hk. apply (proj2 (set_of_In _ x)).
    apply filter_In. split; [exact Hx|].
    apply String.eqb_neq in Hproto. now rewrite Hproto. }
  destruct (@Forall2_In_l _ _ _ _ _ x Hall Hin) as (s & Hs).
  unfold resolveItem in Hs. rewrite Hm in Hs.
  destruct (find_id x m) as [item|]; [|discriminate Hs].
  cbn [bind] in Hs. apply bind_Ok in Hs. destruct Hs as (html & Hhtml & _).
  now exists item, html.
Qed.

(** A container descriptor whose rootfile gives no [full-path] does not stop
    [parse] there: the missing path is joined as the text [undefined], and
    the parse rejects for want of an archive entry of that name. *)
Theorem parse_without_full_path (e : Epub SectionT Hook) :
  _getOpfPath decodeURI xmlToJson e = Ok JUndef ->
  decodeURI "undefined" = Ok "undefined" ->
  _zip e "undefined" = None ->
  parse decodeURI xmlToJson determineRoot parseLink parseSection register e
  = Err (Error "undefined not found!").
Proof.
  intros Hopf Hdec Hzip.
  apply (@parse_content_Err _ _ decodeURI xmlToJson determineRoot parseLink
           parseSection register e JUndef); [exact Hopf|].
  unfold _resolveXMLAsJsObject, resolve. cbn [to_string].
  rewrite resolved_path_string. cbn. rewrite Hdec. cbn. now rewrite Hzip.
Qed.

End Rejections.

(** ** The further properties on the sample container *)

Lemma first_child_repeats_order_witness :
  parseHTMLNavPoints parseLink_spec (Sample.parsed Sample.book) 4 More.entry 1%Z
  = Some (Ok (More.chapter1, 3%Z))
  /\ children More.chapter1 = inr [More.section1]
  /\ playOrder More.chapter1 = PlayNum 1
  /\ playOrder More.section1 = PlayNum 1.
Proof.
  assert (H : parseHTMLNavPoints parseLink_spec (Sample.parsed Sample.book) 4
                                 More.entry 1%Z
              = Some (Ok (More.chapter1, 3%Z))) by (vm_compute; reflexivity).
  split; [exact H|]. split; [reflexivity|].
  exact (@first_child_repeats_order _ _ parseLink_spec (Sample.parsed Sample.book)
           4 More.entry 1%Z 3%Z More.chapter1 More.section1 [] H eq_refl).
Defined.

Lemma resolveId_first_match_witness :
  _manifest (Sample.parsed More.doubled)
  = Some ([{| href := JStr "Text/chap1.xhtml"; id := JStr "chap1" |}]
            ++ {| href := JStr "Text/chap2.xhtml"; id := JStr "a" |}
            :: [{| href := JStr "Extra/chap2.xhtml"; id := JStr "b" |}])
  /\ _resolveIdFromLink parseLink_spec (Sample.parsed More.doubled)
                        (JStr "chap2.xhtml#top")
     = Ok (JStr "a").
Proof.
  assert (H : _manifest (Sample.parsed More.doubled)
              = Some ([{| href := JStr "Text/chap1.xhtml"; id := JStr "chap1" |}]
                        ++ {| href := JStr "Text/chap2.xhtml"; id := JStr "a" |}
                        :: [{| href := JStr "Extra/chap2.xhtml"; id := JStr "b" |}]))
    by (vm_compute; reflexivity).
  split; [exact H|].
  refine (@resolveId_first_match _ _ parseLink_spec (Sample.parsed More.doubled)
            (JStr "chap2.xhtml#top") {| name := "chap2.xhtml"; hash := "top" |}
            {| name := "chap2.xhtml"; hash := "" |}
            [{| href := JStr "Text/chap1.xhtml"; id := JStr "chap1" |}]
            [{| href := JStr "Extra/chap2.xhtml"; id := JStr "b" |}]
            {| href := JStr "Text/chap2.xhtml"; id := JStr "a" |}
            eq_refl H _ eq_refl eq_refl).
  repeat constructor. eexists. split; [reflexivity | discriminate].
Defined.

Lemma resolveId_never_nullish_witness :
  _resolveIdFromLink parseLink_spec (Sample.parsed More.unnamed) (JStr "chap1.xhtml")
  = Ok (JStr "")
  /\ nullish (JStr "") = false.
Proof.
  assert (H : _resolveIdFromLink parseLink_spec (Sample.parsed More.unnamed)
                                 (JStr "chap1.xhtml")
              = Ok (JStr "")) by (vm_compute; reflexivity).
  split; [exact H|].
  exact (@resolveId_never_nullish _ _ parseLink_spec (Sample.parsed More.unnamed)
           (JStr "chap1.xhtml") (JStr "") H).
Defined.

Lemma getManifest_shape_witness :
  _manifest (newEpub Sample.zip None : Epub Sample.SectionF unit) = None
  /\ getManifest (newEpub Sample.zip None : Epub Sample.SectionF unit) Sample.book
     = Ok [{| href := JStr "Text/chap1.xhtml"; id := JStr "chap1" |};
           {| href := JStr "Text/chap2.xhtml"; id := JStr "chap2" |}].
Proof.
  split; [reflexivity|].
  apply (proj1 (@getManifest_shape Sample.SectionF unit (newEpub Sample.zip None)
                  Sample.book eq_refl)).
  exists Sample.chapters. split; [reflexivity|]. split; reflexivity.
Defined.

Lemma getSpine_last_reference_witness :
  getSpine (Sample.parsed More.proto) = Ok [("chap1", 0%Z); ("chap2", 2%Z)]
  /\ idrefs (_content (Sample.parsed More.proto)) = ["chap1"; "__proto__"; "chap2"]
  /\ (assoc "chap2" [("chap1", 0%Z); ("chap2", 2%Z)] = Some 2%Z <->
      "chap2" <> "__proto__"
      /\ exists j,
          2%Z = Z.of_nat j
          /\ nth_error (idrefs (_content (Sample.parsed More.proto))) j = Some "chap2"
          /\ forall j', j < j' ->
                        nth_error (idrefs (_content (Sample.parsed More.proto))) j'
                        <> Some "chap2")
  /\ assoc "__proto__" [("chap1", 0%Z); ("chap2", 2%Z)] = None.
Proof.
  assert (H : getSpine (Sample.parsed More.proto) = Ok [("chap1", 0%Z); ("chap2", 2%Z)])
    by (vm_compute; reflexivity).
  split; [exact H|]. split; [vm_compute; reflexivity|]. split; [|reflexivity].
  exact (@getSpine_last_reference _ _ (Sample.parsed More.proto)
           [("chap1", 0%Z); ("chap2", 2%Z)] H "chap2" 2%Z).
Defined.

Lemma sample_twice_parsed :
  parse Sample.decodeURI (Sample.xmlToJson Sample.twice) determineRoot_spec
        parseLink_spec Sample.parseSection Sample.register
        (newEpub Sample.zip (Some (defaultOptions unit)))
  = Ok (Sample.parsed Sample.twice).
Proof. vm_compute. reflexivity. Defined.

Lemma sections_in_first_reference_order_witness :
  parse Sample.decodeURI (Sample.xmlToJson Sample.twice) determineRoot_spec
        parseLink_spec Sample.parseSection Sample.register
        (newEpub Sample.zip (Some (defaultOptions unit)))
  = Ok (Sample.parsed Sample.twice)
  /\ forallb ordinary_key (idrefs (_content (Sample.parsed Sample.twice))) = true
  /\ (exists ss,
         sections (Sample.parsed Sample.twice) = Some ss
         /\ Forall2 (fun x s =>
                       resolveItem Sample.decodeURI parseLink_spec Sample.parseSection
                                   Sample.register (Sample.parsed Sample.twice) x
                       = Ok s)
                    (set_of (idrefs (_content (Sample.parsed Sample.twice)))) ss)
  /\ (idrefs (_content (Sample.parsed More.numbered)) = ["2"; "1"]
      /\ sections (Sample.parsed More.numbered)
         = Some [("1", "chapter one"); ("2", "chapter two")]).
Proof.
  assert (Hord : forallb ordinary_key (idrefs (_content (Sample.parsed Sample.twice)))
                 = true) by (vm_compute; reflexivity).
  split; [exact sample_twice_parsed|]. split; [exact Hord|].
  split; [|split; vm_compute; reflexivity].
  exact (@sections_in_first_reference_order _ _ Sample.decodeURI
           (Sample.xmlToJson Sample.twice) determineRoot_spec parseLink_spec
           Sample.parseSection Sample.register _ _ sample_twice_parsed Hord).
Defined.

Lemma getSection_is_direct_resolution_witness :
  parse Sample.decodeURI (Sample.xmlToJson More.short) determineRoot_spec
        parseLink_spec Sample.parseSection Sample.register
        (newEpub Sample.zip (Some (defaultOptions unit)))
  = Ok (Sample.parsed More.short)
  /\ NoDup (idrefs (_content (Sample.parsed More.short)))
  /\ forallb ordinary_key (idrefs (_content (Sample.parsed More.short))) = true
  /\ In "chap1" (idrefs (_content (Sample.parsed More.short)))
  /\ getSection Sample.decodeURI parseLink_spec Sample.parseSection Sample.register
                (Sample.parsed More.short) "chap1"
     = (s <- resolveItem Sample.decodeURI parseLink_spec Sample.parseSection
                         Sample.register (Sample.parsed More.short) "chap1" ;;
        Ok (Val s))
  /\ ("chap2" <> "" /\ ~ In "chap2" object_prototype)
  /\ getSection Sample.decodeURI parseLink_spec Sample.parseSection Sample.register
                (Sample.parsed More.short) "chap2"
     = (s <- resolveItem Sample.decodeURI parseLink_spec Sample.parseSection
                         Sample.register (Sample.parsed More.short) "chap2" ;;
        Ok (Val s)).
Proof.
  assert (Hnd : NoDup (idrefs (_content (Sample.parsed More.short)))).
  { vm_compute. repeat constructor; simpl; intuition discriminate. }
  assert (Hord : forallb ordinary_key (idrefs (_content (Sample.parsed More.short)))
                 = true) by (vm_compute; reflexivity).
  assert (Hin : In "chap1" (idrefs (_content (Sample.parsed More.short)))).
  { vm_compute. now left. }
  assert (Hout : "chap2" <> "" /\ ~ In "chap2" object_prototype).
  { split; [discriminate|]. simpl. intuition discriminate. }
  split; [exact sample_short_parsed|]. split; [exact Hnd|]. split; [exact Hord|].
  split; [exact Hin|]. split; [|split; [exact Hout|]].
  - exact (@getSection_is_direct_resolution _ _ Sample.decodeURI
             (Sample.xmlToJson More.short) determineRoot_spec parseLink_spec
             Sample.parseSection Sample.register _ _ "chap1" sample_short_parsed
             Hnd Hord (or_introl Hin)).
  - exact (@getSection_is_direct_resolution _ _ Sample.decodeURI
             (Sample.xmlToJson More.short) determineRoot_spec parseLink_spec
             Sample.parseSection Sample.register _ _ "chap2" sample_short_parsed
             Hnd Hord (or_intror Hout)).
Defined.

Lemma resolveHTMLId_unchanged_witness :
  includes "images/cover.jpg" ".htm" = false
  /\ includes "images/cover.jpg" ".xhtm" = false
  /\ resolveHTMLId "images/cover.jpg" = "images/cover.jpg".
Proof.
  split; [reflexivity|]. split; [reflexivity|].
  exact (@resolveHTMLId_unchanged "images/cover.jpg" eq_refl eq_refl).
Defined.

Lemma resolveHTMLId_strips_witness :
  includes "Text/chap1" ".htm" = false
  /\ includes "Text/chap1" ".xhtm" = false
  /\ one_line "#s1" = true
  /\ resolveHTMLId ("Text/chap1" ++ ".xhtml" ++ "#s1") = "Text/chap1"
  /\ (one_line (More.line_separator ++ "b.html") = false
      /\ resolveHTMLId ("a" ++ ".html" ++ More.line_separator ++ "b.html")
         = ("a" ++ More.line_separator ++ "b.html")%string).
Proof.
  split; [reflexivity|]. split; [reflexivity|]. split; [reflexivity|].
  split; [|split; reflexivity].
  refine (@resolveHTMLId_strips "Text/chap1" ".xhtml" "#s1" eq_refl eq_refl _
            eq_refl).
  simpl. tauto.
Defined.

Lemma resolveHTMLId_idempotent_witness :
  one_line "notes.html?next=index.htm" = true
  /\ resolveHTMLId "notes.html?next=index.htm" = "notes"
  /\ resolveHTMLId (resolveHTMLId "notes.html?next=index.htm")
     = resolveHTMLId "notes.html?next=index.htm".
Proof.
  split; [reflexivity|]. split; [reflexivity|].
  exact (proj1 (@resolveHTMLId_idempotent "notes.html?next=index.htm" eq_refl)).
Defined.

Lemma html_sibling_order_witness :
  parseOuterHTML parseLink_spec (Sample.parsed Sample.book) 4 More.shelf 1%Z
  = Some (Ok (More.shelf_items, 6%Z))
  /\ map playOrder More.shelf_items = [PlayNum 1; PlayNum 2; PlayNum 5]
  /\ (forall t, nth_error More.shelf_items 0 = Some t -> playOrder t = PlayNum 1)
  /\ (forall i t1 t2,
         nth_error More.shelf_items i = Some t1 ->
         nth_error More.shelf_items (S i) = Some t2 ->
         exists o, playOrder t1 = PlayNum o
                   /\ playOrder t2 = PlayNum (o + Z.of_nat (length (preorder t1)))).
Proof.
  assert (H : parseOuterHTML parseLink_spec (Sample.parsed Sample.book) 4
                             More.shelf 1%Z
              = Some (Ok (More.shelf_items, 6%Z))) by (vm_compute; reflexivity).
  split; [exact H|]. split; [reflexivity|].
  exact (@html_sibling_order _ _ parseLink_spec (Sample.parsed Sample.book) 4
           More.shelf 1%Z 6%Z More.shelf_items H).
Defined.

Lemma html_flat_list_order_witness :
  _genStructureForHTML parseLink_spec (Sample.parsed Sample.book) More.contents
  = Ok More.contents_outline
  /\ Forall (fun t => exists v, children t = inl v) More.contents_outline
  /\ map playOrder More.contents_outline = [PlayNum 1; PlayNum 2; PlayNum 3].
Proof.
  assert (H : _genStructureForHTML parseLink_spec (Sample.parsed Sample.book)
                                   More.contents
              = Ok More.contents_outline) by (vm_compute; reflexivity).
  assert (Hflat : Forall (fun t => exists v, children t = inl v)
                         More.contents_outline).
  { repeat constructor; eexists; reflexivity. }
  split; [exact H|]. split; [exact Hflat|].
  exact (@html_flat_list_order _ _ parseLink_spec (Sample.parsed Sample.book)
           More.contents More.contents_outline H Hflat).
Defined.

Lemma ncx_outline_mirrors_witness :
  truthy (member More.ncx "html") = false
  /\ _genStructure parseLink_spec (Sample.parsed Sample.book) More.ncx
     = Ok More.ncx_outline
  /\ ncx_items parseLink_spec (Sample.parsed Sample.book) More.ncx_outline
               (as_array (get More.ncx ["ncx"; "navMap"; "navPoint"] (JArr []))).
Proof.
  assert (H : _genStructure parseLink_spec (Sample.parsed Sample.book) More.ncx
              = Ok More.ncx_outline) by (vm_compute; reflexivity).
  split; [reflexivity|]. split; [exact H|].
  exact (@ncx_outline_mirrors _ _ parseLink_spec (Sample.parsed Sample.book)
           More.ncx More.ncx_outline eq_refl H).
Defined.

Lemma outline_reads_manifest_only_witness :
  _manifest (Sample.parsed Sample.book)
  = _manifest (set_manifest More.chapters_manifest
                 (newEpub Sample.zip None : Epub Sample.SectionF unit))
  /\ _genStructure parseLink_spec (Sample.parsed Sample.book) More.ncx
     = _genStructure parseLink_spec
         (set_manifest More.chapters_manifest
            (newEpub Sample.zip None : Epub Sample.SectionF unit)) More.ncx.
Proof.
  assert (H : _manifest (Sample.parsed Sample.book)
              = _manifest (set_manifest More.chapters_manifest
                             (newEpub Sample.zip None : Epub Sample.SectionF unit)))
    by (vm_compute; reflexivity).
  split; [exact H|].
  exact (@outline_reads_manifest_only _ _ parseLink_spec _ _ More.ncx H).
Defined.

Lemma sample_guide_parsed :
  parse Sample.decodeURI (More.xmlToJson More.guide) determineRoot_spec
        parseLink_spec Sample.parseSection Sample.register
        (newEpub More.zip (Some (defaultOptions unit)))
  = Ok (More.parsed More.guide).
Proof. vm_compute. reflexivity. Defined.

Lemma parse_idempotent_witness :
  parse Sample.decodeURI (More.xmlToJson More.guide) determineRoot_spec
        parseLink_spec Sample.parseSection Sample.register
        (newEpub More.zip (Some (defaultOptions unit)))
  = Ok (More.parsed More.guide)
  /\ structure (More.parsed More.guide) = Some More.ncx_outline
  /\ parse Sample.decodeURI (More.xmlToJson More.guide) determineRoot_spec
           parseLink_spec Sample.parseSection Sample.register
           (More.parsed More.guide)
     = Ok (More.parsed More.guide).
Proof.
  split; [exact sample_guide_parsed|]. split; [vm_compute; reflexivity|].
  exact (@parse_idempotent _ _ Sample.decodeURI (More.xmlToJson More.guide)
           determineRoot_spec parseLink_spec Sample.parseSection Sample.register
           _ _ sample_guide_parsed).
Defined.

Lemma sample_proto_parsed :
  parse Sample.decodeURI (Sample.xmlToJson More.proto) determineRoot_spec
        parseLink_spec Sample.parseSection Sample.register
        (newEpub Sample.zip (Some (defaultOptions unit)))
  = Ok (Sample.parsed More.proto).
Proof. vm_compute. reflexivity. Defined.

Lemma references_name_manifest_items_witness :
  parse Sample.decodeURI (Sample.xmlToJson More.proto) determineRoot_spec
        parseLink_spec Sample.parseSection Sample.register
        (newEpub Sample.zip (Some (defaultOptions unit)))
  = Ok (Sample.parsed More.proto)
  /\ idrefs (_content (Sample.parsed More.proto)) = ["chap1"; "__proto__"; "chap2"]
  /\ (exists m,
         _manifest (Sample.parsed More.proto) = Some m
         /\ forall x, In x (idrefs (_content (Sample.parsed More.proto))) ->
                      x <> "__proto__" ->
                      exists item html,
                        find_id x m = Some item
                        /\ resolve Sample.decodeURI (Sample.parsed More.proto)
                                   (href item) = Ok html)
  /\ Sample.run More.dangling = Err TypeError.
Proof.
  split; [exact sample_proto_parsed|]. split; [vm_compute; reflexivity|].
  split; [|vm_compute; reflexivity].
  exact (@references_name_manifest_items _ _ Sample.decodeURI
           (Sample.xmlToJson More.proto) determineRoot_spec parseLink_spec
           Sample.parseSection Sample.register _ _ sample_proto_parsed).
Defined.

Lemma parse_without_full_path_witness :
  _getOpfPath Sample.decodeURI More.xmlToJson_several
              (newEpub Sample.zip (Some (defaultOptions unit))
               : Epub Sample.SectionF unit)
  = Ok JUndef
  /\ parse Sample.decodeURI More.xmlToJson_several determineRoot_spec
           parseLink_spec Sample.parseSection Sample.register
           (newEpub Sample.zip (Some (defaultOptions unit)))
     = Err (Error "undefined not found!").
Proof.
  split; [reflexivity|].
  exact (@parse_without_full_path Sample.SectionF unit Sample.decodeURI
           More.xmlToJson_several determineRoot_spec parseLink_spec
           Sample.parseSection Sample.register
           (newEpub Sample.zip (Some (defaultOptions unit)))
           eq_refl eq_refl eq_refl).
Defined.
